(** * Reconciliation logic of two Terraform AWS resources

    A shallow embedding of
      - aws/resource_aws_vpc_endpoint_service.go
      - aws/resource_aws_s3_object_copy.go
    and proofs of the properties their specification states.

    Go values are modelled as follows.
      - a [string] is a Rocq [string]; a slice is a [list]; a nil slice
        or nil pointer is [None], a non-nil one is [Some];
      - an [error] is a value of the inductive [error]; the nil error
        is [None : option error];
      - a [*schema.Set] built with [schema.HashString] is a [gset string];
      - [*schema.ResourceData] is a record of attribute bags;
      - a run-time panic (index out of range, nil dereference, failed
        type assertion) is the outcome [Panic];
      - the remote API is a state machine over an arbitrary type of
        remote states; every call is appended to a log, so that the
        order of calls can be stated. *)

From stdpp Require Import gmap strings list.
From Stdlib Require Import ZArith Ascii.

Open Scope string_scope.
Close Scope list_scope.
Open Scope list_scope.

(** ** Go errors *)

(** The error values these two files create or inspect.
    [awserr] is an error of the AWS SDK (awserr.RequestFailure) with
    its code, message and HTTP status code.  [fmt_Errorf format args
    err] is [fmt.Errorf(format, args..., err)]: in every use in these
    files the error (or its text) is the last operand. [TimeoutError]
    and [UnexpectedStateError] are the two errors of the state poller. *)
Inductive error : Type :=
| errors_New (text : string)
| awserr (code message : string) (statusCode : Z)
| TimeoutError (lastState : string) (expectedState : list string)
| UnexpectedStateError (state : string) (expectedState : list string)
| fmt_Errorf (format : string) (args : list string) (err : error).

(** [strings.Contains]. *)
Fixpoint strings_HasPrefix (s prefix : string) : bool :=
  match prefix, s with
  | EmptyString, _ => true
  | String c p', String d s' => if Ascii.eqb c d then strings_HasPrefix s' p' else false
  | String _ _, EmptyString => false
  end.

Fixpoint strings_Contains (s substr : string) : bool :=
  strings_HasPrefix s substr ||
  match s with
  | EmptyString => false
  | String _ s' => strings_Contains s' substr
  end.

(** Modelled from the spec: isAWSErr (aws/awserr.go, not under src/)
    recognises an error of the remote API by its error code; the
    message operand must occur in the error's message. *)
Definition isAWSErr (err : error) (code message : string) : bool :=
  match err with
  | awserr c m _ => String.eqb c code && strings_Contains m message
  | _ => false
  end.

(** tfawserr.ErrStatusCodeEquals: a request failure with this HTTP
    status code. *)
Definition ErrStatusCodeEquals (err : error) (statusCode : Z) : bool :=
  match err with
  | awserr _ _ sc => Z.eqb sc statusCode
  | _ => false
  end.

(** The innermost error below the [fmt.Errorf] wrappers. *)
Fixpoint rootCause (err : error) : error :=
  match err with
  | fmt_Errorf _ _ e => rootCause e
  | e => e
  end.

(** ** Outcomes and the state monad of the embedding *)

Inductive outcome (A : Type) : Type :=
| Done (a : A)
| Panic (reason : string).
Arguments Done {A} a.
Arguments Panic {A} reason.

Definition M (St A : Type) : Type := St -> outcome A * St.

Definition ret {St A} (a : A) : M St A := fun s => (Done a, s).

Definition panic {St A} (reason : string) : M St A := fun s => (Panic reason, s).

Definition bind {St A B} (m : M St A) (k : A -> M St B) : M St B :=
  fun s =>
    match m s with
    | (Done a, s') => k a s'
    | (Panic r, s') => (Panic r, s')
    end.

Declare Scope go_scope.
Delimit Scope go_scope with go.
Notation "x <- m ;; k" := (bind m (fun x => k))
  (at level 100, m at next level, right associativity) : go_scope.
Notation "m ;;; k" := (bind m (fun _ => k))
  (at level 100, right associativity) : go_scope.
Open Scope go_scope.

(** [if err := m; err != nil { return err }] followed by [k]. *)
Definition orReturn {St E} (m : M St (option E)) (k : M St (option E)) : M St (option E) :=
  err <- m ;;
  match err with
  | Some e => ret (Some e)
  | None => k
  end.
Notation "'check' m ;; k" := (orReturn m k)
  (at level 100, m at next level, right associativity) : go_scope.

(** ** helper/schema: attribute values and ResourceData *)

(** One grant block of the S3 object copy ([grant] is a set of nested
    resources). *)
Record Grant : Type := mkGrant {
  grant_email : string;
  grant_id : string;
  grant_type : string;
  grant_uri : string;
  grant_permissions : list string
}.

#[global] Instance Grant_eq_dec : EqDecision Grant.
Proof. solve_decision. Defined.

(** The values an attribute of these two resources can hold.  A
    [schema.TypeSet] of strings hashed with [schema.HashString] is a
    [gset string]; a set of nested resources is kept as the list that
    [Set.List()] returns. *)
Inductive Value : Type :=
| VBool (b : bool)
| VString (s : string)
| VSet (s : gset string)
| VMap (m : gmap string string)
| VList (l : list (gmap string string))
| VGrants (l : list Grant).

#[global] Instance Value_eq_dec : EqDecision Value.
Proof. solve_decision. Defined.

(** The zero value test of [GetOk]. *)
Definition isZero (v : Value) : bool :=
  match v with
  | VBool b => negb b
  | VString s => String.eqb s ""
  | VSet s => bool_decide (s = ∅)
  | VMap m => bool_decide (m = ∅)
  | VList l => bool_decide (l = [])
  | VGrants l => bool_decide (l = [])
  end.

(** An absent attribute reads as the zero value of its type: [None]
    stands for that zero value. *)
Definition nz (o : option Value) : option Value :=
  match o with
  | Some v => if isZero v then None else Some v
  | None => None
  end.

Definition asBool (o : option Value) : bool :=
  match o with Some (VBool b) => b | _ => false end.
Definition asString (o : option Value) : string :=
  match o with Some (VString s) => s | _ => "" end.
Definition asSet (o : option Value) : gset string :=
  match o with Some (VSet s) => s | _ => ∅ end.
Definition asMap (o : option Value) : gmap string string :=
  match o with Some (VMap m) => m | _ => ∅ end.
Definition asGrants (o : option Value) : list Grant :=
  match o with Some (VGrants l) => l | _ => [] end.

(** [*schema.ResourceData]: the id, the prior state, the planned
    values (state merged with the diff of the configuration) and the
    values written by [d.Set] during the operation. *)
Record ResourceData : Type := mkResourceData {
  rd_id : string;
  rd_state : gmap string Value;
  rd_planned : gmap string Value;
  rd_written : gmap string Value
}.

Definition Id (d : ResourceData) : string := rd_id d.

Definition SetId (v : string) (d : ResourceData) : ResourceData :=
  {| rd_id := v; rd_state := rd_state d; rd_planned := rd_planned d;
     rd_written := rd_written d |}.

(** [d.Get(key)]: the written value if any, the planned one otherwise. *)
Definition Get (d : ResourceData) (key : string) : option Value :=
  match rd_written d !! key with
  | Some v => nz (Some v)
  | None => nz (rd_planned d !! key)
  end.

(** [d.GetOk(key)]: [Some v] stands for [(v, true)]; the flag is true
    when the attribute is set to a non-zero value. *)
Definition GetOk (d : ResourceData) (key : string) : option Value := Get d key.

(** [d.GetChange(key)]: the value in the prior state and the planned
    value. *)
Definition GetChange (d : ResourceData) (key : string) : option Value * option Value :=
  (nz (rd_state d !! key), nz (rd_planned d !! key)).

Definition HasChange (d : ResourceData) (key : string) : bool :=
  let '(o, n) := GetChange d key in bool_decide (o ≠ n).

Definition HasChanges (d : ResourceData) (keys : list string) : bool :=
  existsb (HasChange d) keys.

(** [d.Set(key, value)]. *)
Definition Set_ (key : string) (v : Value) (d : ResourceData) : ResourceData :=
  {| rd_id := rd_id d; rd_state := rd_state d; rd_planned := rd_planned d;
     rd_written := <[key := v]> (rd_written d) |}.

(** Modelled from the spec: expandStringSet (aws/structure.go, not under
    src/) turns a set of strings into a slice: an unordered collection
    of the members, duplicates impossible. *)
Definition expandStringSet (s : gset string) : list string := elements s.

(** Modelled from the spec: flattenStringSet (aws/structure.go, not
    under src/) is the set of the strings of a slice. *)
Definition flattenStringSet (l : list string) : gset string := list_to_set l.

(** ** The diff engine: setVpcEndpointServiceUpdateLists *)

(** [a] and [r] are the two request fields the Go function receives by
    pointer; the result is their contents on return. *)
Definition setVpcEndpointServiceUpdateLists (d : ResourceData) (key : string)
    (a r : option (list string)) : option (list string) * option (list string) :=
  if HasChange d key then
    let '(o, n) := GetChange d key in
    let os := asSet o in
    let ns := asSet n in
    let add := expandStringSet (ns ∖ os) in
    let a := if (0 <? length add)%nat then Some add else a in
    let remove := expandStringSet (os ∖ ns) in
    let r := if (0 <? length remove)%nat then Some remove else r in
    (a, r)
  else (a, r).

(** The members of a slice, nil or not. *)
Definition members (l : option (list string)) : gset string :=
  list_to_set (default [] l).


(** ** The state an operation runs in *)

(** What the log of an operation records: the calls to the remote
    system (of type [C]) and the writes of the resource id, in the
    order they occur. *)
Inductive event (C : Type) : Type :=
| Call (c : C)
| PersistId (id : string).
Arguments Call {C} c.
Arguments PersistId {C} id.

(** The resource data the operation mutates, the remote system, and
    the log. *)
Record World (R C : Type) : Type := mkWorld {
  w_d : ResourceData;
  w_remote : R;
  w_log : list (event C)
}.
Arguments mkWorld {R C}.
Arguments w_d {R C}.
Arguments w_remote {R C}.
Arguments w_log {R C}.

Section Operations.
Context {R C : Type}.

Definition getD : M (World R C) ResourceData := fun w => (Done (w_d w), w).

Definition d_Set (key : string) (v : Value) : M (World R C) unit :=
  fun w => (Done tt, mkWorld (Set_ key v (w_d w)) (w_remote w) (w_log w)).

(** [d.SetId(v)]; the write is put on the log. *)
Definition d_SetId (v : string) : M (World R C) unit :=
  fun w => (Done tt, mkWorld (SetId v (w_d w)) (w_remote w) (w_log w ++ [PersistId v])).

(** A call of the client [conn]: the remote system answers and moves
    on, and the call is put on the log. *)
Definition conn {A} (c : C) (answer : R -> A * R) : M (World R C) A :=
  fun w =>
    let '(a, r') := answer (w_remote w) in
    (Done a, mkWorld (w_d w) r' (w_log w ++ [Call c])).
End Operations.

(** ** helper/resource: the state poller *)

Definition time_Second : Z := 1000000000.
Definition time_Minute : Z := 60 * time_Second.

(** [resource.StateChangeConf]. [Refresh] returns the triple
    (snapshot, state label, error) of a [resource.StateRefreshFunc]. *)
Record StateChangeConf (St I : Type) : Type := mkStateChangeConf {
  Pending : list string;
  Target : list string;
  Refresh : M St (I * string * option error);
  Timeout : Z;
  Delay : Z;
  MinTimeout : Z
}.
Arguments mkStateChangeConf {St I}.
Arguments Pending {St I}.
Arguments Target {St I}.
Arguments Refresh {St I}.
Arguments Timeout {St I}.
Arguments Delay {St I}.
Arguments MinTimeout {St I}.

(** Modelled from the spec: StateChangeConf.WaitForState (package
    helper/resource of the plugin SDK, not under src/).  The poller
    invokes the refresh operation until one of: the refresh reports an
    error, which fails at once with that error, before the label is
    classified; the label is in Target, which succeeds with the latest
    snapshot; the label is neither in Pending nor in Target, which
    fails at once with the label; the timeout elapses, which fails
    with a timeout error that carries the last label seen.
    The wall clock is not modelled: [attempts] is the number of
    refresh calls that complete before the timeout fires (it depends
    on Timeout, Delay, MinTimeout, the back-off and the latency of the
    remote system). *)
Fixpoint pollLoop {St I} (conf : StateChangeConf St I) (attempts : nat)
    (lastState : string) : M St (error + I) :=
  match attempts with
  | O => ret (inl (TimeoutError lastState (Target conf)))
  | S n =>
      r <- Refresh conf ;;
      match r with
      | (_, _, Some err) => ret (inl err)
      | (res, currentState, None) =>
          if bool_decide (currentState ∈ Target conf) then ret (inr res)
          else if bool_decide (currentState ∈ Pending conf)
               then pollLoop conf n currentState
               else ret (inl (UnexpectedStateError currentState (Target conf)))
      end
  end.

Definition WaitForState {St I} (attempts : nat) (conf : StateChangeConf St I)
    : M St (error + I) :=
  pollLoop conf attempts "".

(** ** service/ec2: the remote API of the VPC endpoint service *)

Definition ServiceStatePending : string := "Pending".
Definition ServiceStateAvailable : string := "Available".
Definition ServiceStateDeleting : string := "Deleting".
Definition ServiceStateDeleted : string := "Deleted".
Definition ServiceStateFailed : string := "Failed".

Record PrivateDnsNameConfiguration : Type := mkPrivateDnsNameConfiguration {
  pdc_Name : option string;
  pdc_State : option string;
  pdc_Type : option string;
  pdc_Value : option string
}.

Record ServiceConfiguration : Type := mkServiceConfiguration {
  sc_AcceptanceRequired : option bool;
  sc_AvailabilityZones : list string;
  sc_BaseEndpointDnsNames : list string;
  sc_GatewayLoadBalancerArns : list string;
  sc_ManagesVpcEndpoints : option bool;
  sc_NetworkLoadBalancerArns : list string;
  sc_PrivateDnsName : option string;
  sc_PrivateDnsNameConfiguration : option PrivateDnsNameConfiguration;
  sc_ServiceId : option string;
  sc_ServiceName : option string;
  sc_ServiceState : option string;
  sc_ServiceType : list (option string);
  sc_Tags : gmap string string
}.

Record AllowedPrincipal : Type := mkAllowedPrincipal {
  ap_Principal : option string;
  ap_PrincipalType : option string
}.

Record CreateVpcEndpointServiceConfigurationInput : Type := mkCreateInput {
  cr_AcceptanceRequired : option bool;
  cr_TagSpecifications : option (string * gmap string string);
  cr_PrivateDnsName : option string;
  cr_GatewayLoadBalancerArns : option (list string);
  cr_NetworkLoadBalancerArns : option (list string)
}.

Record CreateVpcEndpointServiceConfigurationOutput : Type := mkCreateOutput {
  co_ServiceConfiguration : option ServiceConfiguration
}.

Record ModifyVpcEndpointServiceConfigurationInput : Type := mkModifyCfgInput {
  mc_ServiceId : option string;
  mc_PrivateDnsName : option string;
  mc_AcceptanceRequired : option bool;
  mc_AddGatewayLoadBalancerArns : option (list string);
  mc_RemoveGatewayLoadBalancerArns : option (list string);
  mc_AddNetworkLoadBalancerArns : option (list string);
  mc_RemoveNetworkLoadBalancerArns : option (list string)
}.

Record ModifyVpcEndpointServicePermissionsInput : Type := mkModifyPermInput {
  mp_ServiceId : option string;
  mp_AddAllowedPrincipals : option (list string);
  mp_RemoveAllowedPrincipals : option (list string)
}.

(** The calls of the EC2 client these functions make.  [Ec2UpdateTags]
    stands for keyvaluetags.Ec2UpdateTags (not under src/), taken as
    one operation of the remote system. *)
Inductive ec2_call : Type :=
| CreateVpcEndpointServiceConfiguration (req : CreateVpcEndpointServiceConfigurationInput)
| DescribeVpcEndpointServiceConfigurations (ServiceIds : list string)
| DescribeVpcEndpointServicePermissions (ServiceId : string)
| ModifyVpcEndpointServiceConfiguration (req : ModifyVpcEndpointServiceConfigurationInput)
| ModifyVpcEndpointServicePermissions (req : ModifyVpcEndpointServicePermissionsInput)
| DeleteVpcEndpointServiceConfigurations (ServiceIds : list string)
| Ec2UpdateTags (identifier : string) (oldTags newTags : gmap string string).


(** The remote system: how it answers each call from a remote state
    [R], and the state it moves to. *)
Class EC2 (R : Type) : Type := mkEC2 {
  ec2_Create : CreateVpcEndpointServiceConfigurationInput -> R ->
               (error + CreateVpcEndpointServiceConfigurationOutput) * R;
  ec2_DescribeConfigurations : list string -> R -> (error + list ServiceConfiguration) * R;
  ec2_DescribePermissions : string -> R -> (error + list AllowedPrincipal) * R;
  ec2_ModifyConfiguration : ModifyVpcEndpointServiceConfigurationInput -> R -> option error * R;
  ec2_ModifyPermissions : ModifyVpcEndpointServicePermissionsInput -> R -> option error * R;
  ec2_Delete : list string -> R -> option error * R;
  ec2_UpdateTags : string -> gmap string string -> gmap string string -> R -> option error * R
}.

(** The fields of [*AWSClient] these functions read. [IgnoreTags]
    stands for [.IgnoreAws().IgnoreConfig(ignoreTagsConfig)]. *)
Record AWSClient : Type := mkAWSClient {
  partition : string;
  region : string;
  accountid : string;
  IgnoreTags : gmap string string -> gmap string string
}.


Definition aws_StringValue (p : option string) : string := default "" p.
Definition aws_BoolValue (p : option bool) : bool := default false p.

(** [arn.ARN{...}.String()]. *)
Definition arn_String (part service reg account resource : string) : string :=
  "arn:" +:+ part +:+ ":" +:+ service +:+ ":" +:+ reg +:+ ":" +:+ account +:+ ":" +:+ resource.

(** ec2TagSpecificationsFromMap (aws/tags.go, not under src/): the
    tags of the configuration, for the given resource type; nil when
    there is none. *)
Definition ec2TagSpecificationsFromMap (m : gmap string string) (t : string)
    : option (string * gmap string string) :=
  if bool_decide (m = ∅) then None else Some (t, m).

(** ** aws/resource_aws_vpc_endpoint_service.go *)

Section VpcEndpointService.
Context {R : Type} `{EC2 R}.
(** The AWSClient behind [meta], and the number of refresh calls a
    poller completes within its Timeout of ten minutes. *)
Variable meta : AWSClient.
Variable attempts : nat.

Local Abbreviation W := (World R ec2_call).

Definition conn_CreateVpcEndpointServiceConfiguration req :=
  conn (CreateVpcEndpointServiceConfiguration req) (ec2_Create req).
Definition conn_DescribeVpcEndpointServiceConfigurations ids :=
  conn (DescribeVpcEndpointServiceConfigurations ids) (ec2_DescribeConfigurations ids).
Definition conn_DescribeVpcEndpointServicePermissions id :=
  conn (DescribeVpcEndpointServicePermissions id) (ec2_DescribePermissions id).
Definition conn_ModifyVpcEndpointServiceConfiguration req :=
  conn (ModifyVpcEndpointServiceConfiguration req) (ec2_ModifyConfiguration req).
Definition conn_ModifyVpcEndpointServicePermissions req :=
  conn (ModifyVpcEndpointServicePermissions req) (ec2_ModifyPermissions req).
Definition conn_DeleteVpcEndpointServiceConfigurations ids :=
  conn (DeleteVpcEndpointServiceConfigurations ids) (ec2_Delete ids).
Definition keyvaluetags_Ec2UpdateTags id o n :=
  conn (Ec2UpdateTags id o n) (ec2_UpdateTags id o n).

(** The dynamic value a refresh returns as its snapshot: nil, the
    boolean false, or a service configuration. *)
Inductive snapshot : Type :=
| SnapNil
| SnapFalse
| SnapCfg (svcCfg : ServiceConfiguration).

Definition vpcEndpointServiceStateRefresh (svcId : string)
    : M W (snapshot * string * option error) :=
  r <- conn_DescribeVpcEndpointServiceConfigurations [svcId] ;;
  match r with
  | inl err =>
      if isAWSErr err "InvalidVpcEndpointServiceId.NotFound" ""
      then ret (SnapFalse, ServiceStateDeleted, None)
      else ret (SnapNil, "", Some err)
  | inr ServiceConfigurations =>
      match ServiceConfigurations with
      | [] => panic "index out of range [0] with length 0"
      | svcCfg :: _ =>
          let state := aws_StringValue (sc_ServiceState svcCfg) in
          (* No use in retrying if the endpoint service is in a failed state. *)
          if String.eqb state ServiceStateFailed
          then ret (SnapNil, state, Some (errors_New "VPC Endpoint Service is in a failed state"))
          else ret (SnapCfg svcCfg, state, None)
      end
  end.

Definition availableConf (id : string) : StateChangeConf W snapshot :=
  {| Pending := [ServiceStatePending];
     Target := [ServiceStateAvailable];
     Refresh := vpcEndpointServiceStateRefresh id;
     Timeout := 10 * time_Minute;
     Delay := 5 * time_Second;
     MinTimeout := 5 * time_Second |}.

Definition vpcEndpointServiceWaitUntilAvailable : M W (option error) :=
  d <- getD ;;
  let stateConf := availableConf (Id d) in
  r <- WaitForState attempts stateConf ;;
  match r with
  | inl err =>
      ret (Some (fmt_Errorf "Error waiting for VPC Endpoint Service %s to become available: %s"
                            [Id d] err))
  | inr _ => ret None
  end.

Definition deletionConf (serviceID : string) : StateChangeConf W snapshot :=
  {| Pending := [ServiceStateAvailable; ServiceStateDeleting];
     Target := [ServiceStateDeleted];
     Refresh := vpcEndpointServiceStateRefresh serviceID;
     Timeout := 10 * time_Minute;
     Delay := 5 * time_Second;
     MinTimeout := 5 * time_Second |}.

Definition waitForVpcEndpointServiceDeletion (serviceID : string) : M W (option error) :=
  let stateConf := deletionConf serviceID in
  r <- WaitForState attempts stateConf ;;
  match r with
  | inl err => ret (Some err)
  | inr _ => ret None
  end.

Definition flattenVpcEndpointServiceAllowedPrincipals (allowedPrincipals : list AllowedPrincipal)
    : gset string :=
  let vPrincipals :=
    fold_left (fun (acc : list string) allowedPrincipal =>
                 match ap_Principal allowedPrincipal with
                 | Some p => (acc ++ [p])
                 | None => acc
                 end) allowedPrincipals [] in
  list_to_set vPrincipals.

Definition flattenPrivateDnsNameConfiguration
    (privateDnsNameConfiguration : option PrivateDnsNameConfiguration)
    : list (gmap string string) :=
  match privateDnsNameConfiguration with
  | None => []
  | Some c =>
      let tfMap : gmap string string := ∅ in
      let tfMap := match pdc_Name c with Some v => <["name" := v]> tfMap | None => tfMap end in
      let tfMap := match pdc_State c with Some v => <["state" := v]> tfMap | None => tfMap end in
      let tfMap := match pdc_Type c with Some v => <["type" := v]> tfMap | None => tfMap end in
      let tfMap := match pdc_Value c with Some v => <["value" := v]> tfMap | None => tfMap end in
      (* The EC2 API can return a XML structure with no elements *)
      if bool_decide (size tfMap = 0)%nat then [] else [tfMap]
  end.

(** The three labels of [terminalStates]. *)
Definition terminalStates : gmap string bool :=
  <[ServiceStateFailed := true]>
    (<[ServiceStateDeleting := true]> (<[ServiceStateDeleted := true]> ∅)).

(** [d.Set] cannot fail here, the values having the types the
    schema declares, so the checks of its error are left out. *)
Definition resourceAwsVpcEndpointServiceRead : M W (option error) :=
  d <- getD ;;
  r <- vpcEndpointServiceStateRefresh (Id d) ;;
  let '(svcCfgRaw, state, err) := r in
  let rest : M W (option error) :=
  match terminalStates !! state with
  | Some _ =>
      d_SetId "" ;;; ret None
  | None =>
      let arn := arn_String (partition meta) "ec2" (region meta) (accountid meta)
                            ("vpc-endpoint-service/" +:+ Id d) in
      d_Set "arn" (VString arn) ;;;
      match svcCfgRaw with
      | SnapNil | SnapFalse => panic "interface conversion: not *ec2.ServiceConfiguration"
      | SnapCfg svcCfg =>
          d_Set "acceptance_required" (VBool (aws_BoolValue (sc_AcceptanceRequired svcCfg))) ;;;
          d_Set "availability_zones" (VSet (flattenStringSet (sc_AvailabilityZones svcCfg))) ;;;
          d_Set "base_endpoint_dns_names" (VSet (flattenStringSet (sc_BaseEndpointDnsNames svcCfg))) ;;;
          d_Set "gateway_load_balancer_arns"
                (VSet (flattenStringSet (sc_GatewayLoadBalancerArns svcCfg))) ;;;
          d_Set "manages_vpc_endpoints" (VBool (aws_BoolValue (sc_ManagesVpcEndpoints svcCfg))) ;;;
          d_Set "network_load_balancer_arns"
                (VSet (flattenStringSet (sc_NetworkLoadBalancerArns svcCfg))) ;;;
          d_Set "private_dns_name" (VString (aws_StringValue (sc_PrivateDnsName svcCfg))) ;;;
          d_Set "service_name" (VString (aws_StringValue (sc_ServiceName svcCfg))) ;;;
          match sc_ServiceType svcCfg with
          | [] => panic "index out of range [0] with length 0"
          | ServiceType0 :: _ =>
              d_Set "service_type" (VString (aws_StringValue ServiceType0)) ;;;
              d_Set "state" (VString (aws_StringValue (sc_ServiceState svcCfg))) ;;;
              d_Set "tags" (VMap (IgnoreTags meta (sc_Tags svcCfg))) ;;;
              resp <- conn_DescribeVpcEndpointServicePermissions (Id d) ;;
              match resp with
              | inl e =>
                  ret (Some (fmt_Errorf "error reading VPC Endpoint Service permissions (%s): %s"
                                        [Id d] e))
              | inr AllowedPrincipals =>
                  d_Set "allowed_principals"
                        (VSet (flattenVpcEndpointServiceAllowedPrincipals AllowedPrincipals)) ;;;
                  d_Set "private_dns_name_configuration"
                        (VList (flattenPrivateDnsNameConfiguration
                                  (sc_PrivateDnsNameConfiguration svcCfg))) ;;;
                  ret None
              end
          end
      end
  end in
  match err with
  | Some e =>
      if negb (String.eqb state ServiceStateFailed)
      then ret (Some (fmt_Errorf "error reading VPC Endpoint Service (%s): %s" [Id d] e))
      else rest
  | None => rest
  end.
Definition resourceAwsVpcEndpointServiceCreate : M W (option error) :=
  d <- getD ;;
  let req :=
    {| cr_AcceptanceRequired := Some (asBool (Get d "acceptance_required"));
       cr_TagSpecifications :=
         ec2TagSpecificationsFromMap (asMap (Get d "tags")) "vpc-endpoint-service";
       cr_PrivateDnsName :=
         match GetOk d "private_dns_name" with
         | Some v => Some (asString (Some v))
         | None => None
         end;
       cr_GatewayLoadBalancerArns :=
         match GetOk d "gateway_load_balancer_arns" with
         | Some (VSet v) => if (0 <? size v)%nat then Some (expandStringSet v) else None
         | _ => None
         end;
       cr_NetworkLoadBalancerArns :=
         match GetOk d "network_load_balancer_arns" with
         | Some (VSet v) => if (0 <? size v)%nat then Some (expandStringSet v) else None
         | _ => None
         end |} in
  r <- conn_CreateVpcEndpointServiceConfiguration req ;;
  match r with
  | inl err =>
      ret (Some (fmt_Errorf "Error creating VPC Endpoint Service configuration: %s" [] err))
  | inr resp =>
      match co_ServiceConfiguration resp with
      | None => panic "invalid memory address or nil pointer dereference"
      | Some ServiceConfiguration =>
          d_SetId (aws_StringValue (sc_ServiceId ServiceConfiguration)) ;;;
          check vpcEndpointServiceWaitUntilAvailable ;;
          d <- getD ;;
          check (match GetOk d "allowed_principals" with
                 | Some (VSet v) =>
                     if (0 <? size v)%nat then
                       let modifyPermReq :=
                         {| mp_ServiceId := Some (Id d);
                            mp_AddAllowedPrincipals := Some (expandStringSet v);
                            mp_RemoveAllowedPrincipals := None |} in
                       err <- conn_ModifyVpcEndpointServicePermissions modifyPermReq ;;
                       match err with
                       | Some e =>
                           ret (Some (fmt_Errorf
                                        "error adding VPC Endpoint Service permissions: %s" [] e))
                       | None => ret None
                       end
                     else ret None
                 | Some _ => panic "interface conversion: not *schema.Set"
                 | None => ret None
                 end) ;;
          resourceAwsVpcEndpointServiceRead
      end
  end.

Definition resourceAwsVpcEndpointServiceUpdate : M W (option error) :=
  d <- getD ;;
  check (if HasChanges d ["acceptance_required"; "gateway_load_balancer_arns";
                          "network_load_balancer_arns"; "private_dns_name"]
         then
           let '(addGw, removeGw) :=
             setVpcEndpointServiceUpdateLists d "gateway_load_balancer_arns" None None in
           let '(addNw, removeNw) :=
             setVpcEndpointServiceUpdateLists d "network_load_balancer_arns" None None in
           let modifyCfgReq :=
             {| mc_ServiceId := Some (Id d);
                mc_PrivateDnsName :=
                  if HasChange d "private_dns_name"
                  then Some (asString (Get d "private_dns_name")) else None;
                mc_AcceptanceRequired :=
                  if HasChange d "acceptance_required"
                  then Some (asBool (Get d "acceptance_required")) else None;
                mc_AddGatewayLoadBalancerArns := addGw;
                mc_RemoveGatewayLoadBalancerArns := removeGw;
                mc_AddNetworkLoadBalancerArns := addNw;
                mc_RemoveNetworkLoadBalancerArns := removeNw |} in
           err <- conn_ModifyVpcEndpointServiceConfiguration modifyCfgReq ;;
           match err with
           | Some e =>
               ret (Some (fmt_Errorf "Error modifying VPC Endpoint Service configuration: %s" [] e))
           | None => vpcEndpointServiceWaitUntilAvailable
           end
         else ret None) ;;
  check (if HasChange d "allowed_principals"
         then
           let '(add, remove) :=
             setVpcEndpointServiceUpdateLists d "allowed_principals" None None in
           let modifyPermReq :=
             {| mp_ServiceId := Some (Id d);
                mp_AddAllowedPrincipals := add;
                mp_RemoveAllowedPrincipals := remove |} in
           err <- conn_ModifyVpcEndpointServicePermissions modifyPermReq ;;
           match err with
           | Some e =>
               ret (Some (fmt_Errorf "Error modifying VPC Endpoint Service permissions: %s" [] e))
           | None => ret None
           end
         else ret None) ;;
  check (if HasChange d "tags"
         then
           let '(o, n) := GetChange d "tags" in
           err <- keyvaluetags_Ec2UpdateTags (Id d) (asMap o) (asMap n) ;;
           match err with
           | Some e =>
               ret (Some (fmt_Errorf "error updating EC2 VPC Endpoint Service (%s) tags: %s"
                                     [Id d] e))
           | None => ret None
           end
         else ret None) ;;
  resourceAwsVpcEndpointServiceRead.

Definition resourceAwsVpcEndpointServiceDelete : M W (option error) :=
  d <- getD ;;
  err <- conn_DeleteVpcEndpointServiceConfigurations [Id d] ;;
  check (match err with
         | Some e =>
             if isAWSErr e "InvalidVpcEndpointServiceId.NotFound" ""
             then ret None
             else ret (Some (fmt_Errorf "Error deleting VPC Endpoint Service: %s" [] e))
         | None => ret None
         end) ;;
  err <- waitForVpcEndpointServiceDeletion (Id d) ;;
  match err with
  | Some e =>
      ret (Some (fmt_Errorf "Error waiting for VPC Endpoint Service %s to delete: %s" [Id d] e))
  | None => ret None
  end.
End VpcEndpointService.

(** ** Package strings, and the one regular expression *)

Definition inCutset (cutset : string) (c : ascii) : bool :=
  existsb (Ascii.eqb c) (String.list_ascii_of_string cutset).

(** [strings.TrimLeft(s, cutset)]. *)
Fixpoint strings_TrimLeft (s cutset : string) : string :=
  match s with
  | EmptyString => EmptyString
  | String c rest => if inCutset cutset c then strings_TrimLeft rest cutset else s
  end.

(** [strings.TrimRight(s, cutset)]. *)
Fixpoint strings_TrimRight (s cutset : string) : string :=
  match s with
  | EmptyString => EmptyString
  | String c rest =>
      match strings_TrimRight rest cutset with
      | EmptyString => if inCutset cutset c then EmptyString else String c EmptyString
      | rest' => String c rest'
      end
  end.

(** [strings.Trim(s, cutset)]. *)
Definition strings_Trim (s cutset : string) : string :=
  strings_TrimRight (strings_TrimLeft s cutset) cutset.

(** [strings.ToLower], on the letters A to Z. *)
Definition ascii_ToLower (c : ascii) : ascii :=
  let n := Ascii.N_of_ascii c in
  if ((65 <=? n) && (n <=? 90))%N then Ascii.ascii_of_N (n + 32) else c.

Fixpoint strings_ToLower (s : string) : string :=
  match s with
  | EmptyString => EmptyString
  | String c rest => String (ascii_ToLower c) (strings_ToLower rest)
  end.

(** [strings.Join(elems, sep)]. *)
Fixpoint strings_Join (elems : list string) (sep : string) : string :=
  match elems with
  | [] => ""
  | [e] => e
  | e :: rest => e +:+ sep +:+ strings_Join rest sep
  end.

Definition slash : ascii := "/"%char.

(** [regexp.MustCompile(`/+`).ReplaceAllString(src, repl)], for a
    replacement without [$]: every maximal run of slashes is replaced
    by [repl]. [inRun] tells that the character before was a slash of
    the run being replaced. *)
Fixpoint slashRuns_ReplaceAllString (inRun : bool) (src repl : string) : string :=
  match src with
  | EmptyString => EmptyString
  | String c rest =>
      if Ascii.eqb c slash then
        if inRun then slashRuns_ReplaceAllString true rest repl
        else repl +:+ slashRuns_ReplaceAllString true rest repl
      else String c (slashRuns_ReplaceAllString false rest repl)
  end.

(** ** service/s3: the remote API of the object copy *)

Definition ObjectCannedACLPrivate : string := "private".
Definition PermissionFullControl : string := "FULL_CONTROL".
Definition PermissionRead : string := "READ".
Definition PermissionReadAcp : string := "READ_ACP".
Definition PermissionWriteAcp : string := "WRITE_ACP".
Definition TypeAmazonCustomerByEmail : string := "AmazonCustomerByEmail".
Definition TypeCanonicalUser : string := "CanonicalUser".
Definition ServerSideEncryptionAwsKms : string := "aws:kms".
Definition StorageClassStandard : string := "STANDARD".

(** A [*time.Time] is kept in the text form [flattenS3ObjectDate]
    prints. *)
Record HeadObjectOutput : Type := mkHeadObjectOutput {
  ho_CacheControl : option string;
  ho_ContentDisposition : option string;
  ho_ContentEncoding : option string;
  ho_ContentLanguage : option string;
  ho_ContentType : option string;
  ho_Metadata : gmap string string;
  ho_VersionId : option string;
  ho_ServerSideEncryption : option string;
  ho_WebsiteRedirectLocation : option string;
  ho_ObjectLockLegalHoldStatus : option string;
  ho_ObjectLockMode : option string;
  ho_ObjectLockRetainUntilDate : option string;
  ho_SSEKMSKeyId : option string;
  ho_ETag : option string;
  ho_StorageClass : option string
}.

Record CopyObjectResult : Type := mkCopyObjectResult {
  cor_ETag : option string;
  cor_LastModified : option string
}.

Record CopyObjectOutput : Type := mkCopyObjectOutput {
  cp_SSECustomerAlgorithm : option string;
  cp_SSECustomerKeyMD5 : option string;
  cp_CopyObjectResult : option CopyObjectResult;
  cp_Expiration : option string;
  cp_SSEKMSEncryptionContext : option string;
  cp_SSEKMSKeyId : option string;
  cp_RequestCharged : option string;
  cp_ServerSideEncryption : option string;
  cp_CopySourceVersionId : option string;
  cp_VersionId : option string
}.

(** [s3.CopyObjectInput] has some forty optional fields; it is kept as
    the finite map from the names of the fields that are set to their
    values. *)
Abbreviation CopyObjectInput := (gmap string Value).

(** The calls of the S3 client, and the functions of the repository
    that are not under src/ and talk to the remote system:
    deleteS3ObjectVersion, deleteAllS3ObjectVersions,
    resourceAwsS3BucketObjectSetKMS, resourceAwsS3BucketObjectRead and
    keyvaluetags.S3ObjectListTags under retryOnAwsCode.  Each is taken
    as one operation of the remote system. *)
Inductive s3_call : Type :=
| HeadObject (Bucket Key : string)
| CopyObject (input : CopyObjectInput)
| S3ObjectListTags (bucket key : string)
| deleteS3ObjectVersion (b key versionId : string) (force : bool)
| deleteAllS3ObjectVersions (bucketName key : string) (force ignoreObjectErrors : bool)
| resourceAwsS3BucketObjectSetKMS (sseKMSKeyId : option string)
| resourceAwsS3BucketObjectRead.

Class S3 (R : Type) : Type := mkS3 {
  s3_HeadObject : string -> string -> R -> (error + HeadObjectOutput) * R;
  s3_CopyObject : CopyObjectInput -> R -> (error + CopyObjectOutput) * R;
  s3_ObjectListTags : string -> string -> R -> (error + gmap string string) * R;
  s3_deleteS3ObjectVersion : string -> string -> string -> bool -> R -> option error * R;
  s3_deleteAllS3ObjectVersions : string -> string -> bool -> bool -> R -> option error * R;
  s3_BucketObjectSetKMS : option string -> ResourceData -> R -> (option error * ResourceData) * R;
  s3_BucketObjectRead : ResourceData -> R -> (option error * ResourceData) * R
}.

(** Pure functions used by the copy that are not under src/:
    expandS3ObjectDate (nil when the text is no date), url.QueryEscape
    and keyvaluetags.New(v).IgnoreAws().UrlEncode(). *)
Class S3Helpers : Type := mkS3Helpers {
  expandS3ObjectDate : string -> option string;
  url_QueryEscape : string -> string;
  tags_UrlEncode : gmap string string -> string
}.

(** ** aws/resource_aws_s3_object_copy.go *)

Record s3Grants : Type := mks3Grants {
  FullControl : option string;
  Read : option string;
  ReadACP : option string;
  WriteACP : option string
}.

(** The grantee is built from the fields that are not empty; the
    switch then dereferences its type and one more field, and a field
    left nil makes that a panic. *)
Definition expandS3Grant (tfMap : Grant) : outcome string :=
  let deref (v : string) : outcome string :=
    if String.eqb v "" then Panic "invalid memory address or nil pointer dereference"
    else Done v in
  match deref (grant_type tfMap) with
  | Panic r => Panic r
  | Done t =>
      if String.eqb t TypeAmazonCustomerByEmail then
        match deref (grant_email tfMap) with
        | Panic r => Panic r
        | Done v => Done ("emailaddress=" +:+ v)
        end
      else if String.eqb t TypeCanonicalUser then
        match deref (grant_id tfMap) with
        | Panic r => Panic r
        | Done v => Done ("id=" +:+ v)
        end
      else
        match deref (grant_uri tfMap) with
        | Panic r => Panic r
        | Done v => Done ("uri=" +:+ v)
        end
  end.

(** The four lists the loop of [expandS3Grants] appends to. *)
Definition grantLists : Type := (list string * list string * list string * list string)%type.

Definition addGrant (tfMap : Grant) (acc : outcome grantLists) (perm : string)
    : outcome grantLists :=
  match acc with
  | Panic r => Panic r
  | Done (grantFullControl, grantRead, grantReadACP, grantWriteACP) =>
      match expandS3Grant tfMap with
      | Panic r => Panic r
      | Done v =>
          if String.eqb v "" then acc
          else if String.eqb perm PermissionFullControl
               then Done ((grantFullControl ++ [v]), grantRead, grantReadACP, grantWriteACP)
          else if String.eqb perm PermissionRead
               then Done (grantFullControl, (grantRead ++ [v]), grantReadACP, grantWriteACP)
          else if String.eqb perm PermissionReadAcp
               then Done (grantFullControl, grantRead, (grantReadACP ++ [v]), grantWriteACP)
          else if String.eqb perm PermissionWriteAcp
               then Done (grantFullControl, grantRead, grantReadACP, (grantWriteACP ++ [v]))
          else acc
      end
  end.

Definition expandS3Grants (tfList : list Grant) : outcome (option s3Grants) :=
  if bool_decide (length tfList = 0)%nat then Done None
  else
    let lists :=
      fold_left (fun acc tfMap => fold_left (addGrant tfMap) (grant_permissions tfMap) acc)
                tfList (Done ([], [], [], [])) in
    match lists with
    | Panic r => Panic r
    | Done (grantFullControl, grantRead, grantReadACP, grantWriteACP) =>
        let joined (l : list string) : option string :=
          if (0 <? length l)%nat then Some (strings_Join l ",") else None in
        Done (Some {| FullControl := joined grantFullControl;
                      Read := joined grantRead;
                      ReadACP := joined grantReadACP;
                      WriteACP := joined grantWriteACP |})
    end.

Section S3ObjectCopy.
Context {R : Type} `{S3 R} `{S3Helpers}.
Variable meta : AWSClient.

Local Abbreviation W := (World R s3_call).

Definition s3conn_HeadObject (bucket key : string) : M W (error + HeadObjectOutput) :=
  conn (HeadObject bucket key) (s3_HeadObject bucket key).
Definition conn_CopyObject (input : CopyObjectInput) : M W (error + CopyObjectOutput) :=
  conn (CopyObject input) (s3_CopyObject input).
Definition keyvaluetags_S3ObjectListTags (bucket key : string)
    : M W (error + gmap string string) :=
  conn (S3ObjectListTags bucket key) (s3_ObjectListTags bucket key).
Definition call_deleteS3ObjectVersion (b key versionId : string) (force : bool)
    : M W (option error) :=
  conn (deleteS3ObjectVersion b key versionId force)
       (s3_deleteS3ObjectVersion b key versionId force).
Definition call_deleteAllS3ObjectVersions (b key : string) (force ignoreObjectErrors : bool)
    : M W (option error) :=
  conn (deleteAllS3ObjectVersions b key force ignoreObjectErrors)
       (s3_deleteAllS3ObjectVersions b key force ignoreObjectErrors).

(** The two functions of the bucket object resource also write to
    [d]. *)
Definition call_resourceAwsS3BucketObjectSetKMS (sseKMSKeyId : option string)
    : M W (option error) :=
  fun w =>
    let '((err, d'), r') := s3_BucketObjectSetKMS sseKMSKeyId (w_d w) (w_remote w) in
    (Done err,
     mkWorld d' r' (w_log w ++ [Call (resourceAwsS3BucketObjectSetKMS sseKMSKeyId)])).

Definition call_resourceAwsS3BucketObjectRead : M W (option error) :=
  fun w =>
    let '((err, d'), r') := s3_BucketObjectRead (w_d w) (w_remote w) in
    (Done err, mkWorld d' r' (w_log w ++ [Call resourceAwsS3BucketObjectRead])).

(** [if v, ok := d.GetOk(key); ok { input.field = aws.String(v.(string)) }] *)
Definition setString (d : ResourceData) (key field : string) (input : CopyObjectInput)
    : CopyObjectInput :=
  match GetOk d key with
  | Some v => <[field := VString (asString (Some v))]> input
  | None => input
  end.

(** [if v, ok := d.GetOk(key); ok { input.field = expandS3ObjectDate(v.(string)) }] *)
Definition setDate (d : ResourceData) (key field : string) (input : CopyObjectInput)
    : CopyObjectInput :=
  match GetOk d key with
  | Some v =>
      match expandS3ObjectDate (asString (Some v)) with
      | Some t => <[field := VString t]> input
      | None => delete field input
      end
  | None => input
  end.

Definition setOpt (field : string) (v : option string) (input : CopyObjectInput)
    : CopyObjectInput :=
  match v with
  | Some s => <[field := VString s]> input
  | None => delete field input
  end.

(** The request [resourceAwsS3ObjectCopyDoCopy] builds before it
    calls the remote system, field by field in the order of the
    source. *)
Definition copyObjectInput (d : ResourceData) : outcome CopyObjectInput :=
  let input : CopyObjectInput :=
    <["CopySource" := VString (url_QueryEscape (asString (Get d "source")))]>
      (<["Key" := VString (asString (Get d "key"))]>
         (<["Bucket" := VString (asString (Get d "bucket"))]> ∅)) in
  let input := setString d "acl" "ACL" input in
  let input := setString d "cache_control" "CacheControl" input in
  let input := setString d "content_disposition" "ContentDisposition" input in
  let input := setString d "content_encoding" "ContentEncoding" input in
  let input := setString d "content_language" "ContentLanguage" input in
  let input := setString d "content_type" "ContentType" input in
  let input := setString d "copy_if_match" "CopySourceIfMatch" input in
  let input := setDate d "copy_if_modified_since" "CopySourceIfModifiedSince" input in
  let input := setString d "copy_if_none_match" "CopySourceIfNoneMatch" input in
  let input := setDate d "copy_if_unmodified_since" "CopySourceIfUnmodifiedSince" input in
  let input := setString d "customer_algorithm" "SSECustomerAlgorithm" input in
  let input := setString d "customer_key" "SSECustomerKey" input in
  let input := setString d "customer_key_md5" "SSECustomerKeyMD5" input in
  let input := setString d "expected_bucket_owner" "ExpectedBucketOwner" input in
  let input := setString d "expected_source_bucket_owner" "ExpectedSourceBucketOwner" input in
  let input := setDate d "expires" "Expires" input in
  let withGrants : outcome CopyObjectInput :=
    match GetOk d "grant" with
    | Some v =>
        if (0 <? length (asGrants (Some v)))%nat then
          match expandS3Grants (asGrants (Some v)) with
          | Panic r => Panic r
          | Done None => Panic "invalid memory address or nil pointer dereference"
          | Done (Some grants) =>
              let input := setOpt "GrantFullControl" (FullControl grants) input in
              let input := setOpt "GrantRead" (Read grants) input in
              let input := setOpt "GrantReadACP" (ReadACP grants) input in
              let input := setOpt "GrantWriteACP" (WriteACP grants) input in
              Done (delete "ACL" input)
          end
        else Done input
    | None => Done input
    end in
  match withGrants with
  | Panic r => Panic r
  | Done input =>
  let input := setString d "kms_encryption_context" "SSEKMSEncryptionContext" input in
  let input :=
    match GetOk d "kms_key_id" with
    | Some v =>
        <["ServerSideEncryption" := VString ServerSideEncryptionAwsKms]>
          (<["SSEKMSKeyId" := VString (asString (Some v))]> input)
    | None => input
    end in
  let input :=
    match GetOk d "metadata" with
    | Some v => <["Metadata" := VMap (asMap (Some v))]> input
    | None => input
    end in
  let input := setString d "metadata_directive" "MetadataDirective" input in
  let input := setString d "object_lock_legal_hold_status" "ObjectLockLegalHoldStatus" input in
  let input := setString d "object_lock_mode" "ObjectLockMode" input in
  let input := setDate d "object_lock_retain_until_date" "ObjectLockRetainUntilDate" input in
  let input := setString d "request_payer" "RequestPayer" input in
  let input := setString d "server_side_encryption" "ServerSideEncryption" input in
  let input := setString d "source_customer_algorithm" "CopySourceSSECustomerAlgorithm" input in
  let input := setString d "source_customer_key" "CopySourceSSECustomerKey" input in
  let input := setString d "source_customer_key_md5" "CopySourceSSECustomerKeyMD5" input in
  let input := setString d "storage_class" "StorageClass" input in
  let input := setString d "tagging_directive" "TaggingDirective" input in
  let input :=
    let v := asMap (Get d "tags") in
    if (0 <? size v)%nat then <["Tagging" := VString (tags_UrlEncode v)]> input
    else input in
  let input := setString d "website_redirect" "WebsiteRedirectLocation" input in
  Done input
  end.
Definition quote : string := String (Ascii.ascii_of_nat 34) EmptyString.

Definition resourceAwsS3ObjectCopyDoCopy : M W (option error) :=
  d <- getD ;;
  match copyObjectInput d with
  | Panic r => panic r
  | Done input =>
      r <- conn_CopyObject input ;;
      match r with
      | inl err =>
          ret (Some (fmt_Errorf
                       "Error copying S3 object (bucket: %s; key: %s; source: %s): %s"
                       [asString (input !! "Bucket"); asString (input !! "Key");
                        asString (input !! "CopySource")] err))
      | inr output =>
          d_Set "customer_algorithm" (VString (aws_StringValue (cp_SSECustomerAlgorithm output))) ;;;
          d_Set "customer_key_md5" (VString (aws_StringValue (cp_SSECustomerKeyMD5 output))) ;;;
          match cp_CopyObjectResult output with
          | Some res =>
              d_Set "etag" (VString (strings_Trim (aws_StringValue (cor_ETag res)) quote)) ;;;
              d_Set "last_modified" (VString (aws_StringValue (cor_LastModified res)))
          | None => ret tt
          end ;;;
          d_Set "expiration" (VString (aws_StringValue (cp_Expiration output))) ;;;
          d_Set "kms_encryption_context"
                (VString (aws_StringValue (cp_SSEKMSEncryptionContext output))) ;;;
          d_Set "kms_key_id" (VString (aws_StringValue (cp_SSEKMSKeyId output))) ;;;
          (* [request_charged] is a [schema.TypeBool] and [output.RequestCharged]
             a pointer to a string: [d.Set] cannot turn a string into a bool,
             the error it returns is dropped, and nothing is written; a nil
             pointer writes the zero value. *)
          match cp_RequestCharged output with
          | Some _ => ret tt
          | None => d_Set "request_charged" (VBool false)
          end ;;;
          d_Set "server_side_encryption"
                (VString (aws_StringValue (cp_ServerSideEncryption output))) ;;;
          d_Set "source_version_id" (VString (aws_StringValue (cp_CopySourceVersionId output))) ;;;
          d_Set "version_id" (VString (aws_StringValue (cp_VersionId output))) ;;;
          d <- getD ;;
          d_SetId (asString (Get d "key")) ;;;
          call_resourceAwsS3BucketObjectRead
      end
  end.

Definition resourceAwsS3ObjectCopyCreate : M W (option error) :=
  resourceAwsS3ObjectCopyDoCopy.

(** The keys of the metadata in lower case.  (Where two keys differ
    in case only, Go keeps either; here the first in the order of
    [map_to_list] wins.) *)
Definition lowerKeys (metadata : gmap string string) : gmap string string :=
  list_to_map (prod_map strings_ToLower id <$> map_to_list metadata).

(** As in the Read of the endpoint service, [d.Set] cannot fail here
    and the checks of its error are left out. *)
Definition resourceAwsS3ObjectCopyRead : M W (option error) :=
  d <- getD ;;
  let bucket := asString (Get d "bucket") in
  let key := asString (Get d "key") in
  r <- s3conn_HeadObject bucket key ;;
  match r with
  | inl err =>
      (* If S3 returns a 404 Request Failure, mark the object as destroyed *)
      if ErrStatusCodeEquals err 404
      then d_SetId "" ;;; ret None
      else ret (Some err)
  | inr resp =>
      d_Set "cache_control" (VString (aws_StringValue (ho_CacheControl resp))) ;;;
      d_Set "content_disposition" (VString (aws_StringValue (ho_ContentDisposition resp))) ;;;
      d_Set "content_encoding" (VString (aws_StringValue (ho_ContentEncoding resp))) ;;;
      d_Set "content_language" (VString (aws_StringValue (ho_ContentLanguage resp))) ;;;
      d_Set "content_type" (VString (aws_StringValue (ho_ContentType resp))) ;;;
      let metadata := lowerKeys (ho_Metadata resp) in
      d_Set "metadata" (VMap metadata) ;;;
      d_Set "version_id" (VString (aws_StringValue (ho_VersionId resp))) ;;;
      d_Set "server_side_encryption" (VString (aws_StringValue (ho_ServerSideEncryption resp))) ;;;
      d_Set "website_redirect" (VString (aws_StringValue (ho_WebsiteRedirectLocation resp))) ;;;
      d_Set "object_lock_legal_hold_status"
            (VString (aws_StringValue (ho_ObjectLockLegalHoldStatus resp))) ;;;
      d_Set "object_lock_mode" (VString (aws_StringValue (ho_ObjectLockMode resp))) ;;;
      d_Set "object_lock_retain_until_date"
            (VString (aws_StringValue (ho_ObjectLockRetainUntilDate resp))) ;;;
      check (err <- call_resourceAwsS3BucketObjectSetKMS (ho_SSEKMSKeyId resp) ;;
             match err with
             | Some e => ret (Some (fmt_Errorf "bucket object KMS: %w" [] e))
             | None => ret None
             end) ;;
      d_Set "etag" (VString (strings_Trim (aws_StringValue (ho_ETag resp)) quote)) ;;;
      d_Set "storage_class" (VString StorageClassStandard) ;;;
      match ho_StorageClass resp with
      | Some sc => d_Set "storage_class" (VString sc)
      | None => ret tt
      end ;;;
      tags <- keyvaluetags_S3ObjectListTags bucket key ;;
      match tags with
      | inl err =>
          ret (Some (fmt_Errorf "error listing tags for S3 Bucket (%s) Object (%s): %w"
                                [bucket; key] err))
      | inr tags =>
          d_Set "tags" (VMap (IgnoreTags meta tags)) ;;;
          ret None
      end
  end.

Definition copyIfKeys : list string :=
  ["copy_if_match"; "copy_if_modified_since"; "copy_if_none_match";
   "copy_if_unmodified_since"].

Definition args : list string :=
  ["acl"; "bucket"; "cache_control"; "content_disposition"; "content_encoding";
   "content_language"; "content_type"; "customer_algorithm"; "customer_key";
   "customer_key_md5"; "expected_bucket_owner"; "expected_source_bucket_owner";
   "expires"; "grant"; "key"; "kms_encryption_context"; "kms_key_id"; "metadata";
   "metadata_directive"; "object_lock_legal_hold_status"; "object_lock_mode";
   "object_lock_retain_until_date"; "request_payer"; "server_side_encryption";
   "source"; "source_customer_algorithm"; "source_customer_key";
   "source_customer_key_md5"; "storage_class"; "tagging_directive"; "tags";
   "website_redirect"].

(** The loop over the four [copy_if_*] keys returns from the
    function at the first key that is set. *)
Fixpoint anySet (d : ResourceData) (keys : list string) : bool :=
  match keys with
  | [] => false
  | key :: rest =>
      match GetOk d key with
      | Some _ => true
      | None => anySet d rest
      end
  end.

Definition resourceAwsS3ObjectCopyUpdate : M W (option error) :=
  d <- getD ;;
  (* if any of these exist, let the API decide whether to copy *)
  if anySet d copyIfKeys then resourceAwsS3ObjectCopyDoCopy
  else if HasChanges d args then resourceAwsS3ObjectCopyDoCopy
  else ret None.

Definition resourceAwsS3ObjectCopyDelete : M W (option error) :=
  d <- getD ;;
  let bucket := asString (Get d "bucket") in
  let key := asString (Get d "key") in
  (* We are effectively ignoring all leading '/'s in the key name and
     treating multiple '/'s as a single '/' *)
  let key := strings_TrimLeft key "/" in
  let key := slashRuns_ReplaceAllString false key "/" in
  err <- match GetOk d "version_id" with
         | Some _ =>
             call_deleteAllS3ObjectVersions bucket key (asBool (Get d "force_destroy")) false
         | None => call_deleteS3ObjectVersion bucket key "" false
         end ;;
  match err with
  | Some e =>
      ret (Some (fmt_Errorf "error deleting S3 Bucket (%s) Object (%s): %w" [bucket; key] e))
  | None => ret None
  end.
End S3ObjectCopy.

(** ** Refresh sequences *)

(** The outcomes of [n] successive calls of a refresh operation from
    the state [s], and the state they leave. *)
Fixpoint refreshTrace {St I} (refresh : M St (I * string * option error)) (n : nat) (s : St)
    : list (outcome (I * string * option error)) * St :=
  match n with
  | O => ([], s)
  | S n' =>
      let '(o, s') := refresh s in
      let '(os, s'') := refreshTrace refresh n' s' in
      (o :: os, s'')
  end.

(** The state label a refresh reported, if it returned. *)
Definition labelOf {I} (o : outcome (I * string * option error)) : option string :=
  match o with
  | Done (_, l, _) => Some l
  | Panic _ => None
  end.

(** A refresh outcome on which the poller goes on polling: no error,
    and a label in Pending that is not in Target. *)
Definition keepsPolling {St I} (conf : StateChangeConf St I)
    (o : outcome (I * string * option error)) : bool :=
  match o with
  | Done (_, l, None) => negb (bool_decide (l ∈ Target conf)) && bool_decide (l ∈ Pending conf)
  | _ => false
  end.

(** What the poller returns on the refresh outcome that ends the
    polling. *)
Definition verdict {St I} (conf : StateChangeConf St I)
    (o : outcome (I * string * option error)) : outcome (error + I) :=
  match o with
  | Panic r => Panic r
  | Done (_, _, Some err) => Done (inl err)
  | Done (res, l, None) =>
      if bool_decide (l ∈ Target conf) then Done (inr res)
      else Done (inl (UnexpectedStateError l (Target conf)))
  end.

(** The last label seen after the refresh outcomes [os], [lastState]
    being the one seen before. *)
Definition lastLabel {I} (lastState : string) (os : list (outcome (I * string * option error)))
    : string :=
  fold_left (fun acc o => default acc (labelOf o)) os lastState.

Definition isTimeout (err : error) : bool :=
  match rootCause err with
  | TimeoutError _ _ => true
  | _ => false
  end.

(** ** A scripted remote system, to run the operations on concrete inputs *)

Record Ec2Script : Type := mkEc2Script {
  on_Create : error + CreateVpcEndpointServiceConfigurationOutput;
  on_Describe : list (error + list ServiceConfiguration);
  on_Permissions : error + list AllowedPrincipal;
  on_ModifyConfiguration : option error;
  on_ModifyPermissions : option error;
  on_Delete : option error;
  on_UpdateTags : option error
}.

Definition notFound : error := awserr "InvalidVpcEndpointServiceId.NotFound" "gone" 400.

(** The successive Describe calls get the answers of [on_Describe] in
    turn, and the not-found error once these are used up. *)
#[global] Instance Ec2Script_EC2 : EC2 Ec2Script :=
  {| ec2_Create := fun _ r => (on_Create r, r);
     ec2_DescribeConfigurations := fun _ r =>
       match on_Describe r with
       | [] => (inl notFound, r)
       | a :: rest =>
           (a, mkEc2Script (on_Create r) rest (on_Permissions r) (on_ModifyConfiguration r)
                           (on_ModifyPermissions r) (on_Delete r) (on_UpdateTags r))
       end;
     ec2_DescribePermissions := fun _ r => (on_Permissions r, r);
     ec2_ModifyConfiguration := fun _ r => (on_ModifyConfiguration r, r);
     ec2_ModifyPermissions := fun _ r => (on_ModifyPermissions r, r);
     ec2_Delete := fun _ r => (on_Delete r, r);
     ec2_UpdateTags := fun _ _ _ r => (on_UpdateTags r, r) |}.

Definition inState (state : string) : ServiceConfiguration :=
  {| sc_AcceptanceRequired := Some false;
     sc_AvailabilityZones := ["us-east-1a"];
     sc_BaseEndpointDnsNames := [];
     sc_GatewayLoadBalancerArns := [];
     sc_ManagesVpcEndpoints := Some false;
     sc_NetworkLoadBalancerArns := ["arn:nlb"];
     sc_PrivateDnsName := None;
     sc_PrivateDnsNameConfiguration := None;
     sc_ServiceId := Some "vpce-svc-1";
     sc_ServiceName := Some "com.amazonaws.vpce.vpce-svc-1";
     sc_ServiceState := Some state;
     sc_ServiceType := [Some "Interface"];
     sc_Tags := ∅ |}.

Definition demoMeta : AWSClient :=
  {| partition := "aws"; region := "us-east-1"; accountid := "123456789012";
     IgnoreTags := fun m => m |}.

Definition demoScript (describes : list (error + list ServiceConfiguration)) : Ec2Script :=
  {| on_Create := inr {| co_ServiceConfiguration := Some (inState "Pending") |};
     on_Describe := describes;
     on_Permissions := inr [];
     on_ModifyConfiguration := None;
     on_ModifyPermissions := None;
     on_Delete := None;
     on_UpdateTags := None |}.

Definition demoWorld (d : ResourceData) (describes : list (error + list ServiceConfiguration))
    : World Ec2Script ec2_call :=
  mkWorld d (demoScript describes) [].

Definition P1P2 : gset string := {["P1"; "P2"]}.
Definition P2P3 : gset string := {["P2"; "P3"]}.

(** A resource whose allowed principals change from {P1, P2} to
    {P2, P3}. *)
Definition demoChange : ResourceData :=
  mkResourceData "vpce-svc-1"
    {["allowed_principals" := VSet P1P2]}
    {["allowed_principals" := VSet P2P3]} ∅.

(** A configuration to create, with two allowed principals. *)
Definition demoNew : ResourceData :=
  mkResourceData "" ∅
    (<["allowed_principals" := VSet P1P2]> {["acceptance_required" := VBool false]}) ∅.

(** ** Auxiliary notions of the statements *)

Definition failedStateError : error := errors_New "VPC Endpoint Service is in a failed state".

(** The shapes of what a refresh returns: an error comes with the
    empty label or with the label of the failed state, and the
    label of the failed state comes with the failed-state error. *)
Definition refreshShape (o : outcome (snapshot * string * option error)) : Prop :=
  match o with
  | Panic _ => True
  | Done (res, l, Some e) =>
      (l = "" /\ res = SnapNil) \/ (l = ServiceStateFailed /\ res = SnapNil /\ e = failedStateError)
  | Done (res, l, None) => l <> ServiceStateFailed /\ res <> SnapNil
  end.

(** The worlds a polling run goes through: the resource data is
    kept, and the log grows by Describe calls for the service id. *)
Definition polled (id : string) {R} (w w' : World R ec2_call) : Prop :=
  w_d w' = w_d w /\
  exists k, w_log w' = w_log w ++ replicate k (Call (DescribeVpcEndpointServiceConfigurations [id])).


(** An operation [emits P] when the events it adds to the log all
    satisfy [P]. *)
Definition emits {R C A} (P : event C -> Prop) (m : M (World R C) A) : Prop :=
  forall w, exists evs, w_log (m w).2 = w_log w ++ evs /\ Forall P evs.

(** An operation that leaves the id of the resource as it is. *)
Definition keepsId {R C A} (m : M (World R C) A) : Prop :=
  forall w, Id (w_d (m w).2) = Id (w_d w).

Definition isModifyConfiguration (e : event ec2_call) : bool :=
  match e with Call (ModifyVpcEndpointServiceConfiguration _) => true | _ => false end.
Definition isModifyPermissions (e : event ec2_call) : bool :=
  match e with Call (ModifyVpcEndpointServicePermissions _) => true | _ => false end.
Definition isDescribeConfigurations (e : event ec2_call) : bool :=
  match e with Call (DescribeVpcEndpointServiceConfigurations _) => true | _ => false end.
(** What Read adds after its refresh, and what the tags step adds. *)
Definition isReadTail (e : event ec2_call) : bool :=
  match e with
  | Call (DescribeVpcEndpointServicePermissions _) => true
  | Call (Ec2UpdateTags _ _ _) => true
  | PersistId _ => true
  | _ => false
  end.
Definition isDelete (e : event ec2_call) : bool :=
  match e with Call (DeleteVpcEndpointServiceConfigurations _) => true | _ => false end.

(** A modify call carries no list that is present and empty. *)
Definition noEmptyLists (e : event ec2_call) : Prop :=
  match e with
  | Call (ModifyVpcEndpointServiceConfiguration req) =>
      mc_AddGatewayLoadBalancerArns req <> Some [] /\
      mc_RemoveGatewayLoadBalancerArns req <> Some [] /\
      mc_AddNetworkLoadBalancerArns req <> Some [] /\
      mc_RemoveNetworkLoadBalancerArns req <> Some []
  | Call (ModifyVpcEndpointServicePermissions req) =>
      mp_AddAllowedPrincipals req <> Some [] /\
      mp_RemoveAllowedPrincipals req <> Some []
  | _ => True
  end.

(** The number of events of a log that satisfy [p]. *)
Definition count {C} (p : event C -> bool) (log : list (event C)) : nat :=
  length (List.filter p log).

(** The events an operation added to the log [before]. *)
Definition added {C} (before after : list (event C)) : list (event C) :=
  drop (length before) after.

(** ** Delete, create and update of the VPC endpoint service, step by step

    The sequences of steps the specification describes, written out
    on the worlds between the steps, to be compared with the
    operations above. *)

Section Steps.
Context {R : Type} `{EC2 R}.
Variable meta : AWSClient.
Variable attempts : nat.

Local Abbreviation W := (World R ec2_call).

(** The world after a call [c] that left the remote system in [r]. *)
Definition afterCall (w : W) (c : ec2_call) (r : R) : W :=
  mkWorld (w_d w) r (w_log w ++ [Call c]).

(** Waiting for the deletion, and its outcome as Delete reports it. *)
Definition awaitDeletion (id : string) (w1 : W) : outcome (option error) * W :=
  match waitForVpcEndpointServiceDeletion attempts id w1 with
  | (Done (Some e), w2) =>
      (Done (Some (fmt_Errorf "Error waiting for VPC Endpoint Service %s to delete: %s" [id] e)),
       w2)
  | (Done None, w2) => (Done None, w2)
  | (Panic r, w2) => (Panic r, w2)
  end.

(** Waiting for availability, Pending = {Pending} and Target =
    {Available}, and its outcome as Create and Update report it. *)
Definition awaitAvailable (id : string) (w1 : W) : outcome (option error) * W :=
  match pollLoop {| Pending := [ServiceStatePending];
                    Target := [ServiceStateAvailable];
                    Refresh := vpcEndpointServiceStateRefresh id;
                    Timeout := 10 * time_Minute;
                    Delay := 5 * time_Second;
                    MinTimeout := 5 * time_Second |} attempts "" w1 with
  | (Done (inl e), w2) =>
      (Done (Some (fmt_Errorf "Error waiting for VPC Endpoint Service %s to become available: %s"
                              [id] e)),
       w2)
  | (Done (inr _), w2) => (Done None, w2)
  | (Panic r, w2) => (Panic r, w2)
  end.

(** The request of the create call. *)
Definition createInput (d : ResourceData) : CreateVpcEndpointServiceConfigurationInput :=
  {| cr_AcceptanceRequired := Some (asBool (Get d "acceptance_required"));
     cr_TagSpecifications :=
       ec2TagSpecificationsFromMap (asMap (Get d "tags")) "vpc-endpoint-service";
     cr_PrivateDnsName :=
       match GetOk d "private_dns_name" with
       | Some v => Some (asString (Some v))
       | None => None
       end;
     cr_GatewayLoadBalancerArns :=
       match GetOk d "gateway_load_balancer_arns" with
       | Some (VSet v) => if (0 <? size v)%nat then Some (expandStringSet v) else None
       | _ => None
       end;
     cr_NetworkLoadBalancerArns :=
       match GetOk d "network_load_balancer_arns" with
       | Some (VSet v) => if (0 <? size v)%nat then Some (expandStringSet v) else None
       | _ => None
       end |}.

(** The permissions call of Create: the whole desired set is added,
    nothing is removed. *)
Definition addAllPrincipals (id : string) (principals : gset string)
    : ModifyVpcEndpointServicePermissionsInput :=
  {| mp_ServiceId := Some id;
     mp_AddAllowedPrincipals := Some (expandStringSet principals);
     mp_RemoveAllowedPrincipals := None |}.

(** Create: (1) the create call; (2) the returned handle is written
    as the id at once; (3) the wait for availability; (4) one
    permissions call, exactly when the desired allowed principals are
    present and not empty; (5) a full Read.  A step that fails ends
    the sequence with its error; nothing is undone. *)
Definition spec_Create (w : W) : outcome (option error) * W :=
  let d := w_d w in
  let req := createInput d in
  match ec2_Create req (w_remote w) with
  | (inl err, r1) =>
      (Done (Some (fmt_Errorf "Error creating VPC Endpoint Service configuration: %s" [] err)),
       afterCall w (CreateVpcEndpointServiceConfiguration req) r1)
  | (inr resp, r1) =>
      match co_ServiceConfiguration resp with
      | None =>
          (Panic "invalid memory address or nil pointer dereference",
           afterCall w (CreateVpcEndpointServiceConfiguration req) r1)
      | Some sc =>
          let id := aws_StringValue (sc_ServiceId sc) in
          let w1 := mkWorld (SetId id d) r1
                            (w_log w ++ [Call (CreateVpcEndpointServiceConfiguration req);
                                         PersistId id]) in
          match awaitAvailable id w1 with
          | (Done None, w2) =>
              match GetOk d "allowed_principals" with
              | Some (VSet principals) =>
                  let permReq := addAllPrincipals id principals in
                  match ec2_ModifyPermissions permReq (w_remote w2) with
                  | (Some e, r3) =>
                      (Done (Some (fmt_Errorf "error adding VPC Endpoint Service permissions: %s"
                                              [] e)),
                       afterCall w2 (ModifyVpcEndpointServicePermissions permReq) r3)
                  | (None, r3) =>
                      resourceAwsVpcEndpointServiceRead meta
                        (afterCall w2 (ModifyVpcEndpointServicePermissions permReq) r3)
                  end
              | Some _ => (Panic "interface conversion: not *schema.Set", w2)
              | None => resourceAwsVpcEndpointServiceRead meta w2
              end
          | failed => failed
          end
      end
  end.

(** The four attributes of the configuration call of Update. *)
Definition configurationKeys : list string :=
  ["acceptance_required"; "gateway_load_balancer_arns"; "network_load_balancer_arns";
   "private_dns_name"].

(** The request of the configuration call of Update: the fields that
    changed, the set-valued ones as lists to add and to remove. *)
Definition modifyCfgReq (d : ResourceData) : ModifyVpcEndpointServiceConfigurationInput :=
  {| mc_ServiceId := Some (Id d);
     mc_PrivateDnsName :=
       if HasChange d "private_dns_name"
       then Some (asString (Get d "private_dns_name")) else None;
     mc_AcceptanceRequired :=
       if HasChange d "acceptance_required"
       then Some (asBool (Get d "acceptance_required")) else None;
     mc_AddGatewayLoadBalancerArns :=
       (setVpcEndpointServiceUpdateLists d "gateway_load_balancer_arns" None None).1;
     mc_RemoveGatewayLoadBalancerArns :=
       (setVpcEndpointServiceUpdateLists d "gateway_load_balancer_arns" None None).2;
     mc_AddNetworkLoadBalancerArns :=
       (setVpcEndpointServiceUpdateLists d "network_load_balancer_arns" None None).1;
     mc_RemoveNetworkLoadBalancerArns :=
       (setVpcEndpointServiceUpdateLists d "network_load_balancer_arns" None None).2 |}.

(** The request of the permissions call of Update. *)
Definition modifyPermReq (d : ResourceData) : ModifyVpcEndpointServicePermissionsInput :=
  {| mp_ServiceId := Some (Id d);
     mp_AddAllowedPrincipals :=
       (setVpcEndpointServiceUpdateLists d "allowed_principals" None None).1;
     mp_RemoveAllowedPrincipals :=
       (setVpcEndpointServiceUpdateLists d "allowed_principals" None None).2 |}.

(** The step of Update for the configuration: when one of the four
    attributes changed, one call and then the wait for availability. *)
Definition configurationStep (w : W) : outcome (option error) * W :=
  let d := w_d w in
  if HasChanges d configurationKeys then
    match ec2_ModifyConfiguration (modifyCfgReq d) (w_remote w) with
    | (Some e, r1) =>
        (Done (Some (fmt_Errorf "Error modifying VPC Endpoint Service configuration: %s" [] e)),
         afterCall w (ModifyVpcEndpointServiceConfiguration (modifyCfgReq d)) r1)
    | (None, r1) =>
        awaitAvailable (Id d)
                       (afterCall w (ModifyVpcEndpointServiceConfiguration (modifyCfgReq d)) r1)
    end
  else (Done None, w).

(** The step for the permissions: when the allowed principals
    changed, one call, and no wait. *)
Definition permissionsStep (d : ResourceData) (w2 : W) : outcome (option error) * W :=
  if HasChange d "allowed_principals" then
    match ec2_ModifyPermissions (modifyPermReq d) (w_remote w2) with
    | (Some e, r3) =>
        (Done (Some (fmt_Errorf "Error modifying VPC Endpoint Service permissions: %s" [] e)),
         afterCall w2 (ModifyVpcEndpointServicePermissions (modifyPermReq d)) r3)
    | (None, r3) =>
        (Done None, afterCall w2 (ModifyVpcEndpointServicePermissions (modifyPermReq d)) r3)
    end
  else (Done None, w2).

(** The step for the tags. *)
Definition tagsStep (d : ResourceData) (w3 : W) : outcome (option error) * W :=
  if HasChange d "tags" then
    let o := asMap (GetChange d "tags").1 in
    let n := asMap (GetChange d "tags").2 in
    match ec2_UpdateTags (Id d) o n (w_remote w3) with
    | (Some e, r4) =>
        (Done (Some (fmt_Errorf "error updating EC2 VPC Endpoint Service (%s) tags: %s"
                                [Id d] e)),
         afterCall w3 (Ec2UpdateTags (Id d) o n) r4)
    | (None, r4) => (Done None, afterCall w3 (Ec2UpdateTags (Id d) o n) r4)
    end
  else (Done None, w3).

(** Update: the configuration step, the permissions step, the tags
    step, and a full Read; a step that fails ends the sequence with
    its error. *)
Definition spec_Update (w : W) : outcome (option error) * W :=
  let d := w_d w in
  match configurationStep w with
  | (Done None, w2) =>
      match permissionsStep d w2 with
      | (Done None, w3) =>
          match tagsStep d w3 with
          | (Done None, w4) => resourceAwsVpcEndpointServiceRead meta w4
          | failed => failed
          end
      | failed => failed
      end
  | failed => failed
  end.

(** Delete: the delete call; a not-found error counts as success; any
    other error aborts; then the deletion is awaited. *)
Definition spec_Delete (w : W) : outcome (option error) * W :=
  let id := Id (w_d w) in
  let call := DeleteVpcEndpointServiceConfigurations [id] in
  match ec2_Delete [id] (w_remote w) with
  | (Some e, r1) =>
      if isAWSErr e "InvalidVpcEndpointServiceId.NotFound" ""
      then awaitDeletion id (afterCall w call r1)
      else (Done (Some (fmt_Errorf "Error deleting VPC Endpoint Service: %s" [] e)),
            afterCall w call r1)
  | (None, r1) => awaitDeletion id (afterCall w call r1)
  end.
(** The steps of Create that come before its final Read: the create
    call, the write of the id, the wait, the permissions call. *)
Definition createSteps (w : W) : outcome (option error) * W :=
  let d := w_d w in
  let req := createInput d in
  match ec2_Create req (w_remote w) with
  | (inl err, r1) =>
      (Done (Some (fmt_Errorf "Error creating VPC Endpoint Service configuration: %s" [] err)),
       afterCall w (CreateVpcEndpointServiceConfiguration req) r1)
  | (inr resp, r1) =>
      match co_ServiceConfiguration resp with
      | None =>
          (Panic "invalid memory address or nil pointer dereference",
           afterCall w (CreateVpcEndpointServiceConfiguration req) r1)
      | Some sc =>
          let id := aws_StringValue (sc_ServiceId sc) in
          let w1 := mkWorld (SetId id d) r1
                            (w_log w ++ [Call (CreateVpcEndpointServiceConfiguration req);
                                         PersistId id]) in
          match awaitAvailable id w1 with
          | (Done None, w2) =>
              match GetOk d "allowed_principals" with
              | Some (VSet principals) =>
                  let permReq := addAllPrincipals id principals in
                  match ec2_ModifyPermissions permReq (w_remote w2) with
                  | (Some e, r3) =>
                      (Done (Some (fmt_Errorf "error adding VPC Endpoint Service permissions: %s"
                                              [] e)),
                       afterCall w2 (ModifyVpcEndpointServicePermissions permReq) r3)
                  | (None, r3) =>
                      (Done None, afterCall w2 (ModifyVpcEndpointServicePermissions permReq) r3)
                  end
              | Some _ => (Panic "interface conversion: not *schema.Set", w2)
              | None => (Done None, w2)
              end
          | failed => failed
          end
      end
  end.

(** The steps of Update that come before its final Read. *)
Definition updateSteps (w : W) : outcome (option error) * W :=
  let d := w_d w in
  match configurationStep w with
  | (Done None, w2) =>
      match permissionsStep d w2 with
      | (Done None, w3) => tagsStep d w3
      | failed => failed
      end
  | failed => failed
  end.
End Steps.

(** ** A scripted object store *)

Record S3Script : Type := mkS3Script {
  on_HeadObject : error + HeadObjectOutput;
  on_CopyObject : error + CopyObjectOutput;
  on_ListTags : error + gmap string string;
  on_deleteVersion : option error;
  on_deleteAllVersions : option error
}.

#[global] Instance S3Script_S3 : S3 S3Script :=
  {| s3_HeadObject := fun _ _ r => (on_HeadObject r, r);
     s3_CopyObject := fun _ r => (on_CopyObject r, r);
     s3_ObjectListTags := fun _ _ r => (on_ListTags r, r);
     s3_deleteS3ObjectVersion := fun _ _ _ _ r => (on_deleteVersion r, r);
     s3_deleteAllS3ObjectVersions := fun _ _ _ _ r => (on_deleteAllVersions r, r);
     s3_BucketObjectSetKMS := fun _ d r => ((None, d), r);
     s3_BucketObjectRead := fun d r => ((None, d), r) |}.

#[global] Instance demoHelpers : S3Helpers :=
  {| expandS3ObjectDate := fun s => if String.eqb s "" then None else Some s;
     url_QueryEscape := fun s => s;
     tags_UrlEncode := fun _ => "" |}.

Definition emptyCopyOutput : CopyObjectOutput :=
  mkCopyObjectOutput None None None None None None None None None None.

(** An object store that has lost the object. *)
Definition demoStore : S3Script :=
  {| on_HeadObject := inl (awserr "NotFound" "Not Found" 404);
     on_CopyObject := inr emptyCopyOutput;
     on_ListTags := inr ∅;
     on_deleteVersion := None;
     on_deleteAllVersions := None |}.

(** An object copy whose key has leading and repeated slashes, with
    nothing to change. *)
Definition demoObject : ResourceData :=
  let attrs : gmap string Value :=
    <["bucket" := VString "b"]>
      (<["key" := VString "//logs///2021/a.txt"]> {["source" := VString "src/a.txt"]}) in
  mkResourceData "//logs///2021/a.txt" attrs attrs ∅.

(** The same, with [copy_if_match] set. *)
Definition demoObjectIfMatch : ResourceData :=
  let attrs : gmap string Value :=
    <["copy_if_match" := VString "etag"]> (rd_planned demoObject) in
  mkResourceData "//logs///2021/a.txt" attrs attrs ∅.

Definition demoS3World (d : ResourceData) : World S3Script s3_call :=
  mkWorld d demoStore [].

(** ** The normal form of an object key *)

(** The key the delete operation passes on. *)
Definition deleteKey (key : string) : string :=
  slashRuns_ReplaceAllString false (strings_TrimLeft key "/") "/".

(** [strings.Split(s, "/")]: the pieces of [s] between its slashes. *)
Fixpoint splitSlash (s : string) : list string :=
  match s with
  | EmptyString => [""]
  | String c rest =>
      if Ascii.eqb c slash then "" :: splitSlash rest
      else match splitSlash rest with
           | h :: t => String c h :: t
           | [] => [String c EmptyString]
           end
  end.

Definition nonEmpty (s : string) : bool := negb (String.eqb s "").

(** The pieces of [pieces] that are not empty, joined by single
    slashes, with one slash at the end when the last piece is empty
    (the key ended in a slash) and some piece is not. *)
Definition joinPieces (pieces : list string) : string :=
  let segments := List.filter nonEmpty pieces in
  let trailing :=
    match last pieces, segments with
    | Some EmptyString, _ :: _ => "/"
    | _, _ => ""
    end in
  strings_Join segments "/" +:+ trailing.

(** A key without its leading slashes and with every run of slashes
    collapsed to one slash, as the words say it. *)
Definition collapsedKey (key : string) : string := joinPieces (splitSlash key).

(** ** What Read writes *)

(** [d.Set] for a list of attributes, in order. *)
Definition SetAll (attrs : list (string * Value)) (d : ResourceData) : ResourceData :=
  fold_left (fun d kv => Set_ kv.1 kv.2 d) attrs d.

(** The attributes the Read of the endpoint service writes from a
    service configuration, in the order of the source: before it
    looks at the service type, after that, and after it has read the
    permissions. *)
Definition configurationAttributes (meta : AWSClient) (id : string)
    (svcCfg : ServiceConfiguration) : list (string * Value) :=
  [("arn", VString (arn_String (partition meta) "ec2" (region meta) (accountid meta)
                               ("vpc-endpoint-service/" +:+ id)));
   ("acceptance_required", VBool (aws_BoolValue (sc_AcceptanceRequired svcCfg)));
   ("availability_zones", VSet (flattenStringSet (sc_AvailabilityZones svcCfg)));
   ("base_endpoint_dns_names", VSet (flattenStringSet (sc_BaseEndpointDnsNames svcCfg)));
   ("gateway_load_balancer_arns", VSet (flattenStringSet (sc_GatewayLoadBalancerArns svcCfg)));
   ("manages_vpc_endpoints", VBool (aws_BoolValue (sc_ManagesVpcEndpoints svcCfg)));
   ("network_load_balancer_arns", VSet (flattenStringSet (sc_NetworkLoadBalancerArns svcCfg)));
   ("private_dns_name", VString (aws_StringValue (sc_PrivateDnsName svcCfg)));
   ("service_name", VString (aws_StringValue (sc_ServiceName svcCfg)))].

Definition stateAttributes (meta : AWSClient) (svcCfg : ServiceConfiguration)
    (serviceType0 : option string) : list (string * Value) :=
  [("service_type", VString (aws_StringValue serviceType0));
   ("state", VString (aws_StringValue (sc_ServiceState svcCfg)));
   ("tags", VMap (IgnoreTags meta (sc_Tags svcCfg)))].

Definition permissionAttributes (svcCfg : ServiceConfiguration)
    (allowedPrincipals : list AllowedPrincipal) : list (string * Value) :=
  [("allowed_principals",
    VSet (flattenVpcEndpointServiceAllowedPrincipals allowedPrincipals));
   ("private_dns_name_configuration",
    VList (flattenPrivateDnsNameConfiguration (sc_PrivateDnsNameConfiguration svcCfg)))].

(** A service configuration with a private DNS name configuration
    that has a name only, and two allowed principals, one entry
    without principal. *)
Definition demoDns : PrivateDnsNameConfiguration :=
  {| pdc_Name := Some "_abc.example.com"; pdc_State := None; pdc_Type := None;
     pdc_Value := None |}.

Definition demoPrincipals : list AllowedPrincipal :=
  [mkAllowedPrincipal (Some "P1") (Some "Account"); mkAllowedPrincipal None None;
   mkAllowedPrincipal (Some "P2") (Some "Account")].

(** ** A full Read, by what can be observed of it *)

(** The attributes of the resource data [d'] read as the service
    configuration [svcCfg], its first service type and the allowed
    principals [aps] give them; the tags are those of the
    configuration after the filter of the provider. *)
Definition populatedFrom (meta : AWSClient) (id : string) (svcCfg : ServiceConfiguration)
    (serviceType0 : option string) (aps : list AllowedPrincipal) (d' : ResourceData) : Prop :=
  asString (Get d' "arn") =
    arn_String (partition meta) "ec2" (region meta) (accountid meta)
               ("vpc-endpoint-service/" +:+ id) /\
  asBool (Get d' "acceptance_required") = aws_BoolValue (sc_AcceptanceRequired svcCfg) /\
  asSet (Get d' "availability_zones") = list_to_set (sc_AvailabilityZones svcCfg) /\
  asSet (Get d' "base_endpoint_dns_names") = list_to_set (sc_BaseEndpointDnsNames svcCfg) /\
  asSet (Get d' "gateway_load_balancer_arns") = list_to_set (sc_GatewayLoadBalancerArns svcCfg) /\
  asBool (Get d' "manages_vpc_endpoints") = aws_BoolValue (sc_ManagesVpcEndpoints svcCfg) /\
  asSet (Get d' "network_load_balancer_arns") = list_to_set (sc_NetworkLoadBalancerArns svcCfg) /\
  asString (Get d' "private_dns_name") = aws_StringValue (sc_PrivateDnsName svcCfg) /\
  asString (Get d' "service_name") = aws_StringValue (sc_ServiceName svcCfg) /\
  asString (Get d' "service_type") = aws_StringValue serviceType0 /\
  asString (Get d' "state") = aws_StringValue (sc_ServiceState svcCfg) /\
  asMap (Get d' "tags") = IgnoreTags meta (sc_Tags svcCfg) /\
  (forall p, p ∈ asSet (Get d' "allowed_principals") <->
             exists a, a ∈ aps /\ ap_Principal a = Some p) /\
  Get d' "private_dns_name_configuration" =
    nz (Some (VList (flattenPrivateDnsNameConfiguration
                       (sc_PrivateDnsNameConfiguration svcCfg)))).

(** [out] is what a full Read gives when it starts in the world
    [w4]: it makes the Describe call for the id first and after that
    only reads or writes the id; when it returns nil it has either
    found the service gone and cleared the id, or read the
    permissions; a lookup error other than not-found is returned and
    nothing is written; and for a service that is there, in a state
    that is not terminal, all attributes are populated from the two
    answers of the remote system. *)
Definition fullRead {R : Type} `{EC2 R} (meta : AWSClient) (w4 : World R ec2_call)
    (out : outcome (option error) * World R ec2_call) : Prop :=
  let id := Id (w_d w4) in
  let describe := Call (DescribeVpcEndpointServiceConfigurations [id]) in
  let permissions := Call (DescribeVpcEndpointServicePermissions id) in
  (exists evs, w_log out.2 = w_log w4 ++ describe :: evs /\
               Forall (fun e => isReadTail e = true) evs) /\
  (out.1 = Done None ->
   (w_log out.2 = w_log w4 ++ [describe; PersistId ""] /\ Id (w_d out.2) = "") \/
   (w_log out.2 = w_log w4 ++ [describe; permissions] /\ Id (w_d out.2) = id)) /\
  (forall err r5,
      ec2_DescribeConfigurations [id] (w_remote w4) = (inl err, r5) ->
      isAWSErr err "InvalidVpcEndpointServiceId.NotFound" "" = false ->
      out = (Done (Some (fmt_Errorf "error reading VPC Endpoint Service (%s): %s" [id] err)),
             mkWorld (w_d w4) r5 (w_log w4 ++ [describe]))) /\
  (forall svcCfg rest r5 serviceType0 types aps r6,
      ec2_DescribeConfigurations [id] (w_remote w4) = (inr (svcCfg :: rest), r5) ->
      terminalStates !! aws_StringValue (sc_ServiceState svcCfg) = None ->
      sc_ServiceType svcCfg = serviceType0 :: types ->
      ec2_DescribePermissions id r5 = (inr aps, r6) ->
      out.1 = Done None /\
      w_remote out.2 = r6 /\
      w_log out.2 = w_log w4 ++ [describe; permissions] /\
      Id (w_d out.2) = id /\
      rd_state (w_d out.2) = rd_state (w_d w4) /\
      rd_planned (w_d out.2) = rd_planned (w_d w4) /\
      populatedFrom meta id svcCfg serviceType0 aps (w_d out.2)).

(** The remote system of the scenarios, reporting the allowed
    principals [aps]. *)
Definition demoScriptWith (describes : list (error + list ServiceConfiguration))
    (aps : list AllowedPrincipal) (onModifyConfiguration : option error) : Ec2Script :=
  {| on_Create := inr {| co_ServiceConfiguration := Some (inState "Pending") |};
     on_Describe := describes;
     on_Permissions := inr aps;
     on_ModifyConfiguration := onModifyConfiguration;
     on_ModifyPermissions := None;
     on_Delete := None;
     on_UpdateTags := None |}.

Definition principalsOf (l : list string) : list AllowedPrincipal :=
  (fun p => mkAllowedPrincipal (Some p) (Some "Account")) <$> l.

(** Create of [demoNew]: the service is seen available at the first
    refresh, and the final Read finds the principals P1 and P2. *)
Definition demoCreateWorld : World Ec2Script ec2_call :=
  mkWorld demoNew
          (demoScriptWith [inr [inState "Available"]; inr [inState "Available"]]
                          (principalsOf ["P1"; "P2"]) None) [].

(** Update of [demoChange]: the final Read finds the principals P2
    and P3. *)
Definition demoUpdateWorld : World Ec2Script ec2_call :=
  mkWorld demoChange
          (demoScriptWith [inr [inState "Available"]] (principalsOf ["P2"; "P3"]) None) [].

(** A resource whose acceptance flag and allowed principals both
    change, and a remote system that refuses the configuration
    call. *)
Definition demoBothChange : ResourceData :=
  mkResourceData "vpce-svc-1"
    {["allowed_principals" := VSet P1P2]}
    (<["acceptance_required" := VBool true]> {["allowed_principals" := VSet P2P3]}) ∅.

Definition refused : error := awserr "InvalidParameter" "refused" 400.

Definition demoRefusedWorld : World Ec2Script ec2_call :=
  mkWorld demoBothChange (demoScriptWith [inr [inState "Available"]] [] (Some refused)) [].

(** A client whose filter drops the tags of AWS itself, and a
    service that has one such tag and one of its own. *)
Definition demoMetaIgnoreAws : AWSClient :=
  {| partition := "aws"; region := "us-east-1"; accountid := "123456789012";
     IgnoreTags := filter (fun kv => negb (strings_HasPrefix kv.1 "aws:")) |}.

Definition demoTagged : ServiceConfiguration :=
  {| sc_AcceptanceRequired := Some false;
     sc_AvailabilityZones := ["us-east-1a"];
     sc_BaseEndpointDnsNames := [];
     sc_GatewayLoadBalancerArns := [];
     sc_ManagesVpcEndpoints := Some false;
     sc_NetworkLoadBalancerArns := ["arn:nlb"];
     sc_PrivateDnsName := None;
     sc_PrivateDnsNameConfiguration := None;
     sc_ServiceId := Some "vpce-svc-1";
     sc_ServiceName := Some "com.amazonaws.vpce.vpce-svc-1";
     sc_ServiceState := Some "Available";
     sc_ServiceType := [Some "Interface"];
     sc_Tags := <["aws:cloudformation:stack-name" := "stack"]> {["Name" := "x"]} |}.

(** ** The grants by permission *)

(** The grantees of [tfList] for the permission [perm]: the text of
    every grant, once for each time [perm] is among its permissions,
    in the order of the list. *)
Definition granteesOf (perm : string) (tfMap : Grant) (v : string) : list string :=
  flat_map (fun p => if String.eqb p perm then [v] else []) (grant_permissions tfMap).

Definition granteesFor (perm : string) (tfList : list Grant) : list string :=
  flat_map (fun tfMap =>
              match expandS3Grant tfMap with
              | Done v => granteesOf perm tfMap v
              | Panic _ => []
              end) tfList.

(** A header of grantees: nil when there is none, the texts joined by
    commas otherwise. *)
Definition grantHeader (l : list string) : option string :=
  if (0 <? length l)%nat then Some (strings_Join l ",") else None.

(** Two grants: a canonical user who may read and read the ACL, and a
    group that may read.  And a grant block without type. *)
Definition demoGrants : list Grant :=
  [mkGrant "" "abc123" TypeCanonicalUser "" [PermissionRead; PermissionReadAcp];
   mkGrant "" "" "Group" "http://acs.amazonaws.com/groups/global/AllUsers" [PermissionRead]].

Definition noTypeGrant : Grant := mkGrant "a@example.com" "" "" "" [PermissionRead].

(** An object store that refuses every request for lack of
    permission. *)
Definition denied : error := awserr "AccessDenied" "Access Denied" 403.

Definition refusingStore : S3Script :=
  {| on_HeadObject := inl denied;
     on_CopyObject := inl denied;
     on_ListTags := inl denied;
     on_deleteVersion := Some denied;
     on_deleteAllVersions := Some denied |}.

(** An object copy with a canned ACL and with grants, and one with a
    key for KMS and an encryption of its own choice. *)
Definition demoObjectGrants : ResourceData :=
  let attrs : gmap string Value :=
    <["acl" := VString "public-read"]>
      (<["grant" := VGrants demoGrants]> (rd_planned demoObject)) in
  mkResourceData "" ∅ attrs ∅.

Definition demoObjectKms : ResourceData :=
  let attrs : gmap string Value :=
    <["kms_key_id" := VString "arn:aws:kms:key/1"]>
      (<["server_side_encryption" := VString "AES256"]> (rd_planned demoObject)) in
  mkResourceData "" ∅ attrs ∅.

(** An object copy whose storage class changes. *)
Definition demoObjectChanged : ResourceData :=
  mkResourceData "//logs///2021/a.txt" (rd_planned demoObject)
                 (<["storage_class" := VString "GLACIER"]> (rd_planned demoObject)) ∅.

(** ** What the copy and the Read of the object copy write *)

(** The attributes the copy writes from the answer of CopyObject, in
    the order of the source. *)
Definition copyAttributes (output : CopyObjectOutput) : list (string * Value) :=
  [("customer_algorithm", VString (aws_StringValue (cp_SSECustomerAlgorithm output)));
   ("customer_key_md5", VString (aws_StringValue (cp_SSECustomerKeyMD5 output)))] ++
  match cp_CopyObjectResult output with
  | Some res =>
      [("etag", VString (strings_Trim (aws_StringValue (cor_ETag res)) quote));
       ("last_modified", VString (aws_StringValue (cor_LastModified res)))]
  | None => []
  end ++
  [("expiration", VString (aws_StringValue (cp_Expiration output)));
   ("kms_encryption_context", VString (aws_StringValue (cp_SSEKMSEncryptionContext output)));
   ("kms_key_id", VString (aws_StringValue (cp_SSEKMSKeyId output)))] ++
  match cp_RequestCharged output with
  | Some _ => []
  | None => [("request_charged", VBool false)]
  end ++
  [("server_side_encryption", VString (aws_StringValue (cp_ServerSideEncryption output)));
   ("source_version_id", VString (aws_StringValue (cp_CopySourceVersionId output)));
   ("version_id", VString (aws_StringValue (cp_VersionId output)))].

(** The attributes Read writes from the answer of HeadObject before
    it looks at the KMS key, and those it writes after. *)
Definition headAttributes (resp : HeadObjectOutput) : list (string * Value) :=
  [("cache_control", VString (aws_StringValue (ho_CacheControl resp)));
   ("content_disposition", VString (aws_StringValue (ho_ContentDisposition resp)));
   ("content_encoding", VString (aws_StringValue (ho_ContentEncoding resp)));
   ("content_language", VString (aws_StringValue (ho_ContentLanguage resp)));
   ("content_type", VString (aws_StringValue (ho_ContentType resp)));
   ("metadata", VMap (lowerKeys (ho_Metadata resp)));
   ("version_id", VString (aws_StringValue (ho_VersionId resp)));
   ("server_side_encryption", VString (aws_StringValue (ho_ServerSideEncryption resp)));
   ("website_redirect", VString (aws_StringValue (ho_WebsiteRedirectLocation resp)));
   ("object_lock_legal_hold_status",
    VString (aws_StringValue (ho_ObjectLockLegalHoldStatus resp)));
   ("object_lock_mode", VString (aws_StringValue (ho_ObjectLockMode resp)));
   ("object_lock_retain_until_date",
    VString (aws_StringValue (ho_ObjectLockRetainUntilDate resp)))].

Definition storageAttributes (resp : HeadObjectOutput) : list (string * Value) :=
  [("etag", VString (strings_Trim (aws_StringValue (ho_ETag resp)) quote));
   ("storage_class", VString StorageClassStandard)] ++
  match ho_StorageClass resp with
  | Some sc => [("storage_class", VString sc)]
  | None => []
  end.

(** An object store that has the object, in the standard storage
    class, and answers a copy with an entity tag in quotes. *)
Definition quoted (s : string) : string := quote +:+ s +:+ quote.

Definition demoHead : HeadObjectOutput :=
  {| ho_CacheControl := None; ho_ContentDisposition := None; ho_ContentEncoding := None;
     ho_ContentLanguage := None; ho_ContentType := Some "text/plain";
     ho_Metadata := ∅; ho_VersionId := None; ho_ServerSideEncryption := None;
     ho_WebsiteRedirectLocation := None; ho_ObjectLockLegalHoldStatus := None;
     ho_ObjectLockMode := None; ho_ObjectLockRetainUntilDate := None;
     ho_SSEKMSKeyId := None; ho_ETag := Some (quoted "9b2cf535"); ho_StorageClass := None |}.

Definition demoCopyOutput : CopyObjectOutput :=
  mkCopyObjectOutput None None (Some (mkCopyObjectResult (Some (quoted "9b2cf535")) None))
                     None None None None None None (Some "v1").

Definition holdingStore : S3Script :=
  {| on_HeadObject := inr demoHead;
     on_CopyObject := inr demoCopyOutput;
     on_ListTags := inr {["team" := "a"]};
     on_deleteVersion := None;
     on_deleteAllVersions := None |}.
(** * Properties *)

#[local] Set Warnings "-clear-no-such-hyp".

(** ** The poller *)

Section PollerFacts.
Context {St I : Type} (conf : StateChangeConf St I).

Lemma keepsPolling_inv o :
  keepsPolling conf o = true ->
  exists res l, o = Done (res, l, None) /\ (l ∉ Target conf) /\ (l ∈ Pending conf).
Proof.
  destruct o as [[[res l] [e|]]|r]; simpl; try discriminate.
  intros Hk. apply andb_true_iff in Hk as [Ht Hp].
  apply negb_true_iff, bool_decide_eq_false in Ht.
  apply bool_decide_eq_true in Hp. eauto.
Qed.

Lemma refreshTrace_S n s :
  refreshTrace (Refresh conf) (S n) s =
    (let '(o0, s0) := Refresh conf s in
     let '(os, s'') := refreshTrace (Refresh conf) n s0 in (o0 :: os, s'')).
Proof. reflexivity. Qed.

(** The poller stops at the first refresh outcome on which it does
    not keep polling, and returns the verdict on that outcome. *)
Lemma pollLoop_run k : forall attempts lastState s pre x s',
  refreshTrace (Refresh conf) (S k) s = (pre ++ [x], s') ->
  length pre = k ->
  forallb (keepsPolling conf) pre = true ->
  keepsPolling conf x = false ->
  (k < attempts)%nat ->
  pollLoop conf attempts lastState s = (verdict conf x, s').
Proof.
  induction k as [|k IH]; intros attempts lastState s pre x s' Htr Hlen Hpre Hx Hlt.
  - destruct pre; [|discriminate]. simpl in Htr.
    destruct attempts as [|n]; [lia|]. simpl.
    destruct (Refresh conf s) as [o s1] eqn:Er. inversion Htr; subst. clear Htr.
    unfold bind. rewrite Er.
    destruct x as [[[res l] [e|]]|r]; simpl in *; try reflexivity.
    destruct (bool_decide (l ∈ Target conf)); simpl in *; [reflexivity|].
    rewrite Hx. reflexivity.
  - destruct pre as [|o pre]; [discriminate|]. simpl in Hlen. injection Hlen as Hlen.
    destruct attempts as [|n]; [lia|].
    rewrite refreshTrace_S in Htr.
    destruct (Refresh conf s) as [o0 s0] eqn:Er.
    destruct (refreshTrace (Refresh conf) (S k) s0) as [os s''] eqn:Et.
    inversion Htr; subst. clear Htr.
    simpl in Hpre. apply andb_true_iff in Hpre as [Ho Hpre].
    destruct (keepsPolling_inv _ Ho) as (res & l & -> & Hnt & Hp).
    simpl. unfold bind. rewrite Er.
    rewrite (bool_decide_eq_false_2 _ Hnt), (bool_decide_eq_true_2 _ Hp).
    apply (IH n l s0 pre x s'); auto. lia.
Qed.

(** When every refresh within the budget keeps polling, the poller
    fails with the timeout error that carries the last label. *)
Lemma pollLoop_timeout attempts : forall lastState s os s',
  refreshTrace (Refresh conf) attempts s = (os, s') ->
  forallb (keepsPolling conf) os = true ->
  pollLoop conf attempts lastState s =
    (Done (inl (TimeoutError (lastLabel lastState os) (Target conf))), s').
Proof.
  induction attempts as [|n IH]; intros lastState s os s' Htr Hall.
  - simpl in Htr. inversion Htr; subst. reflexivity.
  - simpl in Htr.
    destruct (Refresh conf s) as [o0 s0] eqn:Er.
    destruct (refreshTrace (Refresh conf) n s0) as [os0 s''] eqn:Et.
    inversion Htr; subst. clear Htr.
    simpl in Hall. apply andb_true_iff in Hall as [Ho Hall].
    destruct (keepsPolling_inv _ Ho) as (res & l & -> & Hnt & Hp).
    simpl. unfold bind. rewrite Er.
    rewrite (bool_decide_eq_false_2 _ Hnt), (bool_decide_eq_true_2 _ Hp).
    apply (IH l s0 os0 s' Et Hall).
Qed.

(** The poller reports success only on a refresh that returned a
    label of Target without error. *)
Lemma pollLoop_success attempts : forall lastState s res s',
  pollLoop conf attempts lastState s = (Done (inr res), s') ->
  exists s0 l, Refresh conf s0 = (Done (res, l, None), s') /\ l ∈ Target conf.
Proof.
  induction attempts as [|n IH]; intros lastState s res s' Hp; [discriminate|].
  simpl in Hp. unfold bind in Hp.
  destruct (Refresh conf s) as [[[[r0 l] [e|]]|p] s0] eqn:Er; try discriminate.
  destruct (bool_decide (l ∈ Target conf)) eqn:Ht.
  - inversion Hp; subst. apply bool_decide_eq_true in Ht. eauto.
  - destruct (bool_decide (l ∈ Pending conf)); [|discriminate]. eauto.
Qed.

(** A property of states that every refresh step preserves is
    preserved by the poller. *)
Lemma pollLoop_preserves (Rel : St -> St -> Prop) :
  (forall s, Rel s s) ->
  (forall s1 s2 s3, Rel s1 s2 -> Rel s2 s3 -> Rel s1 s3) ->
  (forall s, Rel s (Refresh conf s).2) ->
  forall attempts lastState s, Rel s (pollLoop conf attempts lastState s).2.
Proof.
  intros Hrefl Htrans Hstep. induction attempts as [|n IH]; intros lastState s; [apply Hrefl|].
  simpl. unfold bind. specialize (Hstep s).
  destruct (Refresh conf s) as [[[[r0 l] [e|]]|p] s0]; simpl in *; try exact Hstep.
  destruct (bool_decide (l ∈ Target conf)); [exact Hstep|].
  destruct (bool_decide (l ∈ Pending conf)); [|exact Hstep].
  eapply Htrans; [exact Hstep|apply IH].
Qed.

Lemma refreshTrace_length n : forall s os s',
  refreshTrace (Refresh conf) n s = (os, s') -> length os = n.
Proof.
  induction n as [|n IH]; intros s os s' Htr; simpl in Htr.
  - now inversion Htr.
  - destruct (Refresh conf s) as [o0 s0].
    destruct (refreshTrace (Refresh conf) n s0) as [os0 s''] eqn:Et.
    inversion Htr; subst. simpl. f_equal. eauto.
Qed.

(** What holds of every outcome of the refresh operation holds of
    every outcome of a refresh sequence. *)
Lemma refreshTrace_Forall (P : outcome (I * string * option error) -> Prop) :
  (forall s, P (Refresh conf s).1) ->
  forall n s os s', refreshTrace (Refresh conf) n s = (os, s') -> Forall P os.
Proof.
  intros HP. induction n as [|n IH]; intros s os s' Htr; simpl in Htr.
  - inversion Htr. constructor.
  - specialize (HP s). destruct (Refresh conf s) as [o0 s0].
    destruct (refreshTrace (Refresh conf) n s0) as [os0 s''] eqn:Et.
    inversion Htr; subst. constructor; eauto.
Qed.

End PollerFacts.

(** ** The refresh operation of the VPC endpoint service *)

Section RefreshFacts.
Context {R : Type} `{EC2 R}.

Local Abbreviation W := (World R ec2_call).

(** Every refresh is one Describe call for the service id; it leaves
    the resource data as it is. *)
Lemma refresh_world (id : string) (w : W) :
  (vpcEndpointServiceStateRefresh id w).2 =
    mkWorld (w_d w) (ec2_DescribeConfigurations [id] (w_remote w)).2
            (w_log w ++ [Call (DescribeVpcEndpointServiceConfigurations [id])]).
Proof.
  unfold vpcEndpointServiceStateRefresh, conn_DescribeVpcEndpointServiceConfigurations,
    conn, bind.
  destruct (ec2_DescribeConfigurations [id] (w_remote w)) as [[err|cfgs] r']; simpl.
  - destruct (isAWSErr err _ _); reflexivity.
  - destruct cfgs as [|c cs]; [reflexivity|].
    destruct (String.eqb _ _); reflexivity.
Qed.

Lemma refresh_notfound (id : string) (w : W) err r' :
  ec2_DescribeConfigurations [id] (w_remote w) = (inl err, r') ->
  isAWSErr err "InvalidVpcEndpointServiceId.NotFound" "" = true ->
  vpcEndpointServiceStateRefresh id w =
    (Done (SnapFalse, ServiceStateDeleted, None),
     mkWorld (w_d w) r' (w_log w ++ [Call (DescribeVpcEndpointServiceConfigurations [id])])).
Proof.
  intros Hd Hnf.
  unfold vpcEndpointServiceStateRefresh, conn_DescribeVpcEndpointServiceConfigurations,
    conn, bind.
  rewrite Hd. simpl. rewrite Hnf. reflexivity.
Qed.

Lemma refresh_shape (id : string) (w : W) :
  refreshShape (vpcEndpointServiceStateRefresh id w).1.
Proof.
  unfold vpcEndpointServiceStateRefresh, conn_DescribeVpcEndpointServiceConfigurations,
    conn, bind.
  destruct (ec2_DescribeConfigurations [id] (w_remote w)) as [[err|cfgs] r']; simpl.
  - destruct (isAWSErr err _ _); simpl; [split; discriminate | left; split; reflexivity].
  - destruct cfgs as [|c cs]; simpl; [exact Logic.I|].
    destruct (String.eqb _ _) eqn:Es; simpl.
    + right. apply String.eqb_eq in Es. auto.
    + apply String.eqb_neq in Es. split; [exact Es | discriminate].
Qed.

Lemma polled_refl id (w : W) : polled id w w.
Proof. split; [reflexivity|]. exists 0%nat. simpl. now rewrite app_nil_r. Qed.

Lemma polled_trans id (w1 w2 w3 : W) : polled id w1 w2 -> polled id w2 w3 -> polled id w1 w3.
Proof.
  intros [Hd1 [k1 Hl1]] [Hd2 [k2 Hl2]]. split; [congruence|].
  exists (k1 + k2)%nat. rewrite Hl2, Hl1, <- app_assoc, replicate_add. reflexivity.
Qed.

Lemma polled_refresh id (w : W) : polled id w (vpcEndpointServiceStateRefresh id w).2.
Proof. rewrite refresh_world. split; [reflexivity|]. now exists 1%nat. Qed.

Lemma pollLoop_polled (conf : StateChangeConf W snapshot) id attempts lastState w :
  Refresh conf = vpcEndpointServiceStateRefresh id ->
  polled id w (pollLoop conf attempts lastState w).2.
Proof.
  intros Hr. apply pollLoop_preserves.
  - intros s; apply polled_refl.
  - intros s1 s2 s3; apply polled_trans.
  - intros s. rewrite Hr. apply polled_refresh.
Qed.

(** A refresh sequence of [n] steps is [n] Describe calls. *)
Lemma refreshTrace_log id n : forall (w : W),
  let w' := (refreshTrace (vpcEndpointServiceStateRefresh id) n w).2 in
  w_d w' = w_d w /\
  w_log w' = w_log w ++ replicate n (Call (DescribeVpcEndpointServiceConfigurations [id])).
Proof.
  induction n as [|n IH]; intros w; simpl.
  - split; [reflexivity|]. now rewrite app_nil_r.
  - pose proof (refresh_world id w) as Hw.
    destruct (vpcEndpointServiceStateRefresh id w) as [o0 w0]. simpl in Hw.
    specialize (IH w0).
    destruct (refreshTrace (vpcEndpointServiceStateRefresh id) n w0) as [os w1]. simpl in *.
    destruct IH as [Hd Hl]. rewrite Hd, Hl, Hw. simpl. split; [reflexivity|].
    now rewrite <- app_assoc.
Qed.
End RefreshFacts.

(** ** The diff engine *)

Lemma asSet_nz_VSet (s : gset string) : asSet (nz (Some (VSet s))) = s.
Proof. simpl. case_bool_decide; simpl; congruence. Qed.

Lemma nz_VSet_inj (s t : gset string) : nz (Some (VSet s)) = nz (Some (VSet t)) -> s = t.
Proof. intros E. rewrite <- (asSet_nz_VSet s), <- (asSet_nz_VSet t). now rewrite E. Qed.

Lemma members_expand (s : gset string) (a : option (list string)) :
  members (if (0 <? length (expandStringSet s))%nat then Some (expandStringSet s) else None) = s.
Proof.
  unfold members, expandStringSet.
  destruct (Nat.ltb_spec 0 (length (elements s))) as [Hlt|Hge]; simpl.
  - apply list_to_set_elements_L.
  - assert (Hnil : elements s = []) by (destruct (elements s); [reflexivity | simpl in Hge; lia]).
    apply elements_empty_inv in Hnil. unfold_leibniz. now rewrite Hnil.
Qed.

(** The two lists the diff of an attribute produces, when the prior
    state holds the set [O] and the plan the set [D]. *)
Lemma updateLists_sets (D O : gset string) (d : ResourceData) (key : string) :
  rd_state d !! key = Some (VSet O) ->
  rd_planned d !! key = Some (VSet D) ->
  setVpcEndpointServiceUpdateLists d key None None =
    if bool_decide (O = D) then (None, None)
    else (if (0 <? length (expandStringSet (D ∖ O)))%nat then Some (expandStringSet (D ∖ O)) else None,
          if (0 <? length (expandStringSet (O ∖ D)))%nat then Some (expandStringSet (O ∖ D)) else None).
Proof.
  intros Ho Hn. unfold setVpcEndpointServiceUpdateLists, HasChange, GetChange.
  rewrite Ho, Hn, !asSet_nz_VSet.
  case_bool_decide as Hc; case_bool_decide as Heq; try reflexivity.
  - subst. contradiction.
  - exfalso. apply Heq. apply nz_VSet_inj. destruct (decide (nz (Some (VSet O)) = nz (Some (VSet D)))); [assumption|contradiction].
Qed.

(** C1. For every desired set D and observed set O the diff used for
    updates yields toAdd = D − O and toRemove = O − D, without
    duplicates; so the two are disjoint, (O ∪ toAdd) − toRemove = D,
    and both are empty (the lists stay nil) when D = O. *)
Theorem C1_diff_is_set_difference (D O : gset string) (d : ResourceData) (key : string) :
  rd_state d !! key = Some (VSet O) ->
  rd_planned d !! key = Some (VSet D) ->
  let toAdd := (setVpcEndpointServiceUpdateLists d key None None).1 in
  let toRemove := (setVpcEndpointServiceUpdateLists d key None None).2 in
  members toAdd = D ∖ O /\
  members toRemove = O ∖ D /\
  NoDup (default [] toAdd) /\
  NoDup (default [] toRemove) /\
  members toAdd ## members toRemove /\
  (O ∪ members toAdd) ∖ members toRemove = D /\
  (D = O -> toAdd = None /\ toRemove = None).
Proof.
  intros Ho Hn. cbv zeta. rewrite (updateLists_sets D O d key Ho Hn).
  case_bool_decide as Heq.
  - subst D. simpl. unfold members. simpl.
    refine (conj _ (conj _ (conj _ (conj _ (conj _ (conj _ _)))))).
    + set_solver.
    + set_solver.
    + constructor.
    + constructor.
    + set_solver.
    + set_solver.
    + auto.
  - cbn [fst snd]. rewrite !(members_expand _ None).
    refine (conj _ (conj _ (conj _ (conj _ (conj _ (conj _ _)))))).
    + reflexivity.
    + reflexivity.
    + destruct (0 <? _)%nat; simpl; [apply NoDup_elements | constructor].
    + destruct (0 <? _)%nat; simpl; [apply NoDup_elements | constructor].
    + set_solver.
    + apply set_eq. intros x.
      destruct (decide (x ∈ O)); destruct (decide (x ∈ D)); set_solver.
    + intros ->. contradiction.
Qed.

(** The change {P1, P2} -> {P2, P3}: toAdd = {P3}, toRemove = {P1}. *)
Lemma C1_diff_witness :
  let toAdd := (setVpcEndpointServiceUpdateLists demoChange "allowed_principals" None None).1 in
  let toRemove := (setVpcEndpointServiceUpdateLists demoChange "allowed_principals" None None).2 in
  members toAdd = P2P3 ∖ P1P2 /\
  members toRemove = P1P2 ∖ P2P3 /\
  NoDup (default [] toAdd) /\
  NoDup (default [] toRemove) /\
  members toAdd ## members toRemove /\
  (P1P2 ∪ members toAdd) ∖ members toRemove = P2P3 /\
  (P2P3 = P1P2 -> toAdd = None /\ toRemove = None).
Proof.
  apply (C1_diff_is_set_difference P2P3 P1P2 demoChange "allowed_principals"); reflexivity.
Defined.

(** ** Polling of the VPC endpoint service *)

Lemma fmap_snoc_inv {A B} (f : A -> B) (l : list A) (ks : list B) (k : B) :
  f <$> l = ks ++ [k] -> exists pre x, l = pre ++ [x] /\ f <$> pre = ks /\ f x = k.
Proof.
  intros E. apply fmap_app_inv in E as (l1 & l2 & E1 & E2 & ->).
  destruct l2 as [|x [|y l2]]; try discriminate.
  inversion E2; subst. eauto.
Qed.

Section PollingFacts.
Context {R : Type} `{EC2 R}.
Variable attempts : nat.

Local Abbreviation W := (World R ec2_call).

(** Polling on the refresh of the service [id], when the labels of
    the first [n] refreshes are pending ones (in Pending, not in
    Target, not the failed label) and the budget admits one more
    refresh: the verdict on that refresh is the result. *)
Lemma poll_after_pending (conf : StateChangeConf W snapshot) (id : string) n :
  forall (w w' : W) os pre x lastState,
  Refresh conf = vpcEndpointServiceStateRefresh id ->
  refreshTrace (vpcEndpointServiceStateRefresh id) (S n) w = (os, w') ->
  os = pre ++ [x] ->
  Forall (fun o => exists l, labelOf o = Some l /\ l ∈ Pending conf /\ (l ∉ Target conf) /\
                             l <> ServiceStateFailed /\ l <> "") pre ->
  keepsPolling conf x = false ->
  (n < attempts)%nat ->
  pollLoop conf attempts lastState w = (verdict conf x, w').
Proof.
  intros w w' os pre x lastState Hr Htr -> Hpre Hx Hlt.
  assert (Hshape : Forall refreshShape (pre ++ [x])).
  { apply (refreshTrace_Forall conf refreshShape) with (n := S n) (s := w) (s' := w').
    - intros s. rewrite Hr. apply refresh_shape.
    - rewrite Hr. exact Htr. }
  assert (Hlen : length (pre ++ [x]) = S n).
  { apply (refreshTrace_length conf) with (s := w) (s' := w'). rewrite Hr. exact Htr. }
  rewrite length_app in Hlen. simpl in Hlen.
  apply (pollLoop_run conf n attempts lastState w pre x w'); auto.
  - rewrite Hr. exact Htr.
  - lia.
  - apply Forall_app in Hshape as [Hshape _].
    apply forallb_forall. intros o Hin. apply list_elem_of_In in Hin.
    rewrite Forall_forall in Hpre, Hshape.
    destruct (Hpre o Hin) as (l & Hl & Hp & Ht & Hf & He).
    specialize (Hshape o Hin).
    destruct o as [[[res l0] [e|]]|r]; simpl in *; try discriminate.
    + inversion Hl; subst. destruct Hshape as [[? _]|[? _]]; contradiction.
    + inversion Hl; subst.
      rewrite (bool_decide_eq_false_2 _ Ht), (bool_decide_eq_true_2 _ Hp). reflexivity.
Qed.

Lemma labels_pending (ls : list (option string))
      (os : list (outcome (snapshot * string * option error))) (P : string -> Prop) :
  labelOf <$> os = ls ->
  Forall (fun ol => exists l, ol = Some l /\ P l) ls ->
  Forall (fun o => exists l, labelOf o = Some l /\ P l) os.
Proof.
  intros <-. rewrite Forall_fmap. intros Hall. eapply Forall_impl; [exact Hall|].
  intros o (l & Hl & HP). eauto.
Qed.

(** When all the refreshes of the budget report [Pending], waiting for
    availability fails with the timeout error, which carries the last
    label seen. *)
Lemma waitUntilAvailable_timeout (w w' : W) os :
  refreshTrace (vpcEndpointServiceStateRefresh (Id (w_d w))) attempts w = (os, w') ->
  forallb (keepsPolling (availableConf (Id (w_d w)))) os = true ->
  vpcEndpointServiceWaitUntilAvailable attempts w =
    (Done (Some (fmt_Errorf "Error waiting for VPC Endpoint Service %s to become available: %s"
                            [Id (w_d w)]
                            (TimeoutError (lastLabel "" os) [ServiceStateAvailable]))), w').
Proof.
  intros Htr Hall.
  unfold vpcEndpointServiceWaitUntilAvailable, WaitForState, getD, bind.
  rewrite (pollLoop_timeout (availableConf (Id (w_d w))) attempts "" w os w' Htr Hall).
  reflexivity.
Qed.

(** C4. (1) The refresh returns a non-nil error, the failed-state
    error, whenever it reports the label of the failed state.
    (2) A refresh that returns an error ends the polling at once with
    that error, whatever Pending and Target are.
    (3) When the refreshes report pending, ..., pending, failed
    within the budget of the poller, waiting for availability fails
    with the failed-state error, which is no timeout error, after
    exactly these refreshes. *)
Theorem C4_failed_state_ends_polling :
  (forall (id : string) (w w' : W) res err,
      vpcEndpointServiceStateRefresh id w = (Done (res, ServiceStateFailed, err), w') ->
      err = Some failedStateError) /\
  (forall (conf : StateChangeConf W snapshot) n lastState (w w' : W) res l err,
      Refresh conf w = (Done (res, l, Some err), w') ->
      pollLoop conf (S n) lastState w = (Done (inl err), w')) /\
  (forall (w w' : W) n os,
      refreshTrace (vpcEndpointServiceStateRefresh (Id (w_d w))) (S n) w = (os, w') ->
      labelOf <$> os = replicate n (Some ServiceStatePending) ++ [Some ServiceStateFailed] ->
      (n < attempts)%nat ->
      let err := fmt_Errorf "Error waiting for VPC Endpoint Service %s to become available: %s"
                            [Id (w_d w)] failedStateError in
      vpcEndpointServiceWaitUntilAvailable attempts w = (Done (Some err), w') /\
      isTimeout err = false /\
      w_d w' = w_d w /\
      w_log w' = w_log w ++
        replicate (S n) (Call (DescribeVpcEndpointServiceConfigurations [Id (w_d w)]))).
Proof.
  refine (conj _ (conj _ _)).
  - intros id w w' res err Hr.
    pose proof (refresh_shape id w) as Hs. rewrite Hr in Hs. simpl in Hs.
    destruct err as [e|].
    + destruct Hs as [[? _]|(_ & _ & ->)]; [discriminate | reflexivity].
    + destruct Hs as [Hs _]. contradiction.
  - intros conf n lastState w w' res l err Hr. simpl. unfold bind. rewrite Hr. reflexivity.
  - intros w w' n os Htr Hlab Hlt. cbv zeta.
    apply fmap_snoc_inv in Hlab as (pre & x & -> & Hpre & Hx).
    assert (Hshape : refreshShape x).
    { assert (Hall : Forall refreshShape (pre ++ [x])).
      { apply (refreshTrace_Forall (availableConf (Id (w_d w))) refreshShape)
          with (n := S n) (s := w) (s' := w'); [intros s; apply refresh_shape | exact Htr]. }
      apply Forall_app in Hall as [_ Hall]. now inversion Hall. }
    assert (Ex : x = Done (SnapNil, ServiceStateFailed, Some failedStateError)).
    { destruct x as [[[res l] [e|]]|r]; simpl in *; try discriminate.
      - inversion Hx; subst. destruct Hshape as [[? _]|(_ & -> & ->)]; [discriminate|reflexivity].
      - inversion Hx; subst. destruct Hshape as [? _]. contradiction. }
    assert (Hpoll : pollLoop (availableConf (Id (w_d w))) attempts "" w =
                    (verdict (availableConf (Id (w_d w))) x, w')).
    { apply (poll_after_pending _ (Id (w_d w)) n w w' (pre ++ [x]) pre x); auto.
      - apply (labels_pending (replicate n (Some ServiceStatePending)) pre); [exact Hpre|].
        apply Forall_replicate. exists ServiceStatePending.
        repeat split; try discriminate; [set_solver | set_solver].
      - rewrite Ex. reflexivity. }
    pose proof (refreshTrace_log (Id (w_d w)) (S n) w) as Hlog.
    rewrite Htr in Hlog. cbv zeta in Hlog. destruct Hlog as [Hd Hl].
    repeat split; auto.
    unfold vpcEndpointServiceWaitUntilAvailable, WaitForState, getD, bind.
    rewrite Hpoll, Ex. reflexivity.
Qed.
(** C5. (1) A refresh whose lookup fails with the not-found code
    reports the label [Deleted], without error.
    (2) The deletion poller has Pending = {Available, Deleting} and
    Target = {Deleted}.
    (3) So waiting for the deletion succeeds when the first lookup
    fails with the not-found code, and
    (4) whenever the refreshes report labels of Pending and then
    [Deleted], within the budget of the poller. *)
Theorem C5_not_found_completes_deletion :
  (forall (id : string) (w : W) err r',
      ec2_DescribeConfigurations [id] (w_remote w) = (inl err, r') ->
      isAWSErr err "InvalidVpcEndpointServiceId.NotFound" "" = true ->
      vpcEndpointServiceStateRefresh id w =
        (Done (SnapFalse, ServiceStateDeleted, None),
         mkWorld (w_d w) r'
                 (w_log w ++ [Call (DescribeVpcEndpointServiceConfigurations [id])]))) /\
  (forall id : string,
      Pending (deletionConf (R := R) id) = [ServiceStateAvailable; ServiceStateDeleting] /\
      Target (deletionConf (R := R) id) = [ServiceStateDeleted]) /\
  (forall (id : string) (w : W) err r',
      ec2_DescribeConfigurations [id] (w_remote w) = (inl err, r') ->
      isAWSErr err "InvalidVpcEndpointServiceId.NotFound" "" = true ->
      (0 < attempts)%nat ->
      waitForVpcEndpointServiceDeletion attempts id w =
        (Done None,
         mkWorld (w_d w) r'
                 (w_log w ++ [Call (DescribeVpcEndpointServiceConfigurations [id])]))) /\
  (forall (id : string) (w w' : W) n os labels,
      refreshTrace (vpcEndpointServiceStateRefresh id) (S n) w = (os, w') ->
      labelOf <$> os = labels ++ [Some ServiceStateDeleted] ->
      Forall (fun l => l = Some ServiceStateAvailable \/ l = Some ServiceStateDeleting) labels ->
      (n < attempts)%nat ->
      waitForVpcEndpointServiceDeletion attempts id w = (Done None, w')).
Proof.
  refine (conj _ (conj _ (conj _ _))).
  - intros id w err r'. apply refresh_notfound.
  - intros id. split; reflexivity.
  - intros id w err r' Hd Hnf Hlt.
    destruct attempts as [|n]; [lia|].
    unfold waitForVpcEndpointServiceDeletion, WaitForState, bind. simpl.
    unfold bind. rewrite (refresh_notfound id w err r' Hd Hnf). reflexivity.
  - intros id w w' n os labels Htr Hlab Hpend Hlt.
    apply fmap_snoc_inv in Hlab as (pre & x & -> & Hpre & Hx).
    assert (Hshape : refreshShape x).
    { assert (Hall : Forall refreshShape (pre ++ [x])).
      { apply (refreshTrace_Forall (deletionConf id) refreshShape)
          with (n := S n) (s := w) (s' := w'); [intros s; apply refresh_shape | exact Htr]. }
      apply Forall_app in Hall as [_ Hall]. now inversion Hall. }
    assert (Ex : exists res, x = Done (res, ServiceStateDeleted, None)).
    { destruct x as [[[res l] [e|]]|r]; simpl in *; try discriminate.
      - inversion Hx; subst. destruct Hshape as [[? _]|[? _]]; discriminate.
      - inversion Hx; subst. eauto. }
    destruct Ex as [res ->].
    assert (Hpoll : pollLoop (deletionConf id) attempts "" w =
                    (verdict (deletionConf id) (Done (res, ServiceStateDeleted, None)), w')).
    { apply (poll_after_pending _ id n w w' (pre ++ [Done (res, ServiceStateDeleted, None)]) pre);
        auto.
      apply (labels_pending labels pre); [exact Hpre|].
      eapply Forall_impl; [exact Hpend|]. intros ol [->| ->].
      - exists ServiceStateAvailable. repeat split; try discriminate; set_solver.
      - exists ServiceStateDeleting. repeat split; try discriminate; set_solver. }
    unfold waitForVpcEndpointServiceDeletion, WaitForState, bind.
    rewrite Hpoll. reflexivity.
Qed.
End PollingFacts.

(** The refreshes report pending, pending, failed; the budget is of
    five refreshes. *)
Lemma C4_pending_pending_failed_witness :
  exists w',
    vpcEndpointServiceWaitUntilAvailable 5
      (demoWorld demoChange
         [inr [inState "Pending"]; inr [inState "Pending"]; inr [inState "Failed"]]) =
    (Done (Some (fmt_Errorf "Error waiting for VPC Endpoint Service %s to become available: %s"
                            ["vpce-svc-1"] failedStateError)), w').
Proof.
  eexists.
  eapply (proj2 (proj2 (C4_failed_state_ends_polling 5))) with (n := 2%nat).
  - reflexivity.
  - reflexivity.
  - lia.
Defined.

(** The resource is seen deleting once, and then the lookup fails
    with the not-found code. *)
Lemma C5_not_found_witness :
  exists w',
    waitForVpcEndpointServiceDeletion 5 "vpce-svc-1"
      (demoWorld demoChange [inr [inState "Deleting"]; inl notFound]) = (Done None, w').
Proof.
  eexists.
  eapply (proj2 (proj2 (proj2 (C5_not_found_completes_deletion 5)))) with (n := 1%nat)
    (labels := [Some ServiceStateDeleting]).
  - reflexivity.
  - reflexivity.
  - constructor; [right; reflexivity | constructor].
  - lia.
Defined.

(** ** What operations add to the log *)

Section Emits.
Context {R C : Type}.
Implicit Types P : event C -> Prop.

Lemma emits_ret {A} P (a : A) : emits (R := R) P (ret a).
Proof. intros w. exists []. simpl. rewrite app_nil_r. auto. Qed.

Lemma emits_panic {A} P r : emits (R := R) (A := A) P (panic r).
Proof. intros w. exists []. simpl. rewrite app_nil_r. auto. Qed.

Lemma emits_getD P : emits (R := R) P getD.
Proof. intros w. exists []. simpl. rewrite app_nil_r. auto. Qed.

Lemma emits_d_Set P key v : emits (R := R) P (d_Set key v).
Proof. intros w. exists []. simpl. rewrite app_nil_r. auto. Qed.

Lemma emits_d_SetId P v : P (PersistId v) -> emits (R := R) P (d_SetId v).
Proof. intros HP w. exists [PersistId v]. simpl. auto. Qed.

Lemma emits_conn {A} P (c : C) (answer : R -> A * R) : P (Call c) -> emits P (conn c answer).
Proof.
  intros HP w. exists [Call c]. unfold conn. destruct (answer (w_remote w)). simpl. auto.
Qed.

Lemma emits_bind {A B} P (m : M (World R C) A) (k : A -> M (World R C) B) :
  emits P m -> (forall a, emits P (k a)) -> emits P (bind m k).
Proof.
  intros Hm Hk w. unfold bind. destruct (Hm w) as (e1 & Hl1 & HP1).
  destruct (m w) as [[a|r] w1]; simpl in *.
  - destruct (Hk a w1) as (e2 & Hl2 & HP2). exists (e1 ++ e2).
    rewrite Hl2, Hl1, <- app_assoc. split; [reflexivity | apply Forall_app; auto].
  - eauto.
Qed.

Lemma emits_orReturn {E} P (m k : M (World R C) (option E)) :
  emits P m -> emits P k -> emits P (orReturn m k).
Proof.
  intros Hm Hk. unfold orReturn. apply emits_bind; [exact Hm|].
  intros [e|]; [apply emits_ret | exact Hk].
Qed.

Lemma added_app (l evs : list (event C)) : added l (l ++ evs) = evs.
Proof. unfold added. apply drop_app_length. Qed.

Lemma count_app (p : event C -> bool) l1 l2 : count p (l1 ++ l2) = (count p l1 + count p l2)%nat.
Proof. unfold count. now rewrite List.filter_app, length_app. Qed.

Lemma count_none (p q : event C -> bool) l :
  Forall (fun e => q e = true) l -> (forall e, q e = true -> p e = false) -> count p l = 0%nat.
Proof.
  intros Hall Hpq. unfold count. induction Hall as [|e l He _ IH]; [reflexivity|].
  simpl. now rewrite (Hpq e He).
Qed.
End Emits.

Ltac emits_step :=
  first [ apply emits_ret | apply emits_panic | apply emits_getD | apply emits_d_Set
        | apply emits_d_SetId; reflexivity
        | apply emits_conn; reflexivity
        | apply emits_orReturn
        | apply emits_bind; [|intros ?] ].

(** ** Read and a resource that is gone *)

Lemma terminalStates_lookup (state : string) :
  state ∈ [ServiceStateDeleted; ServiceStateDeleting; ServiceStateFailed] ->
  terminalStates !! state = Some true.
Proof.
  intros Hin. repeat (apply elem_of_cons in Hin as [->|Hin]; [reflexivity|]).
  now apply elem_of_nil in Hin.
Qed.

Lemma vpc_Read_terminal {R : Type} `{EC2 R} (meta : AWSClient) (w w1 : World R ec2_call)
    res state err :
  vpcEndpointServiceStateRefresh (Id (w_d w)) w = (Done (res, state, err), w1) ->
  state ∈ [ServiceStateDeleted; ServiceStateDeleting; ServiceStateFailed] ->
  resourceAwsVpcEndpointServiceRead meta w =
    (Done None,
     mkWorld (SetId "" (w_d w)) (w_remote w1)
             (w_log w ++ [Call (DescribeVpcEndpointServiceConfigurations [Id (w_d w)]);
                          PersistId ""])).
Proof.
  intros Hr Hin.
  pose proof (refresh_world (Id (w_d w)) w) as Hw. rewrite Hr in Hw. simpl in Hw.
  pose proof (refresh_shape (Id (w_d w)) w) as Hs. rewrite Hr in Hs. simpl in Hs.
  pose proof (terminalStates_lookup state Hin) as Ht.
  unfold resourceAwsVpcEndpointServiceRead, getD, bind. rewrite Hr.
  assert (Hgo : negb (state =? ServiceStateFailed)%string = true -> err = None).
  { intros Hn. destruct err as [e|]; [|reflexivity]. exfalso.
    apply negb_true_iff, String.eqb_neq in Hn.
    destruct Hs as [[-> _]|[-> _]]; [|contradiction].
    repeat (apply elem_of_cons in Hin as [Hin|Hin]; [discriminate|]).
    now apply elem_of_nil in Hin. }
  rewrite Ht. unfold d_SetId, ret. rewrite Hw. simpl.
  destruct err as [e|]; [|simpl; now rewrite <- app_assoc].
  destruct (negb (state =? ServiceStateFailed)%string).
  - discriminate Hgo. reflexivity.
  - simpl. now rewrite <- app_assoc.
Qed.

Lemma s3_Read_404 {R : Type} `{S3 R} (meta : AWSClient) (w : World R s3_call)
    err r' :
  s3_HeadObject (asString (Get (w_d w) "bucket")) (asString (Get (w_d w) "key"))
                (w_remote w) = (inl err, r') ->
  ErrStatusCodeEquals err 404 = true ->
  resourceAwsS3ObjectCopyRead meta w =
    (Done None,
     mkWorld (SetId "" (w_d w)) r'
             (w_log w ++ [Call (HeadObject (asString (Get (w_d w) "bucket"))
                                           (asString (Get (w_d w) "key")));
                          PersistId ""])).
Proof.
  intros Hh H404.
  unfold resourceAwsS3ObjectCopyRead, getD, bind, s3conn_HeadObject, conn. simpl.
  rewrite Hh, H404. unfold d_SetId, ret. simpl. now rewrite <- app_assoc.
Qed.

(** C7. Read takes a resource that is gone for stale local state: it
    sets the id to the empty string and returns no error,
    (1) for the VPC endpoint service, when the refresh reports the
    state deleted, deleting or failed (also with the error of the
    failed state), and so (2) when the lookup fails with the not-found
    code;
    (3) for the S3 object copy, when the head request fails with HTTP
    status 404. *)
Theorem C7_read_clears_stale_state :
  (forall {R : Type} `{EC2 R} (meta : AWSClient) (w w1 : World R ec2_call) res state err,
      vpcEndpointServiceStateRefresh (Id (w_d w)) w = (Done (res, state, err), w1) ->
      state ∈ [ServiceStateDeleted; ServiceStateDeleting; ServiceStateFailed] ->
      let out := resourceAwsVpcEndpointServiceRead meta w in
      out.1 = Done None /\ Id (w_d out.2) = "" /\
      w_log out.2 = w_log w ++ [Call (DescribeVpcEndpointServiceConfigurations [Id (w_d w)]);
                                PersistId ""]) /\
  (forall {R : Type} `{EC2 R} (meta : AWSClient) (w : World R ec2_call) e r',
      ec2_DescribeConfigurations [Id (w_d w)] (w_remote w) = (inl e, r') ->
      isAWSErr e "InvalidVpcEndpointServiceId.NotFound" "" = true ->
      let out := resourceAwsVpcEndpointServiceRead meta w in
      out.1 = Done None /\ Id (w_d out.2) = "") /\
  (forall {R : Type} `{S3 R} (meta : AWSClient) (w : World R s3_call) e r',
      s3_HeadObject (asString (Get (w_d w) "bucket")) (asString (Get (w_d w) "key"))
                    (w_remote w) = (inl e, r') ->
      ErrStatusCodeEquals e 404 = true ->
      let out := resourceAwsS3ObjectCopyRead meta w in
      out.1 = Done None /\ Id (w_d out.2) = "" /\
      w_log out.2 = w_log w ++ [Call (HeadObject (asString (Get (w_d w) "bucket"))
                                                 (asString (Get (w_d w) "key")));
                                PersistId ""]).
Proof.
  refine (conj _ (conj _ _)).
  - intros R HR meta w w1 res state err Hr Hin. cbv zeta.
    rewrite (vpc_Read_terminal meta w w1 res state err Hr Hin). auto.
  - intros R HR meta w e r' Hd Hnf. cbv zeta.
    rewrite (vpc_Read_terminal meta w _ _ _ _ (refresh_notfound _ w e r' Hd Hnf)); [auto|].
    set_solver.
  - intros R HR meta w e r' Hh H404. cbv zeta.
    rewrite (s3_Read_404 meta w e r' Hh H404). auto.
Qed.

(** The endpoint service is seen deleting, and the object store
    answers the head request with status 404. *)
Lemma C7_read_witness :
  (let out := resourceAwsVpcEndpointServiceRead demoMeta
                (demoWorld demoChange [inr [inState "Deleting"]]) in
   out.1 = Done None /\ Id (w_d out.2) = "" /\
   w_log out.2 = [Call (DescribeVpcEndpointServiceConfigurations ["vpce-svc-1"]);
                  PersistId ""]) /\
  (let out := resourceAwsS3ObjectCopyRead demoMeta (demoS3World demoObject) in
   out.1 = Done None /\ Id (w_d out.2) = "" /\
   w_log out.2 = [Call (HeadObject "b" "//logs///2021/a.txt"); PersistId ""]).
Proof.
  split.
  - eapply (proj1 C7_read_clears_stale_state).
    + reflexivity.
    + set_solver.
  - eapply (proj2 (proj2 C7_read_clears_stale_state)); reflexivity.
Defined.

(** ** Delete of the VPC endpoint service *)

Section DeleteFacts.
Context {R : Type} `{EC2 R}.
Variable attempts : nat.

Local Abbreviation W := (World R ec2_call).

Lemma Delete_steps (w : W) :
  resourceAwsVpcEndpointServiceDelete attempts w = spec_Delete attempts w.
Proof.
  unfold resourceAwsVpcEndpointServiceDelete, spec_Delete, awaitDeletion, afterCall,
    conn_DeleteVpcEndpointServiceConfigurations, conn, orReturn, getD, bind, ret. simpl.
  destruct (ec2_Delete [Id (w_d w)] (w_remote w)) as [[e|] r1]; simpl.
  - destruct (isAWSErr e _ _); simpl; [|reflexivity].
    destruct (waitForVpcEndpointServiceDeletion _ _ _) as [[[e'|]|p] w2]; reflexivity.
  - destruct (waitForVpcEndpointServiceDeletion _ _ _) as [[[e'|]|p] w2]; reflexivity.
Qed.

(** Waiting for the deletion succeeds only on a refresh that reported
    the label [Deleted]. *)
Lemma waitForDeletion_success id (w1 w' : W) :
  waitForVpcEndpointServiceDeletion attempts id w1 = (Done None, w') ->
  exists w0 res,
    vpcEndpointServiceStateRefresh id w0 = (Done (res, ServiceStateDeleted, None), w').
Proof.
  unfold waitForVpcEndpointServiceDeletion, WaitForState, bind.
  destruct (pollLoop _ _ _ _) as [[[e|res]|p] w2] eqn:Hp; try discriminate.
  intros Heq. inversion Heq; subst.
  apply pollLoop_success in Hp as (w0 & l & Hr & Hl). simpl in Hr, Hl.
  apply list_elem_of_singleton in Hl as ->. eauto.
Qed.

(** C6. (1) Delete is the delete call followed by the wait for the
    deletion, where a not-found error of the call counts as success
    and any other error of the call is returned at once.
    (2) So an error other than not-found aborts the operation after
    that one call, and is propagated.
    (3) Delete returns without error only from a refresh of the
    poller that reported the state [Deleted]. *)
Theorem C6_delete_is_idempotent_and_confirmed :
  (forall w : W, resourceAwsVpcEndpointServiceDelete attempts w = spec_Delete attempts w) /\
  (forall (w : W) e r1,
      ec2_Delete [Id (w_d w)] (w_remote w) = (Some e, r1) ->
      isAWSErr e "InvalidVpcEndpointServiceId.NotFound" "" = false ->
      resourceAwsVpcEndpointServiceDelete attempts w =
        (Done (Some (fmt_Errorf "Error deleting VPC Endpoint Service: %s" [] e)),
         mkWorld (w_d w) r1
                 (w_log w ++ [Call (DeleteVpcEndpointServiceConfigurations [Id (w_d w)])]))) /\
  (forall w w' : W,
      resourceAwsVpcEndpointServiceDelete attempts w = (Done None, w') ->
      exists w0 res,
        vpcEndpointServiceStateRefresh (Id (w_d w)) w0 =
          (Done (res, ServiceStateDeleted, None), w') /\
        last (w_log w') =
          Some (Call (DescribeVpcEndpointServiceConfigurations [Id (w_d w)]))).
Proof.
  refine (conj Delete_steps (conj _ _)).
  - intros w e r1 Hd Hnf. rewrite Delete_steps. unfold spec_Delete. now rewrite Hd, Hnf.
  - intros w w' Hdel. rewrite Delete_steps in Hdel. unfold spec_Delete in Hdel.
    assert (Hw : forall w1, awaitDeletion attempts (Id (w_d w)) w1 = (Done None, w') ->
                 exists w0 res,
                   vpcEndpointServiceStateRefresh (Id (w_d w)) w0 =
                     (Done (res, ServiceStateDeleted, None), w') /\
                   last (w_log w') =
                     Some (Call (DescribeVpcEndpointServiceConfigurations [Id (w_d w)]))).
    { intros w1 Ha. unfold awaitDeletion in Ha.
      destruct (waitForVpcEndpointServiceDeletion _ _ _) as [[[e'|]|p] w2] eqn:Hwait;
        try discriminate.
      inversion Ha; subst.
      apply waitForDeletion_success in Hwait as (w0 & res & Hr).
      exists w0, res. split; [exact Hr|].
      pose proof (refresh_world (Id (w_d w)) w0) as Hlog. rewrite Hr in Hlog. simpl in Hlog.
      rewrite Hlog. simpl. apply last_snoc. }
    destruct (ec2_Delete [Id (w_d w)] (w_remote w)) as [[e|] r1].
    + destruct (isAWSErr e _ _); [eauto | discriminate].
    + eauto.
Qed.
End DeleteFacts.

(** The delete call fails with the not-found code, and so does the
    first lookup of the poller. *)
Lemma C6_delete_witness :
  exists w0 res,
    vpcEndpointServiceStateRefresh "vpce-svc-1" w0 =
      (Done (res, ServiceStateDeleted, None),
       mkWorld demoChange
         (mkEc2Script (on_Create (demoScript [])) [] (inr []) None None (Some notFound) None)
         [Call (DeleteVpcEndpointServiceConfigurations ["vpce-svc-1"]);
          Call (DescribeVpcEndpointServiceConfigurations ["vpce-svc-1"])]) /\
    last [Call (DeleteVpcEndpointServiceConfigurations ["vpce-svc-1"]);
          Call (DescribeVpcEndpointServiceConfigurations ["vpce-svc-1"])] =
      Some (Call (DescribeVpcEndpointServiceConfigurations ["vpce-svc-1"])).
Proof.
  apply (proj2 (proj2 (C6_delete_is_idempotent_and_confirmed 5))
           (mkWorld demoChange
              (mkEc2Script (on_Create (demoScript [])) [] (inr []) None None (Some notFound) None)
              [])).
  reflexivity.
Defined.

(** ** Update of the S3 object copy *)

Section ObjectCopyFacts.
Context {R : Type} `{S3 R} `{S3Helpers}.

Local Abbreviation W := (World R s3_call).

Lemma anySet_true (d : ResourceData) (keys : list string) :
  anySet d keys = true <-> exists key, key ∈ keys /\ is_Some (GetOk d key).
Proof.
  induction keys as [|k keys IH]; simpl.
  - split; [discriminate|]. intros (key & Hin & _). now apply elem_of_nil in Hin.
  - destruct (GetOk d k) as [v|] eqn:Ek.
    + split; [|reflexivity]. intros _. exists k. split; [left|]. rewrite Ek. eauto.
    + rewrite IH. split.
      * intros (key & Hin & Hs). exists key. split; [now right | exact Hs].
      * intros (key & Hin & Hs). apply elem_of_cons in Hin as [->|Hin].
        -- rewrite Ek in Hs. destruct Hs as [? Hs]. discriminate.
        -- eauto.
Qed.

Lemma anySet_false (d : ResourceData) (keys : list string) :
  anySet d keys = false <-> forall key, key ∈ keys -> GetOk d key = None.
Proof.
  rewrite <- not_true_iff_false, anySet_true. split.
  - intros Hn key Hin. destruct (GetOk d key) eqn:Ek; [|reflexivity].
    exfalso. apply Hn. exists key. rewrite Ek. eauto.
  - intros Hall (key & Hin & Hs). rewrite (Hall key Hin) in Hs. destruct Hs as [? Hs].
    discriminate.
Qed.

Lemma emits_BucketObjectRead (P : event s3_call -> Prop) :
  P (Call resourceAwsS3BucketObjectRead) ->
  emits (R := R) P call_resourceAwsS3BucketObjectRead.
Proof.
  intros HP w. exists [Call resourceAwsS3BucketObjectRead].
  unfold call_resourceAwsS3BucketObjectRead.
  destruct (s3_BucketObjectRead (w_d w) (w_remote w)) as [[err d'] r']. simpl. auto.
Qed.

(** The copy begins with the CopyObject call, on the request built
    from the resource data. *)
Lemma DoCopy_first_call (w : W) input :
  copyObjectInput (w_d w) = Done input ->
  exists evs,
    w_log (resourceAwsS3ObjectCopyDoCopy w).2 = w_log w ++ Call (CopyObject input) :: evs.
Proof.
  intros Hin. unfold resourceAwsS3ObjectCopyDoCopy.
  unfold getD at 1. unfold bind at 1. rewrite Hin.
  unfold conn_CopyObject, conn. unfold bind at 1.
  destruct (s3_CopyObject input (w_remote w)) as [[err|output] r1]; simpl.
  - exists []. reflexivity.
  - match goal with
    | |- context [bind ?m ?k ?w1] =>
        assert (He : emits (R := R) (fun _ => True) (bind m k))
    end.
    { repeat (apply emits_bind; [apply emits_d_Set|intros _]).
      apply emits_bind.
      - destruct (cp_CopyObjectResult output); [|apply emits_ret].
        apply emits_bind; [apply emits_d_Set|intros _]. apply emits_d_Set.
      - intros _. repeat (apply emits_bind; [apply emits_d_Set|intros _]).
        apply emits_bind;
          [destruct (cp_RequestCharged output); [apply emits_ret | apply emits_d_Set]
          |intros _].
        repeat (apply emits_bind; [apply emits_d_Set|intros _]).
        apply emits_bind; [apply emits_getD|intros d'].
        apply emits_bind; [apply emits_d_SetId; exact Logic.I|intros _].
        apply emits_BucketObjectRead. exact Logic.I. }
    match goal with
    | |- context [bind ?m ?k ?w1] => destruct (He w1) as (evs & Hl & _)
    end.
    exists evs. rewrite Hl. simpl. now rewrite <- app_assoc.
Qed.

(** C9. (1) When none of the four copy_if_* attributes is set and
    none of the listed arguments changed, Update returns without
    error, makes no call and leaves the resource data as it is.
    (2) When one of the copy_if_* attributes is set, Update is the
    copy operation, whether or not any argument changed; its first
    call is CopyObject on the request built from the resource data. *)
Theorem C9_update_copies_only_when_needed :
  (forall w : W,
      (forall key, key ∈ copyIfKeys -> GetOk (w_d w) key = None) ->
      HasChanges (w_d w) args = false ->
      resourceAwsS3ObjectCopyUpdate w = (Done None, w)) /\
  (forall (w : W) key,
      key ∈ copyIfKeys ->
      is_Some (GetOk (w_d w) key) ->
      resourceAwsS3ObjectCopyUpdate w = resourceAwsS3ObjectCopyDoCopy w /\
      forall input,
        copyObjectInput (w_d w) = Done input ->
        exists evs,
          w_log (resourceAwsS3ObjectCopyUpdate w).2 = w_log w ++ Call (CopyObject input) :: evs).
Proof.
  split.
  - intros w Hnone Hsame. apply anySet_false in Hnone.
    unfold resourceAwsS3ObjectCopyUpdate, getD, bind. now rewrite Hnone, Hsame.
  - intros w key Hin Hset.
    assert (Hany : anySet (w_d w) copyIfKeys = true) by (apply anySet_true; eauto).
    assert (Heq : resourceAwsS3ObjectCopyUpdate w = resourceAwsS3ObjectCopyDoCopy w).
    { unfold resourceAwsS3ObjectCopyUpdate, getD, bind. now rewrite Hany. }
    split; [exact Heq|]. intros input Hinput. rewrite Heq. now apply DoCopy_first_call.
Qed.
End ObjectCopyFacts.

(** Nothing set and nothing changed: no call.  With [copy_if_match]
    set and nothing changed: the copy. *)
Lemma C9_update_witness :
  resourceAwsS3ObjectCopyUpdate (demoS3World demoObject) = (Done None, demoS3World demoObject) /\
  resourceAwsS3ObjectCopyUpdate (demoS3World demoObjectIfMatch) =
    resourceAwsS3ObjectCopyDoCopy (demoS3World demoObjectIfMatch).
Proof.
  split.
  - apply (proj1 C9_update_copies_only_when_needed).
    + intros key Hin. repeat (apply elem_of_cons in Hin as [->|Hin]; [reflexivity|]).
      now apply elem_of_nil in Hin.
    + reflexivity.
  - eapply (proj1 (proj2 C9_update_copies_only_when_needed _ "copy_if_match" _ _)).
    Unshelve.
    + set_solver.
    + eexists. reflexivity.
Defined.

(** ** The key of the delete operation *)

Lemma append_cons (c : ascii) (s t : string) : String c s +:+ t = String c (s +:+ t).
Proof. reflexivity. Qed.

Lemma append_nil_l (t : string) : "" +:+ t = t.
Proof. reflexivity. Qed.

Lemma append_nil_r (s : string) : s +:+ "" = s.
Proof. induction s as [|c s IH]; [reflexivity | now rewrite append_cons, IH]. Qed.

Lemma append_assoc (s t u : string) : (s +:+ t) +:+ u = s +:+ (t +:+ u).
Proof. induction s as [|c s IH]; [reflexivity | now rewrite !append_cons, IH]. Qed.

Lemma Join_cons2 (a b : string) (l : list string) (sep : string) :
  strings_Join (a :: b :: l) sep = a +:+ sep +:+ strings_Join (b :: l) sep.
Proof. reflexivity. Qed.

Lemma splitSlash_cons (s : string) : exists h t, splitSlash s = h :: t.
Proof.
  destruct s as [|c rest]; simpl; [eauto|].
  destruct (Ascii.eqb c slash); [eauto|]. destruct (splitSlash rest); eauto.
Qed.

(** Splitting at the slashes and joining with slashes gives the key
    back, and no piece has a slash. *)
Lemma splitSlash_Join (s : string) : strings_Join (splitSlash s) "/" = s.
Proof.
  induction s as [|c rest IH]; [reflexivity|].
  destruct (splitSlash_cons rest) as (h & t & E).
  cbn [splitSlash]. rewrite E in *.
  destruct (Ascii.eqb c slash) eqn:Ec.
  - apply Ascii.eqb_eq in Ec. subst c.
    rewrite Join_cons2, IH. reflexivity.
  - destruct t as [|h' t].
    + cbn [strings_Join] in *. now rewrite IH.
    + rewrite Join_cons2 in *. now rewrite append_cons, IH.
Qed.

Lemma splitSlash_pieces (s : string) :
  Forall (fun piece => strings_Contains piece "/" = false) (splitSlash s).
Proof.
  induction s as [|c rest IH]; [repeat constructor|].
  destruct (splitSlash_cons rest) as (h & t & E).
  cbn [splitSlash]. rewrite E in *.
  inversion IH as [|? ? Hh Ht]; subst.
  destruct (Ascii.eqb c slash) eqn:Ec; [constructor; [reflexivity|exact IH]|].
  constructor; [|exact Ht].
  change (strings_Contains (String c h) "/")
    with (strings_HasPrefix (String c h) "/" || strings_Contains h "/").
  change (strings_HasPrefix (String c h) "/")
    with (if Ascii.eqb slash c then strings_HasPrefix h "" else false).
  now rewrite Ascii.eqb_sym, Ec, Hh.
Qed.

Lemma joinPieces_empty_head (t : list string) : t <> [] -> joinPieces ("" :: t) = joinPieces t.
Proof.
  intros Ht. unfold joinPieces. simpl. destruct t as [|h t]; [contradiction|]. reflexivity.
Qed.

Lemma filter_nonEmpty_nil (t : list string) :
  List.filter nonEmpty t = [] -> t <> [] -> last t = Some "".
Proof.
  induction t as [|h t IH]; [contradiction|]. simpl. intros Hf _.
  destruct (nonEmpty h) eqn:Eh; [discriminate|].
  apply negb_false_iff, String.eqb_eq in Eh. subst h.
  destruct t as [|h' t]; [reflexivity|]. rewrite last_cons_cons. apply IH; [exact Hf|discriminate].
Qed.

(** What follows a first piece that is not empty: nothing, or a slash
    and the rest in its normal form. *)
Lemma joinPieces_cons (h : string) (t : list string) :
  h <> "" ->
  joinPieces (h :: t) = h +:+ match t with [] => "" | _ => "/" +:+ joinPieces t end.
Proof.
  intros Hh. assert (Eh : nonEmpty h = true) by (now apply negb_true_iff, String.eqb_neq).
  unfold joinPieces. simpl. rewrite Eh.
  destruct t as [|h' t].
  - simpl. destruct h; [contradiction|]. reflexivity.
  - rewrite last_cons_cons.
    destruct (List.filter nonEmpty (h' :: t)) as [|s ss] eqn:Ef.
    + rewrite (filter_nonEmpty_nil (h' :: t) Ef) by discriminate. simpl.
      now rewrite append_nil_r.
    + change (strings_Join (h :: s :: ss) "/") with (h +:+ "/" +:+ strings_Join (s :: ss) "/").
      rewrite !append_assoc. reflexivity.
Qed.

Lemma TrimLeft_slash (c : ascii) (rest : string) :
  strings_TrimLeft (String c rest) "/" =
    if Ascii.eqb c slash then strings_TrimLeft rest "/" else String c rest.
Proof. simpl. unfold inCutset. simpl. now rewrite orb_false_r. Qed.

Lemma replace_cons (inRun : bool) (c : ascii) (rest : string) :
  slashRuns_ReplaceAllString inRun (String c rest) "/" =
    if Ascii.eqb c slash then
      if inRun then slashRuns_ReplaceAllString true rest "/"
      else String slash (slashRuns_ReplaceAllString true rest "/")
    else String c (slashRuns_ReplaceAllString false rest "/").
Proof. reflexivity. Qed.

(** Replacing from inside a run drops the leading slashes. *)
Lemma replace_inRun (s : string) :
  slashRuns_ReplaceAllString true s "/" = deleteKey s.
Proof.
  unfold deleteKey. induction s as [|c rest IH]; [reflexivity|].
  rewrite TrimLeft_slash, replace_cons. destruct (Ascii.eqb c slash) eqn:Ec; [exact IH|].
  now rewrite replace_cons, Ec.
Qed.

Lemma deleteKey_collapsed_both (s : string) :
  slashRuns_ReplaceAllString true s "/" = joinPieces (splitSlash s) /\
  slashRuns_ReplaceAllString false s "/" =
    match splitSlash s with
    | h :: t => h +:+ match t with [] => "" | _ => "/" +:+ joinPieces t end
    | [] => ""
    end.
Proof.
  induction s as [|c rest [IHt IHf]]; [split; reflexivity|]. simpl.
  destruct (splitSlash_cons rest) as (h & t & E).
  destruct (Ascii.eqb c slash) eqn:Ec.
  - rewrite IHt. rewrite joinPieces_empty_head by (rewrite E; discriminate).
    split; [reflexivity|]. rewrite E. reflexivity.
  - rewrite IHf, E. split; [|reflexivity].
    rewrite joinPieces_cons by discriminate. reflexivity.
Qed.

Lemma HasPrefix_slash (c : ascii) (s : string) :
  strings_HasPrefix (String c s) "/" = Ascii.eqb slash c.
Proof.
  change (strings_HasPrefix (String c s) "/")
    with (if Ascii.eqb slash c then strings_HasPrefix s "" else false).
  destruct (Ascii.eqb slash c); [destruct s; reflexivity | reflexivity].
Qed.

Lemma Contains_cons (c : ascii) (s sub : string) :
  strings_Contains (String c s) sub = strings_HasPrefix (String c s) sub || strings_Contains s sub.
Proof. reflexivity. Qed.

Lemma HasPrefix_slash_slash (s : string) :
  strings_HasPrefix (String slash s) "//" = strings_HasPrefix s "/".
Proof. reflexivity. Qed.

Lemma HasPrefix_other (c : ascii) (s sub : string) :
  Ascii.eqb c slash = false -> strings_HasPrefix (String c s) (String slash sub) = false.
Proof.
  intros Ec.
  change (strings_HasPrefix (String c s) (String slash sub))
    with (if Ascii.eqb slash c then strings_HasPrefix s sub else false).
  now rewrite Ascii.eqb_sym, Ec.
Qed.

Lemma deleteKey_no_leading_slash (s : string) : strings_HasPrefix (deleteKey s) "/" = false.
Proof.
  rewrite <- replace_inRun. induction s as [|c rest IH]; [reflexivity|].
  rewrite replace_cons. destruct (Ascii.eqb c slash) eqn:Ec; [exact IH|].
  now apply HasPrefix_other.
Qed.

Lemma replace_no_double_slash (s : string) (inRun : bool) :
  strings_Contains (slashRuns_ReplaceAllString inRun s "/") "//" = false.
Proof.
  revert inRun. induction s as [|c rest IH]; intros inRun; [reflexivity|].
  rewrite replace_cons. destruct (Ascii.eqb c slash) eqn:Ec.
  - destruct inRun; [apply IH|].
    rewrite Contains_cons, HasPrefix_slash_slash, IH.
    pose proof (deleteKey_no_leading_slash rest) as Hl. rewrite <- replace_inRun in Hl.
    now rewrite Hl.
  - rewrite Contains_cons, IH. now rewrite (HasPrefix_other c _ "/" Ec).
Qed.

Section KeyFacts.
Context {R : Type} `{S3 R} `{S3Helpers}.

Local Abbreviation W := (World R s3_call).

Lemma setString_other d key field (input : CopyObjectInput) k :
  field <> k -> setString d key field input !! k = input !! k.
Proof. intros Hne. unfold setString. destruct (GetOk d key); [now apply lookup_insert_ne|reflexivity]. Qed.

Lemma setDate_other d key field (input : CopyObjectInput) k :
  field <> k -> setDate d key field input !! k = input !! k.
Proof.
  intros Hne. unfold setDate. destruct (GetOk d key); [|reflexivity].
  destruct (expandS3ObjectDate _); [now apply lookup_insert_ne | now apply lookup_delete_ne].
Qed.

Lemma setOpt_other field v (input : CopyObjectInput) k :
  field <> k -> setOpt field v input !! k = input !! k.
Proof.
  intros Hne. unfold setOpt. destruct v; [now apply lookup_insert_ne | now apply lookup_delete_ne].
Qed.

Ltac other_fields :=
  repeat first
    [ rewrite setString_other by discriminate
    | rewrite setDate_other by discriminate
    | rewrite setOpt_other by discriminate
    | rewrite lookup_insert_ne by discriminate
    | rewrite lookup_delete_ne by discriminate ].

(** The request of the copy carries the bucket and the key of the
    resource data as they are. *)
Lemma copyObjectInput_Key (d : ResourceData) (input : CopyObjectInput) :
  copyObjectInput d = Done input ->
  input !! "Key" = Some (VString (asString (Get d "key"))) /\
  input !! "Bucket" = Some (VString (asString (Get d "bucket"))).
Proof.
  unfold copyObjectInput.
  match goal with
  | |- match ?g with Done _ => _ | Panic _ => _ end = _ -> _ => destruct g as [input1|r] eqn:Eg
  end; [|discriminate].
  intros Heq. inversion Heq; subst input. clear Heq.
  assert (H1 : input1 !! "Key" = Some (VString (asString (Get d "key"))) /\
               input1 !! "Bucket" = Some (VString (asString (Get d "bucket")))).
  { destruct (GetOk d "grant") as [v|].
    - destruct (0 <? length (asGrants (Some v)))%nat.
      + destruct (expandS3Grants (asGrants (Some v))) as [[g|]|]; try discriminate.
        inversion Eg; subst input1. other_fields.
        split; [apply lookup_insert_eq | other_fields; apply lookup_insert_eq].
      + inversion Eg; subst input1. other_fields.
        split; [apply lookup_insert_eq | other_fields; apply lookup_insert_eq].
    - inversion Eg; subst input1. other_fields.
      split; [apply lookup_insert_eq | other_fields; apply lookup_insert_eq]. }
  destruct H1 as [HK HB].
  destruct (0 <? size (asMap (Get d "tags")))%nat; destruct (GetOk d "metadata");
    destruct (GetOk d "kms_key_id"); other_fields; auto.
Qed.

Lemma emits_SetKMS (P : event s3_call -> Prop) k :
  P (Call (resourceAwsS3BucketObjectSetKMS k)) ->
  emits (R := R) P (call_resourceAwsS3BucketObjectSetKMS k).
Proof.
  intros HP w. exists [Call (resourceAwsS3BucketObjectSetKMS k)].
  unfold call_resourceAwsS3BucketObjectSetKMS.
  destruct (s3_BucketObjectSetKMS k (w_d w) (w_remote w)) as [[err d'] r']. simpl. auto.
Qed.

(** Read begins with the head request for the bucket and the key of
    the resource data. *)
Lemma s3_Read_first_call (meta : AWSClient) (w : W) :
  exists evs,
    w_log (resourceAwsS3ObjectCopyRead meta w).2 =
      w_log w ++ Call (HeadObject (asString (Get (w_d w) "bucket"))
                                  (asString (Get (w_d w) "key"))) :: evs.
Proof.
  unfold resourceAwsS3ObjectCopyRead. unfold getD at 1. unfold bind at 1.
  unfold s3conn_HeadObject, conn. unfold bind at 1.
  destruct (s3_HeadObject _ _ (w_remote w)) as [[err|resp] r1]; simpl.
  - destruct (ErrStatusCodeEquals err 404); simpl.
    + exists [PersistId ""]. now rewrite <- app_assoc.
    + exists []. reflexivity.
  - match goal with
    | |- context [bind ?m ?k ?w1] =>
        assert (He : emits (R := R) (fun _ => True) (bind m k))
    end.
    { repeat (apply emits_bind; [apply emits_d_Set|intros _]).
      apply emits_orReturn.
      - apply emits_bind; [apply emits_SetKMS; exact Logic.I|].
        intros [e|]; apply emits_ret.
      - repeat (apply emits_bind; [apply emits_d_Set|intros _]).
        apply emits_bind; [destruct (ho_StorageClass resp); [apply emits_d_Set|apply emits_ret]|].
        intros _. apply emits_bind; [apply emits_conn; exact Logic.I|].
        intros [e|tags]; [apply emits_ret|].
        apply emits_bind; [apply emits_d_Set|intros _]. apply emits_ret. }
    match goal with
    | |- context [bind ?m ?k ?w1] => destruct (He w1) as (evs & Hl & _)
    end.
    exists evs. rewrite Hl. simpl. now rewrite <- app_assoc.
Qed.

(** Delete makes one call, on the normal form of the key. *)
Lemma s3_Delete_call (w : W) :
  let d := w_d w in
  let bucket := asString (Get d "bucket") in
  let key := asString (Get d "key") in
  w_log (resourceAwsS3ObjectCopyDelete w).2 =
    w_log w ++
    [Call (match GetOk d "version_id" with
           | Some _ =>
               deleteAllS3ObjectVersions bucket (deleteKey key)
                                         (asBool (Get d "force_destroy")) false
           | None => deleteS3ObjectVersion bucket (deleteKey key) "" false
           end)].
Proof.
  cbv zeta. unfold resourceAwsS3ObjectCopyDelete, getD, bind, deleteKey.
  destruct (GetOk (w_d w) "version_id").
  - unfold call_deleteAllS3ObjectVersions, conn.
    destruct (s3_deleteAllS3ObjectVersions _ _ _ _ _) as [[e|] r1]; reflexivity.
  - unfold call_deleteS3ObjectVersion, conn.
    destruct (s3_deleteS3ObjectVersion _ _ _ _ _) as [[e|] r1]; reflexivity.
Qed.
End KeyFacts.

(** C10. (1) The key Delete passes on is the key without its leading
    slashes and with every run of slashes collapsed to one: the
    pieces between the slashes that are not empty, joined by single
    slashes (and a last slash when the key ends in one); it does not
    begin with a slash and has no two slashes in a row.
    (2) The one call of Delete is on the bucket and this key.
    (3) Read begins with the head request on the key as it is, and
    (4) the request of the copy carries the key as it is. *)
Theorem C10_delete_normalises_key :
  (forall key : string,
      deleteKey key = collapsedKey key /\
      strings_Join (splitSlash key) "/" = key /\
      Forall (fun piece => strings_Contains piece "/" = false) (splitSlash key) /\
      strings_HasPrefix (deleteKey key) "/" = false /\
      strings_Contains (deleteKey key) "//" = false) /\
  (forall {R : Type} `{S3 R} (w : World R s3_call),
      let d := w_d w in
      let bucket := asString (Get d "bucket") in
      let key := asString (Get d "key") in
      w_log (resourceAwsS3ObjectCopyDelete w).2 =
        w_log w ++
        [Call (match GetOk d "version_id" with
               | Some _ =>
                   deleteAllS3ObjectVersions bucket (deleteKey key)
                                             (asBool (Get d "force_destroy")) false
               | None => deleteS3ObjectVersion bucket (deleteKey key) "" false
               end)]) /\
  (forall {R : Type} `{S3 R} (meta : AWSClient) (w : World R s3_call),
      exists evs,
        w_log (resourceAwsS3ObjectCopyRead meta w).2 =
          w_log w ++ Call (HeadObject (asString (Get (w_d w) "bucket"))
                                      (asString (Get (w_d w) "key"))) :: evs) /\
  (forall `{S3Helpers} (d : ResourceData) (input : CopyObjectInput),
      copyObjectInput d = Done input ->
      input !! "Key" = Some (VString (asString (Get d "key")))).
Proof.
  refine (conj _ (conj _ (conj _ _))).
  - intros key. refine (conj _ (conj _ (conj _ (conj _ _)))).
    + rewrite <- replace_inRun. apply deleteKey_collapsed_both.
    + apply splitSlash_Join.
    + apply splitSlash_pieces.
    + apply deleteKey_no_leading_slash.
    + apply replace_no_double_slash.
  - intros R HR w. apply s3_Delete_call.
  - intros R HR meta w. apply s3_Read_first_call.
  - intros HH d input Hin. now apply copyObjectInput_Key.
Qed.

(** The key "//logs///2021/a.txt": Delete is on "logs/2021/a.txt",
    the copy on the key as it is. *)
Lemma C10_key_witness :
  deleteKey "//logs///2021/a.txt" = "logs/2021/a.txt" /\
  exists input,
    copyObjectInput demoObject = Done input /\
    input !! "Key" = Some (VString "//logs///2021/a.txt").
Proof.
  split; [reflexivity|].
  destruct (copyObjectInput demoObject) as [input|r] eqn:E; [|discriminate E].
  exists input. split; [reflexivity|].
  apply (proj2 (proj2 (proj2 C10_delete_normalises_key)) demoHelpers demoObject input E).
Defined.

(** ** What Read of the VPC endpoint service does *)

Lemma collectPrincipals_fold (l : list AllowedPrincipal) (acc : list string) :
  fold_left (fun (acc : list string) allowedPrincipal =>
               match ap_Principal allowedPrincipal with
               | Some p => acc ++ [p]
               | None => acc
               end) l acc = acc ++ omap ap_Principal l.
Proof.
  revert acc. induction l as [|a l IH]; intros acc; simpl; [now rewrite app_nil_r|].
  rewrite IH. destruct (ap_Principal a); [now rewrite <- app_assoc | reflexivity].
Qed.

Lemma allowedPrincipals_members (l : list AllowedPrincipal) (p : string) :
  p ∈ flattenVpcEndpointServiceAllowedPrincipals l <->
  exists a, a ∈ l /\ ap_Principal a = Some p.
Proof.
  unfold flattenVpcEndpointServiceAllowedPrincipals.
  rewrite collectPrincipals_fold, app_nil_l, elem_of_list_to_set, list_elem_of_omap.
  reflexivity.
Qed.

Section ReadFacts.
Context {R : Type} `{EC2 R}.
Variable meta : AWSClient.

Local Abbreviation W := (World R ec2_call).

Lemma terminalStates_not_failed (state : string) :
  terminalStates !! state = None -> String.eqb state ServiceStateFailed = false.
Proof.
  intros Hn. destruct (String.eqb state ServiceStateFailed) eqn:E; [|reflexivity].
  apply String.eqb_eq in E. subst. discriminate Hn.
Qed.

(** The refresh on a configuration in a state that is not terminal. *)
Lemma refresh_live (id : string) (w : W) svcCfg rest r1 :
  ec2_DescribeConfigurations [id] (w_remote w) = (inr (svcCfg :: rest), r1) ->
  terminalStates !! aws_StringValue (sc_ServiceState svcCfg) = None ->
  vpcEndpointServiceStateRefresh id w =
    (Done (SnapCfg svcCfg, aws_StringValue (sc_ServiceState svcCfg), None),
     mkWorld (w_d w) r1 (w_log w ++ [Call (DescribeVpcEndpointServiceConfigurations [id])])).
Proof.
  intros Hd Ht.
  unfold vpcEndpointServiceStateRefresh, conn_DescribeVpcEndpointServiceConfigurations,
    conn, bind.
  rewrite Hd. simpl. now rewrite (terminalStates_not_failed _ Ht).
Qed.

(** Read of a service that is there: what it returns and leaves, by
    the service type and the answer to the permissions call. *)
Lemma Read_live (w : W) svcCfg rest r1 :
  let id := Id (w_d w) in
  let describe := Call (DescribeVpcEndpointServiceConfigurations [id]) in
  let permissions := Call (DescribeVpcEndpointServicePermissions id) in
  ec2_DescribeConfigurations [id] (w_remote w) = (inr (svcCfg :: rest), r1) ->
  terminalStates !! aws_StringValue (sc_ServiceState svcCfg) = None ->
  resourceAwsVpcEndpointServiceRead meta w =
    match sc_ServiceType svcCfg with
    | [] =>
        (Panic "index out of range [0] with length 0",
         mkWorld (SetAll (configurationAttributes meta id svcCfg) (w_d w)) r1
                 (w_log w ++ [describe]))
    | serviceType0 :: _ =>
        let d1 := SetAll (configurationAttributes meta id svcCfg ++
                          stateAttributes meta svcCfg serviceType0) (w_d w) in
        match ec2_DescribePermissions id r1 with
        | (inl e, r2) =>
            (Done (Some (fmt_Errorf "error reading VPC Endpoint Service permissions (%s): %s"
                                    [id] e)),
             mkWorld d1 r2 (w_log w ++ [describe; permissions]))
        | (inr allowedPrincipals, r2) =>
            (Done None,
             mkWorld (SetAll (permissionAttributes svcCfg allowedPrincipals) d1) r2
                     (w_log w ++ [describe; permissions]))
        end
    end.
Proof.
  cbv zeta. intros Hd Ht.
  unfold resourceAwsVpcEndpointServiceRead. unfold getD at 1. unfold bind at 1.
  unfold bind at 1. rewrite (refresh_live _ w svcCfg rest r1 Hd Ht). rewrite Ht.
  unfold bind, d_Set, ret, panic, conn_DescribeVpcEndpointServicePermissions, conn.
  cbn [w_d w_remote w_log].
  destruct (sc_ServiceType svcCfg) as [|serviceType0 ts]; [reflexivity|].
  cbn [w_d w_remote w_log].
  destruct (ec2_DescribePermissions (Id (w_d w)) r1) as [[e|aps] r2];
    cbn [w_d w_remote w_log]; rewrite <- app_assoc; reflexivity.
Qed.

Lemma Get_Set_eq (d : ResourceData) (key : string) (v : Value) :
  Get (Set_ key v d) key = nz (Some v).
Proof. unfold Get, Set_. cbn [rd_written]. now rewrite lookup_insert_eq. Qed.

Lemma Get_Set_ne (d : ResourceData) (key key' : string) (v : Value) :
  key <> key' -> Get (Set_ key v d) key' = Get d key'.
Proof.
  intros Hne. unfold Get, Set_. cbn [rd_written rd_planned].
  now rewrite lookup_insert_ne.
Qed.

Lemma SetAll_id (attrs : list (string * Value)) (d : ResourceData) :
  Id (SetAll attrs d) = Id d.
Proof.
  revert d. induction attrs as [|kv attrs IH]; intros d; [reflexivity|].
  unfold SetAll in *. cbn [fold_left]. now rewrite IH.
Qed.

Lemma SetAll_state (attrs : list (string * Value)) (d : ResourceData) :
  rd_state (SetAll attrs d) = rd_state d.
Proof.
  revert d. induction attrs as [|kv attrs IH]; intros d; [reflexivity|].
  unfold SetAll in *. cbn [fold_left]. now rewrite IH.
Qed.

Lemma SetAll_planned (attrs : list (string * Value)) (d : ResourceData) :
  rd_planned (SetAll attrs d) = rd_planned d.
Proof.
  revert d. induction attrs as [|kv attrs IH]; intros d; [reflexivity|].
  unfold SetAll in *. cbn [fold_left]. now rewrite IH.
Qed.

Lemma asString_nz (s : string) : asString (nz (Some (VString s))) = s.
Proof. simpl. destruct (String.eqb_spec s ""); simpl; congruence. Qed.

Lemma asBool_nz (b : bool) : asBool (nz (Some (VBool b))) = b.
Proof. now destruct b. Qed.

Lemma asMap_nz (m : gmap string string) : asMap (nz (Some (VMap m))) = m.
Proof. simpl. case_bool_decide; simpl; congruence. Qed.

Lemma refresh_answer (id : string) (w : W) svcCfg rest r1 :
  ec2_DescribeConfigurations [id] (w_remote w) = (inr (svcCfg :: rest), r1) ->
  exists res err,
    vpcEndpointServiceStateRefresh id w =
      (Done (res, aws_StringValue (sc_ServiceState svcCfg), err),
       mkWorld (w_d w) r1 (w_log w ++ [Call (DescribeVpcEndpointServiceConfigurations [id])])).
Proof.
  intros Hd.
  unfold vpcEndpointServiceStateRefresh, conn_DescribeVpcEndpointServiceConfigurations,
    conn, bind.
  rewrite Hd. simpl. destruct (String.eqb _ _); eauto.
Qed.

Lemma terminalStates_inv (state : string) (b : bool) :
  terminalStates !! state = Some b ->
  state ∈ [ServiceStateDeleted; ServiceStateDeleting; ServiceStateFailed].
Proof.
  unfold terminalStates. intros Hl.
  destruct (decide (state = ServiceStateFailed)) as [->|N1]; [set_solver|].
  rewrite lookup_insert_ne in Hl by congruence.
  destruct (decide (state = ServiceStateDeleting)) as [->|N2]; [set_solver|].
  rewrite lookup_insert_ne in Hl by congruence.
  destruct (decide (state = ServiceStateDeleted)) as [->|N3]; [set_solver|].
  rewrite lookup_insert_ne in Hl by congruence. discriminate Hl.
Qed.

Lemma Read_lookup_error (w : W) err r1 :
  ec2_DescribeConfigurations [Id (w_d w)] (w_remote w) = (inl err, r1) ->
  isAWSErr err "InvalidVpcEndpointServiceId.NotFound" "" = false ->
  resourceAwsVpcEndpointServiceRead meta w =
    (Done (Some (fmt_Errorf "error reading VPC Endpoint Service (%s): %s" [Id (w_d w)] err)),
     mkWorld (w_d w) r1
             (w_log w ++ [Call (DescribeVpcEndpointServiceConfigurations [Id (w_d w)])])).
Proof.
  intros Hd Hnf.
  unfold resourceAwsVpcEndpointServiceRead, vpcEndpointServiceStateRefresh,
    conn_DescribeVpcEndpointServiceConfigurations, conn, getD, bind.
  rewrite Hd. simpl. rewrite Hnf. reflexivity.
Qed.

(** Read on an answer without any configuration: the index panics. *)
Lemma Read_no_configuration (w : W) r1 :
  ec2_DescribeConfigurations [Id (w_d w)] (w_remote w) = (inr [], r1) ->
  resourceAwsVpcEndpointServiceRead meta w =
    (Panic "index out of range [0] with length 0",
     mkWorld (w_d w) r1
             (w_log w ++ [Call (DescribeVpcEndpointServiceConfigurations [Id (w_d w)])])).
Proof.
  intros Hd.
  unfold resourceAwsVpcEndpointServiceRead, vpcEndpointServiceStateRefresh,
    conn_DescribeVpcEndpointServiceConfigurations, conn, getD, bind.
  rewrite Hd. reflexivity.
Qed.

(** Read of a service that is there, by what can be observed
    afterwards. *)
Lemma Read_observed (w : W) svcCfg rest r1 serviceType0 types aps r2 :
  let id := Id (w_d w) in
  ec2_DescribeConfigurations [id] (w_remote w) = (inr (svcCfg :: rest), r1) ->
  terminalStates !! aws_StringValue (sc_ServiceState svcCfg) = None ->
  sc_ServiceType svcCfg = serviceType0 :: types ->
  ec2_DescribePermissions id r1 = (inr aps, r2) ->
  let out := resourceAwsVpcEndpointServiceRead meta w in
  out.1 = Done None /\
  w_remote out.2 = r2 /\
  w_log out.2 = w_log w ++ [Call (DescribeVpcEndpointServiceConfigurations [id]);
                            Call (DescribeVpcEndpointServicePermissions id)] /\
  Id (w_d out.2) = id /\
  rd_state (w_d out.2) = rd_state (w_d w) /\
  rd_planned (w_d out.2) = rd_planned (w_d w) /\
  populatedFrom meta id svcCfg serviceType0 aps (w_d out.2).
Proof.
  cbv zeta. intros Hd Ht Hty Hp.
  rewrite (Read_live w svcCfg rest r1 Hd Ht). rewrite Hty. cbv zeta. rewrite Hp.
  cbn [fst snd w_d w_remote w_log]. unfold populatedFrom.
  rewrite !SetAll_id, !SetAll_state, !SetAll_planned.
  unfold SetAll, configurationAttributes, stateAttributes, permissionAttributes.
  cbn [fold_left app fst snd].
  repeat first [rewrite Get_Set_eq | rewrite Get_Set_ne by discriminate].
  rewrite !asString_nz, !asBool_nz, !asSet_nz_VSet, asMap_nz.
  unfold flattenStringSet.
  repeat split; try reflexivity; apply allowedPrincipals_members.
Qed.

(** A Read that returns nil has cleared the id after its Describe
    call, or has read the permissions. *)
Lemma Read_nil (w : W) :
  let id := Id (w_d w) in
  let describe := Call (DescribeVpcEndpointServiceConfigurations [id]) in
  let out := resourceAwsVpcEndpointServiceRead meta w in
  out.1 = Done None ->
  (w_log out.2 = w_log w ++ [describe; PersistId ""] /\ Id (w_d out.2) = "") \/
  (w_log out.2 = w_log w ++ [describe; Call (DescribeVpcEndpointServicePermissions id)] /\
   Id (w_d out.2) = id).
Proof.
  cbv zeta.
  destruct (ec2_DescribeConfigurations [Id (w_d w)] (w_remote w))
    as [[err|[|svcCfg rest]] r1] eqn:Hd.
  - destruct (isAWSErr err "InvalidVpcEndpointServiceId.NotFound" "") eqn:Hnf.
    + rewrite (vpc_Read_terminal meta w _ _ _ _ (refresh_notfound _ w err r1 Hd Hnf));
        [intros _; left; split; reflexivity | set_solver].
    + rewrite (Read_lookup_error w err r1 Hd Hnf). discriminate.
  - rewrite (Read_no_configuration w r1 Hd). discriminate.
  - destruct (terminalStates !! aws_StringValue (sc_ServiceState svcCfg)) as [b|] eqn:Ht.
    + destruct (refresh_answer _ w svcCfg rest r1 Hd) as (res & e & Hr).
      rewrite (vpc_Read_terminal meta w _ _ _ _ Hr (terminalStates_inv _ _ Ht)).
      intros _; left; split; reflexivity.
    + rewrite (Read_live w svcCfg rest r1 Hd Ht).
      destruct (sc_ServiceType svcCfg) as [|t0 ts]; [discriminate|].
      cbv zeta.
      destruct (ec2_DescribePermissions (Id (w_d w)) r1) as [[e|aps] r2]; [discriminate|].
      intros _. right. cbn [fst snd w_d w_log]. rewrite !SetAll_id. split; reflexivity.
Qed.
End ReadFacts.

(** ** Create and update of the VPC endpoint service *)

Section ReconcilerFacts.
Context {R : Type} `{EC2 R}.
Variable meta : AWSClient.
Variable attempts : nat.

Local Abbreviation W := (World R ec2_call).

Lemma waitUntilAvailable_steps (w1 : W) :
  vpcEndpointServiceWaitUntilAvailable attempts w1 = awaitAvailable attempts (Id (w_d w1)) w1.
Proof.
  unfold vpcEndpointServiceWaitUntilAvailable, awaitAvailable, WaitForState, availableConf,
    getD, bind, ret.
  destruct (pollLoop _ _ _ _) as [[[e|res]|p] w2]; reflexivity.
Qed.

(** Waiting for availability keeps the resource data and adds
    Describe calls for the service to the log, and nothing else. *)
Lemma awaitAvailable_polled (id : string) (w1 : W) :
  polled id w1 (awaitAvailable attempts id w1).2.
Proof.
  unfold awaitAvailable.
  match goal with
  | |- context [pollLoop ?c ?a ?l ?w] =>
      pose proof (pollLoop_polled c id a l w eq_refl) as Hp;
      destruct (pollLoop c a l w) as [[[e|res]|p] w2]
  end; exact Hp.
Qed.

(** Read is one refresh, and then events of the tail of reading. *)
Lemma Read_log (w : W) :
  exists evs,
    w_log (resourceAwsVpcEndpointServiceRead meta w).2 =
      w_log w ++ Call (DescribeVpcEndpointServiceConfigurations [Id (w_d w)]) :: evs /\
    Forall (fun e => isReadTail e = true) evs.
Proof.
  unfold resourceAwsVpcEndpointServiceRead. unfold getD at 1. unfold bind at 1.
  unfold bind at 1.
  pose proof (refresh_world (Id (w_d w)) w) as Hw.
  destruct (vpcEndpointServiceStateRefresh (Id (w_d w)) w) as [[[[svcCfgRaw state] err]|p] w1].
  2:{ simpl in *. rewrite Hw. exists []. simpl. auto. }
  simpl in Hw.
  match goal with
  | |- context [w_log (?m w1).2] =>
      assert (He : emits (R := R) (fun e => isReadTail e = true) m)
  end.
  { destruct err as [e|]; [destruct (negb _); [apply emits_ret|]|];
      (destruct (terminalStates !! state); [repeat emits_step|];
       apply emits_bind; [apply emits_d_Set|]; intros _;
       destruct svcCfgRaw as [| |svcCfg]; [apply emits_panic|apply emits_panic|];
       do 8 (apply emits_bind; [apply emits_d_Set|intros _]);
       destruct (sc_ServiceType svcCfg); [apply emits_panic|];
       do 3 (apply emits_bind; [apply emits_d_Set|intros _]);
       apply emits_bind; [apply emits_conn; reflexivity|];
       intros [e0|aps]; repeat emits_step). }
  destruct (He w1) as (evs & Hl & Hall). exists evs. split; [|exact Hall].
  rewrite Hl, Hw. simpl. now rewrite <- app_assoc.
Qed.

Lemma GetOk_VSet_size (d : ResourceData) (key : string) (v : gset string) :
  GetOk d key = Some (VSet v) -> (0 <? size v)%nat = true.
Proof.
  unfold GetOk, Get.
  assert (Hnz : forall o, nz o = Some (VSet v) -> v <> ∅).
  { intros [x|]; simpl; [|discriminate]. destruct (isZero x) eqn:Ez; [discriminate|].
    intros Heq. inversion Heq; subst. simpl in Ez. now apply bool_decide_eq_false in Ez. }
  intros Hg. apply Nat.ltb_lt.
  assert (Hne : v <> ∅).
  { destruct (rd_written d !! key) as [x|];
      [apply (Hnz (Some x)) | apply (Hnz (rd_planned d !! key))]; exact Hg. }
  destruct (decide (size v = 0)%nat) as [Hz|Hz]; [|lia].
  apply size_empty_inv in Hz. exfalso. apply Hne. now apply leibniz_equiv.
Qed.

Lemma Create_steps (w : W) :
  resourceAwsVpcEndpointServiceCreate meta attempts w = spec_Create meta attempts w.
Proof.
  unfold resourceAwsVpcEndpointServiceCreate, spec_Create, createInput, addAllPrincipals,
    afterCall.
  unfold getD at 1. unfold bind at 1.
  unfold conn_CreateVpcEndpointServiceConfiguration, conn. unfold bind at 1.
  destruct (ec2_Create _ (w_remote w)) as [[err|resp] r1]; [reflexivity|].
  destruct (co_ServiceConfiguration resp) as [sc|]; [|reflexivity].
  unfold bind at 1. unfold d_SetId at 1. unfold orReturn at 1. unfold bind at 1.
  rewrite waitUntilAvailable_steps. cbn [w_d w_remote w_log Id SetId rd_id].
  rewrite <- app_assoc. cbn [app].
  match goal with
  | |- context [awaitAvailable attempts ?id ?w1] =>
      pose proof (awaitAvailable_polled id w1) as [Hd _];
      destruct (awaitAvailable attempts id w1) as [[[e|]|p] w2]
  end; try reflexivity.
  cbn [snd w_d] in Hd.
  unfold getD at 1. unfold bind at 1. rewrite Hd.
  change (GetOk (SetId ?i (w_d w)) "allowed_principals") with (GetOk (w_d w) "allowed_principals").
  unfold orReturn at 1. unfold bind at 1.
  destruct (GetOk (w_d w) "allowed_principals") as [[b|s|principals|m|l|l]|] eqn:Eg;
    try reflexivity.
  rewrite (GetOk_VSet_size _ _ _ Eg).
  unfold conn_ModifyVpcEndpointServicePermissions, conn, bind, ret. cbn [Id SetId rd_id].
  destruct (ec2_ModifyPermissions _ (w_remote w2)) as [[e|] r3]; cbn [w_d];
    rewrite <- ?Hd; reflexivity.
Qed.

Lemma Update_steps (w : W) :
  resourceAwsVpcEndpointServiceUpdate meta attempts w = spec_Update meta attempts w.
Proof.
  unfold resourceAwsVpcEndpointServiceUpdate, spec_Update, configurationStep, permissionsStep,
    tagsStep, modifyCfgReq, modifyPermReq, configurationKeys, afterCall.
  unfold getD at 1. unfold bind at 1. unfold orReturn at 1. unfold bind at 1.
  destruct (setVpcEndpointServiceUpdateLists (w_d w) "gateway_load_balancer_arns" None None)
    as [addGw removeGw].
  destruct (setVpcEndpointServiceUpdateLists (w_d w) "network_load_balancer_arns" None None)
    as [addNw removeNw].
  destruct (setVpcEndpointServiceUpdateLists (w_d w) "allowed_principals" None None)
    as [add remove].
  cbn [fst snd].
  assert (Hperm : forall (w2 : W) (X : outcome (option error) * W),
    X = (Done None, w2) ->
    orReturn
      (if HasChange (w_d w) "allowed_principals"
       then
         err <- conn_ModifyVpcEndpointServicePermissions
                  {| mp_ServiceId := Some (Id (w_d w));
                     mp_AddAllowedPrincipals := add;
                     mp_RemoveAllowedPrincipals := remove |} ;;
         match err with
         | Some e =>
             ret (Some (fmt_Errorf "Error modifying VPC Endpoint Service permissions: %s" [] e))
         | None => ret None
         end
       else ret None)
      (orReturn
         (if HasChange (w_d w) "tags"
          then
            let '(o, n) := GetChange (w_d w) "tags" in
            err <- keyvaluetags_Ec2UpdateTags (Id (w_d w)) (asMap o) (asMap n) ;;
            match err with
            | Some e =>
                ret (Some (fmt_Errorf "error updating EC2 VPC Endpoint Service (%s) tags: %s"
                                      [Id (w_d w)] e))
            | None => ret None
            end
          else ret None)
         (resourceAwsVpcEndpointServiceRead meta)) w2 =
    match
      (if HasChange (w_d w) "allowed_principals"
       then
         match ec2_ModifyPermissions
                 {| mp_ServiceId := Some (Id (w_d w));
                    mp_AddAllowedPrincipals := add;
                    mp_RemoveAllowedPrincipals := remove |} (w_remote w2) with
         | (Some e, r3) =>
             (Done (Some (fmt_Errorf "Error modifying VPC Endpoint Service permissions: %s" [] e)),
              mkWorld (w_d w2) r3
                (w_log w2 ++
                 [Call (ModifyVpcEndpointServicePermissions
                          {| mp_ServiceId := Some (Id (w_d w));
                             mp_AddAllowedPrincipals := add;
                             mp_RemoveAllowedPrincipals := remove |})]))
         | (None, r3) =>
             (Done None,
              mkWorld (w_d w2) r3
                (w_log w2 ++
                 [Call (ModifyVpcEndpointServicePermissions
                          {| mp_ServiceId := Some (Id (w_d w));
                             mp_AddAllowedPrincipals := add;
                             mp_RemoveAllowedPrincipals := remove |})]))
         end
       else (Done None, w2))
    with
    | (Done None, w3) =>
        match
          (if HasChange (w_d w) "tags"
           then
             match ec2_UpdateTags (Id (w_d w)) (asMap (GetChange (w_d w) "tags").1)
                     (asMap (GetChange (w_d w) "tags").2) (w_remote w3) with
             | (Some e, r4) =>
                 (Done (Some (fmt_Errorf "error updating EC2 VPC Endpoint Service (%s) tags: %s"
                                         [Id (w_d w)] e)),
                  mkWorld (w_d w3) r4
                    (w_log w3 ++
                     [Call (Ec2UpdateTags (Id (w_d w)) (asMap (GetChange (w_d w) "tags").1)
                                          (asMap (GetChange (w_d w) "tags").2))]))
             | (None, r4) =>
                 (Done None,
                  mkWorld (w_d w3) r4
                    (w_log w3 ++
                     [Call (Ec2UpdateTags (Id (w_d w)) (asMap (GetChange (w_d w) "tags").1)
                                          (asMap (GetChange (w_d w) "tags").2))]))
             end
           else (Done None, w3))
        with
        | (Done None, w4) => resourceAwsVpcEndpointServiceRead meta w4
        | failed => failed
        end
    | failed => failed
    end).
  { intros w2 X _. unfold orReturn at 1. unfold bind at 1.
    destruct (HasChange (w_d w) "allowed_principals").
    - unfold conn_ModifyVpcEndpointServicePermissions, conn. unfold bind at 1.
      destruct (ec2_ModifyPermissions _ (w_remote w2)) as [[e|] r3]; [reflexivity|].
      cbn [ret]. unfold orReturn, bind.
      destruct (HasChange (w_d w) "tags"); [|reflexivity].
      destruct (GetChange (w_d w) "tags") as [o n]. cbn [fst snd].
      unfold keyvaluetags_Ec2UpdateTags, conn. cbn [w_remote].
      destruct (ec2_UpdateTags _ _ _ r3) as [[e|] r4]; reflexivity.
    - cbn [ret]. unfold orReturn, bind.
      destruct (HasChange (w_d w) "tags"); [|reflexivity].
      destruct (GetChange (w_d w) "tags") as [o n]. cbn [fst snd].
      unfold keyvaluetags_Ec2UpdateTags, conn.
      destruct (ec2_UpdateTags _ _ _ (w_remote w2)) as [[e|] r4]; reflexivity. }
  destruct (HasChanges (w_d w) _).
  - unfold conn_ModifyVpcEndpointServiceConfiguration, conn. unfold bind at 1.
    destruct (ec2_ModifyConfiguration _ (w_remote w)) as [[e|] r1]; [reflexivity|].
    rewrite waitUntilAvailable_steps. cbn [w_d].
    destruct (awaitAvailable attempts (Id (w_d w)) _) as [[[e|]|p] w2]; try reflexivity.
    apply (Hperm w2 (Done None, w2) eq_refl).
  - cbn [ret]. apply (Hperm w (Done None, w) eq_refl).
Qed.
Lemma count_replicate (p : event ec2_call -> bool) (e : event ec2_call) (k : nat) :
  count p (replicate k e) = if p e then k else 0%nat.
Proof.
  unfold count. induction k as [|k IH]; simpl; [now destruct (p e)|].
  destruct (p e); simpl; [now rewrite IH | exact IH].
Qed.

Lemma updateLists_unchanged (d : ResourceData) (key : string) :
  HasChange d key = false -> setVpcEndpointServiceUpdateLists d key None None = (None, None).
Proof. intros Hc. unfold setVpcEndpointServiceUpdateLists. now rewrite Hc. Qed.

(** A list of the diff is nil or has a member: it is never present
    and empty. *)
Lemma updateLists_not_empty (d : ResourceData) (key : string) :
  (setVpcEndpointServiceUpdateLists d key None None).1 <> Some [] /\
  (setVpcEndpointServiceUpdateLists d key None None).2 <> Some [].
Proof.
  unfold setVpcEndpointServiceUpdateLists.
  destruct (HasChange d key); [|split; discriminate].
  destruct (GetChange d key) as [o n]. cbn [fst snd].
  split.
  - destruct (expandStringSet (asSet n ∖ asSet o)); simpl; discriminate.
  - destruct (expandStringSet (asSet o ∖ asSet n)); simpl; discriminate.
Qed.

(** The members of the two lists, for any attribute. *)
Lemma updateLists_members (d : ResourceData) (key : string) :
  let o := asSet (GetChange d key).1 in
  let n := asSet (GetChange d key).2 in
  members (setVpcEndpointServiceUpdateLists d key None None).1 =
    (if HasChange d key then n ∖ o else ∅) /\
  members (setVpcEndpointServiceUpdateLists d key None None).2 =
    (if HasChange d key then o ∖ n else ∅).
Proof.
  cbv zeta. unfold setVpcEndpointServiceUpdateLists.
  destruct (HasChange d key); [|split; reflexivity].
  destruct (GetChange d key) as [o n]. cbn [fst snd].
  split; apply members_expand; exact None.
Qed.

(** The shape of the log of Update. *)
Lemma Update_shape (w : W) :
  let d := w_d w in
  exists polls perms tail,
    w_log (resourceAwsVpcEndpointServiceUpdate meta attempts w).2 =
      w_log w ++
      (if HasChanges d configurationKeys
       then Call (ModifyVpcEndpointServiceConfiguration (modifyCfgReq d)) :: polls
       else []) ++ perms ++ tail /\
    (exists k, polls = replicate k (Call (DescribeVpcEndpointServiceConfigurations [Id d]))) /\
    (perms = [] \/
     HasChange d "allowed_principals" = true /\
     perms = [Call (ModifyVpcEndpointServicePermissions (modifyPermReq d))]) /\
    ((configurationStep attempts w).1 = Done None ->
     HasChange d "allowed_principals" = true ->
     perms = [Call (ModifyVpcEndpointServicePermissions (modifyPermReq d))]) /\
    (exists reads,
        Forall (fun e => isReadTail e = true) reads /\
        (tail = reads \/
         exists pre, Forall (fun e => isReadTail e = true) pre /\
           tail = pre ++ Call (DescribeVpcEndpointServiceConfigurations [Id d]) :: reads)).
Proof.
  cbv zeta. rewrite Update_steps. unfold spec_Update.
  assert (Hcfg : exists polls,
    (exists k, polls = replicate k (Call (DescribeVpcEndpointServiceConfigurations [Id (w_d w)]))) /\
    w_d (configurationStep attempts w).2 = w_d w /\
    w_log (configurationStep attempts w).2 =
      w_log w ++
      (if HasChanges (w_d w) configurationKeys
       then Call (ModifyVpcEndpointServiceConfiguration (modifyCfgReq (w_d w))) :: polls
       else [])).
  { unfold configurationStep. destruct (HasChanges (w_d w) configurationKeys).
    - destruct (ec2_ModifyConfiguration _ (w_remote w)) as [[e|] r1].
      + exists []. split; [now exists 0%nat|]. split; reflexivity.
      + match goal with
        | |- context [awaitAvailable attempts ?id ?w1] =>
            destruct (awaitAvailable_polled id w1) as [Hd [k Hl]]
        end.
        exists (replicate k (Call (DescribeVpcEndpointServiceConfigurations [Id (w_d w)]))).
        split; [now exists k|]. split; [exact Hd|].
        rewrite Hl. unfold afterCall. simpl. now rewrite <- app_assoc.
    - exists []. split; [now exists 0%nat|]. simpl. now rewrite app_nil_r. }
  destruct Hcfg as (polls & Hpolls & Hd2 & Hl2).
  exists polls.
  destruct (configurationStep attempts w) as [[[e|]|p] w2] eqn:Ecfg; cbn [fst snd] in *.
  1,3: exists [], []; rewrite Hl2, !app_nil_r;
       (split; [reflexivity|]); (split; [exact Hpolls|]); (split; [now left|]);
       (split; [discriminate|]); exists []; split; [constructor | now left].
  assert (Hperm : exists perms,
    (perms = [] /\ HasChange (w_d w) "allowed_principals" = false \/
     HasChange (w_d w) "allowed_principals" = true /\
     perms = [Call (ModifyVpcEndpointServicePermissions (modifyPermReq (w_d w)))]) /\
    w_d (permissionsStep (w_d w) w2).2 = w_d w /\
    w_log (permissionsStep (w_d w) w2).2 = w_log w2 ++ perms).
  { unfold permissionsStep. destruct (HasChange (w_d w) "allowed_principals").
    - exists [Call (ModifyVpcEndpointServicePermissions (modifyPermReq (w_d w)))].
      split; [now right|].
      destruct (ec2_ModifyPermissions _ (w_remote w2)) as [[e|] r3]; split; auto.
    - exists []. split; [now left|]. simpl. now rewrite app_nil_r. }
  destruct Hperm as (perms & Hperms & Hd3 & Hl3).
  exists perms.
  assert (Hperms' : perms = [] \/
     HasChange (w_d w) "allowed_principals" = true /\
     perms = [Call (ModifyVpcEndpointServicePermissions (modifyPermReq (w_d w)))]).
  { destruct Hperms as [[-> _]|Hp]; [now left | now right]. }
  assert (Hexact : Done (A := option error) None = Done None ->
     HasChange (w_d w) "allowed_principals" = true ->
     perms = [Call (ModifyVpcEndpointServicePermissions (modifyPermReq (w_d w)))]).
  { intros _ Hc. destruct Hperms as [[_ Hn]|[_ Hp]]; [congruence | exact Hp]. }
  destruct (permissionsStep (w_d w) w2) as [[[e|]|p] w3] eqn:Eperm; cbn [fst snd] in *.
  1,3: exists []; rewrite Hl3, Hl2, !app_nil_r, <- !app_assoc;
       (split; [reflexivity|]); (split; [exact Hpolls|]); (split; [exact Hperms'|]);
       (split; [exact Hexact|]); exists []; split; [constructor | now left].
  assert (Htags : exists pre,
    Forall (fun e => isReadTail e = true) pre /\
    w_d (tagsStep (w_d w) w3).2 = w_d w /\
    w_log (tagsStep (w_d w) w3).2 = w_log w3 ++ pre).
  { unfold tagsStep. destruct (HasChange (w_d w) "tags").
    - eexists [Call (Ec2UpdateTags _ _ _)]. split; [repeat constructor|].
      destruct (ec2_UpdateTags _ _ _ (w_remote w3)) as [[e|] r4]; split; auto.
    - exists []. split; [constructor|]. simpl. now rewrite app_nil_r. }
  destruct Htags as (pre & Hpre & Hd4 & Hl4).
  destruct (tagsStep (w_d w) w3) as [[[e|]|p] w4] eqn:Etags; cbn [fst snd] in *.
  1,3: exists pre; rewrite Hl4, Hl3, Hl2, <- !app_assoc;
       (split; [reflexivity|]); (split; [exact Hpolls|]); (split; [exact Hperms'|]);
       (split; [exact Hexact|]); exists pre; split; [exact Hpre | now left].
  destruct (Read_log w4) as (reads & Hlr & Hreads). rewrite Hd4 in Hlr.
  exists (pre ++ Call (DescribeVpcEndpointServiceConfigurations [Id (w_d w)]) :: reads).
  rewrite Hlr, Hl4, Hl3, Hl2, <- !app_assoc.
  split; [reflexivity|]. split; [exact Hpolls|]. split; [exact Hperms'|].
  split; [exact Hexact|]. exists reads. split; [exact Hreads|]. right. exists pre. auto.
Qed.
Lemma readTail_counts (p : event ec2_call -> bool) (l : list (event ec2_call)) :
  (forall e, isReadTail e = true -> p e = false) ->
  Forall (fun e => isReadTail e = true) l -> count p l = 0%nat.
Proof. intros Hp Hall. now apply (count_none p isReadTail). Qed.

Lemma count_cons (p : event ec2_call -> bool) e l :
  count p (e :: l) = ((if p e then 1 else 0) + count p l)%nat.
Proof. unfold count. simpl. now destruct (p e). Qed.

Lemma readTail_not_modifyCfg e : isReadTail e = true -> isModifyConfiguration e = false.
Proof. destruct e as [[]|]; simpl; congruence. Qed.
Lemma readTail_not_modifyPerm e : isReadTail e = true -> isModifyPermissions e = false.
Proof. destruct e as [[]|]; simpl; congruence. Qed.
Lemma readTail_not_describe e : isReadTail e = true -> isDescribeConfigurations e = false.
Proof. destruct e as [[]|]; simpl; congruence. Qed.
Lemma readTail_not_delete e : isReadTail e = true -> isDelete e = false.
Proof. destruct e as [[]|]; simpl; congruence. Qed.

(** The counts of the calls of Update. *)
Lemma Update_counts (w : W) :
  let d := w_d w in
  let new := added (w_log w) (w_log (resourceAwsVpcEndpointServiceUpdate meta attempts w).2) in
  count isModifyConfiguration new = (if HasChanges d configurationKeys then 1 else 0)%nat /\
  (count isModifyPermissions new <= 1)%nat /\
  (HasChange d "allowed_principals" = false -> count isModifyPermissions new = 0%nat) /\
  ((configurationStep attempts w).1 = Done None ->
   count isModifyPermissions new = (if HasChange d "allowed_principals" then 1 else 0)%nat) /\
  (HasChanges d configurationKeys = false -> (count isDescribeConfigurations new <= 1)%nat) /\
  Forall noEmptyLists new.
Proof.
  cbv zeta.
  destruct (Update_shape w) as (polls & perms & tail & Hl & [k Hpolls] & Hperms & Hexact & Htail).
  cbv zeta in *. rewrite Hl, added_app. subst polls.
  destruct Htail as (reads & Hreads & Htail).
  assert (Ht : forall p, (forall e, isReadTail e = true -> p e = false) ->
               p (Call (DescribeVpcEndpointServiceConfigurations [Id (w_d w)])) = false ->
               count p tail = 0%nat).
  { intros p Hp Hd. destruct Htail as [->|(pre & Hpre & ->)].
    - now apply readTail_counts.
    - rewrite count_app, count_cons, Hd, (readTail_counts p pre), (readTail_counts p reads);
        auto. }
  assert (Htd : (count isDescribeConfigurations tail <= 1)%nat).
  { destruct Htail as [->|(pre & Hpre & ->)].
    - rewrite readTail_counts; auto using readTail_not_describe.
    - rewrite count_app, count_cons. simpl.
      rewrite (readTail_counts _ pre), (readTail_counts _ reads);
        auto using readTail_not_describe. }
  assert (Hpc : count isModifyConfiguration perms = 0%nat)
    by (destruct Hperms as [->|[_ ->]]; reflexivity).
  assert (Hpd : count isDescribeConfigurations perms = 0%nat)
    by (destruct Hperms as [->|[_ ->]]; reflexivity).
  assert (Hpp : (count isModifyPermissions perms <= 1)%nat)
    by (destruct Hperms as [->|[_ ->]]; unfold count; simpl; lia).
  assert (Hcfgpart : forall p,
    p (Call (DescribeVpcEndpointServiceConfigurations [Id (w_d w)])) = false ->
    count p (if HasChanges (w_d w) configurationKeys
             then Call (ModifyVpcEndpointServiceConfiguration (modifyCfgReq (w_d w)))
                  :: replicate k (Call (DescribeVpcEndpointServiceConfigurations [Id (w_d w)]))
             else []) =
    if HasChanges (w_d w) configurationKeys
    then (if p (Call (ModifyVpcEndpointServiceConfiguration (modifyCfgReq (w_d w))))
          then 1 else 0)%nat
    else 0%nat).
  { intros p Hd. destruct (HasChanges (w_d w) configurationKeys); [|reflexivity].
    rewrite count_cons, count_replicate, Hd. lia. }
  refine (conj _ (conj _ (conj _ (conj _ (conj _ _))))).
  - rewrite !count_app, Hcfgpart, Hpc, Ht by auto using readTail_not_modifyCfg.
    destruct (HasChanges _ _); simpl; lia.
  - rewrite !count_app, Hcfgpart, Ht by auto using readTail_not_modifyPerm.
    destruct (HasChanges _ _); simpl; lia.
  - intros Hn. rewrite !count_app, Hcfgpart, Ht by auto using readTail_not_modifyPerm.
    destruct Hperms as [->|[Hc _]]; [|congruence].
    destruct (HasChanges _ _); reflexivity.
  - intros Hok. rewrite !count_app, Hcfgpart, Ht by auto using readTail_not_modifyPerm.
    destruct (HasChange (w_d w) "allowed_principals") eqn:Hc.
    + rewrite (Hexact Hok eq_refl). destruct (HasChanges _ _); reflexivity.
    + destruct Hperms as [->|[Hc' _]]; [|congruence].
      destruct (HasChanges _ _); reflexivity.
  - intros Hn. rewrite Hn. simpl. rewrite count_app, Hpd. simpl. exact Htd.
  - assert (Hro : forall l, Forall (fun e => isReadTail e = true) l -> Forall noEmptyLists l).
    { intros l Hall. eapply Forall_impl; [exact Hall|].
      intros [[]|]; simpl; try discriminate; auto. }
    apply Forall_app. split; [|apply Forall_app; split].
    + destruct (HasChanges _ _); [|constructor]. constructor.
      * simpl.
        pose proof (updateLists_not_empty (w_d w) "gateway_load_balancer_arns") as [? ?].
        pose proof (updateLists_not_empty (w_d w) "network_load_balancer_arns") as [? ?].
        auto.
      * apply Forall_replicate. exact Logic.I.
    + destruct Hperms as [->|[_ ->]]; [constructor|]. constructor; [|constructor].
      simpl. apply updateLists_not_empty.
    + destruct Htail as [->|(pre & Hpre & ->)]; [now apply Hro|].
      apply Forall_app. split; [now apply Hro|]. constructor; [exact Logic.I | now apply Hro].
Qed.
(** For an attribute that holds sets, no change is an empty diff. *)
Lemma HasChange_sets (d : ResourceData) (key : string) (O D : gset string) :
  rd_state d !! key = Some (VSet O) ->
  rd_planned d !! key = Some (VSet D) ->
  HasChange d key = false <-> D ∖ O = ∅ /\ O ∖ D = ∅.
Proof.
  intros Ho Hn. unfold HasChange, GetChange. rewrite Ho, Hn. split.
  - intros Hc. apply bool_decide_eq_false in Hc.
    assert (Heq : O = D).
    { apply nz_VSet_inj.
      destruct (decide (nz (Some (VSet O)) = nz (Some (VSet D)))); [assumption|contradiction]. }
    subst. split; set_solver.
  - intros [H1 H2]. assert (Heq : O = D).
    { apply set_eq. intros x. destruct (decide (x ∈ O)); destruct (decide (x ∈ D)); set_solver. }
    subst. apply bool_decide_eq_false. auto.
Qed.

(** Read, by what can be observed of it. *)
Lemma Read_fullRead (w4 : W) :
  fullRead meta w4 (resourceAwsVpcEndpointServiceRead meta w4).
Proof.
  unfold fullRead. cbv zeta.
  refine (conj (Read_log w4) (conj (Read_nil meta w4) (conj _ _))).
  - intros err r5 Hd Hnf. exact (Read_lookup_error meta w4 err r5 Hd Hnf).
  - intros svcCfg rest r5 serviceType0 types aps r6 Hd Ht Hty Hp.
    exact (Read_observed meta w4 svcCfg rest r5 serviceType0 types aps r6 Hd Ht Hty Hp).
Qed.

(** Create is its steps, and the Read when none of them failed. *)
Lemma Create_split (w : W) :
  resourceAwsVpcEndpointServiceCreate meta attempts w =
    match createSteps attempts w with
    | (Done None, w4) => resourceAwsVpcEndpointServiceRead meta w4
    | failed => failed
    end.
Proof.
  rewrite Create_steps. unfold spec_Create, createSteps. cbv zeta.
  destruct (ec2_Create _ _) as [[err|resp] r1]; [reflexivity|].
  destruct (co_ServiceConfiguration resp) as [sc|]; [|reflexivity].
  destruct (awaitAvailable _ _ _) as [[[e|]|r] w2]; try reflexivity.
  destruct (GetOk _ _) as [[]|]; try reflexivity.
  destruct (ec2_ModifyPermissions _ _) as [[e|] r3]; reflexivity.
Qed.

(** The steps of Create write the id and nothing else. *)
Lemma createSteps_data (w w4 : W) :
  createSteps attempts w = (Done None, w4) ->
  exists resp r1 sc,
    ec2_Create (createInput (w_d w)) (w_remote w) = (inr resp, r1) /\
    co_ServiceConfiguration resp = Some sc /\
    w_d w4 = SetId (aws_StringValue (sc_ServiceId sc)) (w_d w).
Proof.
  unfold createSteps. cbv zeta.
  destruct (ec2_Create _ _) as [[err|resp] r1] eqn:Hc; [discriminate|].
  destruct (co_ServiceConfiguration resp) as [sc|] eqn:Hsc; [|discriminate].
  match goal with
  | |- context [awaitAvailable _ ?id ?w1] =>
      destruct (awaitAvailable_polled id w1) as [Hd _];
      destruct (awaitAvailable attempts id w1) as [[[e|]|r] w2]; try discriminate
  end.
  cbn [snd w_d] in Hd.
  destruct (GetOk _ _) as [[]|]; try discriminate.
  - destruct (ec2_ModifyPermissions _ _) as [[e|] r3]; [discriminate|].
    intros [= <-]. exists resp, r1, sc. auto.
  - intros [= <-]. exists resp, r1, sc. auto.
Qed.

(** Update is its steps, and the Read when none of them failed. *)
Lemma Update_split (w : W) :
  resourceAwsVpcEndpointServiceUpdate meta attempts w =
    match updateSteps attempts w with
    | (Done None, w4) => resourceAwsVpcEndpointServiceRead meta w4
    | failed => failed
    end.
Proof.
  rewrite Update_steps. unfold spec_Update, updateSteps. cbv zeta.
  destruct (configurationStep _ _) as [[[e|]|r] w2]; try reflexivity.
  destruct (permissionsStep _ _) as [[[e|]|r] w3]; reflexivity.
Qed.

(** The steps of Update write nothing to the resource data. *)
Lemma updateSteps_data (w : W) : w_d (updateSteps attempts w).2 = w_d w.
Proof.
  assert (Hc : w_d (configurationStep attempts w).2 = w_d w).
  { unfold configurationStep. cbv zeta. destruct (HasChanges _ _); [|reflexivity].
    destruct (ec2_ModifyConfiguration _ _) as [[e|] r1]; [reflexivity|].
    match goal with
    | |- context [awaitAvailable _ ?id ?w1] => destruct (awaitAvailable_polled id w1) as [Hd _]
    end.
    exact Hd. }
  assert (Hp : forall d w2, w_d (permissionsStep d w2).2 = w_d w2).
  { intros d w2. unfold permissionsStep. destruct (HasChange _ _); [|reflexivity].
    destruct (ec2_ModifyPermissions _ _) as [[e|] r3]; reflexivity. }
  assert (Ht : forall d w3, w_d (tagsStep d w3).2 = w_d w3).
  { intros d w3. unfold tagsStep. destruct (HasChange _ _); [|reflexivity]. cbv zeta.
    destruct (ec2_UpdateTags _ _ _ _) as [[e|] r4]; reflexivity. }
  unfold updateSteps. cbv zeta.
  destruct (configurationStep attempts w) as [[[e|]|r] w2]; try exact Hc.
  cbn [snd] in Hc.
  pose proof (Hp (w_d w) w2) as Hp2.
  destruct (permissionsStep (w_d w) w2) as [[[e|]|r] w3]; cbn [snd] in Hp2 |- *;
    try (now rewrite Hp2).
  rewrite Ht. now rewrite Hp2.
Qed.

(** C3. (1) Update is the sequence: configuration step, permissions
    step, tags step, full Read.
    (2) It makes one configuration call when one of the four
    configuration attributes changed, and none otherwise.
    (3) The request of that call leaves out every field whose
    attribute did not change, and gives the set-valued ones as the
    members to add (new − old) and to remove (old − new).
    (4) It makes at most one permissions call, none when the allowed
    principals did not change, and exactly one when they changed and
    the configuration step did not fail; (5) its lists are the diff,
    (6) for {P1, P2} -> {P2, P3}: add = [P3], remove = [P1].
    (7) The permissions call is not followed by polling: when no
    configuration attribute changed, the whole Update makes at most
    one Describe call of the configuration, that of the Read.
    (8) When no step failed the operation ends with a full Read: the
    steps leave the resource data as it was, and what Update returns
    and leaves is what a full Read gives in the world after the
    steps: the Describe call, the id cleared when the service is
    gone, and otherwise all attributes populated from the answers of
    the remote system.
    (9) A step that fails ends the operation with its error: what
    the failed steps return and leave is what Update returns and
    leaves, and no Read is made. *)
Theorem C3_update_calls :
  (forall w : W,
      resourceAwsVpcEndpointServiceUpdate meta attempts w = spec_Update meta attempts w) /\
  (forall w : W,
      count isModifyConfiguration
            (added (w_log w) (w_log (resourceAwsVpcEndpointServiceUpdate meta attempts w).2)) =
        (if HasChanges (w_d w) configurationKeys then 1 else 0)%nat) /\
  (forall d : ResourceData,
      let req := modifyCfgReq d in
      let gw := "gateway_load_balancer_arns" in
      let nw := "network_load_balancer_arns" in
      (HasChange d "private_dns_name" = false -> mc_PrivateDnsName req = None) /\
      (HasChange d "acceptance_required" = false -> mc_AcceptanceRequired req = None) /\
      (HasChange d gw = false ->
       mc_AddGatewayLoadBalancerArns req = None /\ mc_RemoveGatewayLoadBalancerArns req = None) /\
      (HasChange d nw = false ->
       mc_AddNetworkLoadBalancerArns req = None /\ mc_RemoveNetworkLoadBalancerArns req = None) /\
      (HasChange d gw = true ->
       members (mc_AddGatewayLoadBalancerArns req) =
         asSet (GetChange d gw).2 ∖ asSet (GetChange d gw).1 /\
       members (mc_RemoveGatewayLoadBalancerArns req) =
         asSet (GetChange d gw).1 ∖ asSet (GetChange d gw).2) /\
      (HasChange d nw = true ->
       members (mc_AddNetworkLoadBalancerArns req) =
         asSet (GetChange d nw).2 ∖ asSet (GetChange d nw).1 /\
       members (mc_RemoveNetworkLoadBalancerArns req) =
         asSet (GetChange d nw).1 ∖ asSet (GetChange d nw).2)) /\
  (forall w : W,
      let new := added (w_log w)
                       (w_log (resourceAwsVpcEndpointServiceUpdate meta attempts w).2) in
      (count isModifyPermissions new <= 1)%nat /\
      (HasChange (w_d w) "allowed_principals" = false -> count isModifyPermissions new = 0%nat) /\
      ((configurationStep attempts w).1 = Done None ->
       HasChange (w_d w) "allowed_principals" = true ->
       count isModifyPermissions new = 1%nat)) /\
  (forall d : ResourceData,
      HasChange d "allowed_principals" = true ->
      let ap := "allowed_principals" in
      members (mp_AddAllowedPrincipals (modifyPermReq d)) =
        asSet (GetChange d ap).2 ∖ asSet (GetChange d ap).1 /\
      members (mp_RemoveAllowedPrincipals (modifyPermReq d)) =
        asSet (GetChange d ap).1 ∖ asSet (GetChange d ap).2) /\
  modifyPermReq demoChange =
    {| mp_ServiceId := Some "vpce-svc-1";
       mp_AddAllowedPrincipals := Some ["P3"];
       mp_RemoveAllowedPrincipals := Some ["P1"] |} /\
  (forall w : W,
      HasChanges (w_d w) configurationKeys = false ->
      (count isDescribeConfigurations
             (added (w_log w) (w_log (resourceAwsVpcEndpointServiceUpdate meta attempts w).2))
       <= 1)%nat) /\
  (forall w w4 : W,
      updateSteps attempts w = (Done None, w4) ->
      w_d w4 = w_d w /\
      fullRead meta w4 (resourceAwsVpcEndpointServiceUpdate meta attempts w)) /\
  (forall (w : W) o w',
      updateSteps attempts w = (o, w') ->
      o <> Done None ->
      resourceAwsVpcEndpointServiceUpdate meta attempts w = (o, w')).
Proof.
  refine (conj Update_steps (conj _ (conj _ (conj _ (conj _ (conj _ (conj _ (conj _ _)))))))).
  - intros w. apply (Update_counts w).
  - intros d. cbv zeta. unfold modifyCfgReq. cbn [mc_PrivateDnsName mc_AcceptanceRequired
      mc_AddGatewayLoadBalancerArns mc_RemoveGatewayLoadBalancerArns
      mc_AddNetworkLoadBalancerArns mc_RemoveNetworkLoadBalancerArns].
    refine (conj _ (conj _ (conj _ (conj _ (conj _ _))))).
    + now intros ->.
    + now intros ->.
    + intros Hc. now rewrite (updateLists_unchanged _ _ Hc).
    + intros Hc. now rewrite (updateLists_unchanged _ _ Hc).
    + intros Hc. pose proof (updateLists_members d "gateway_load_balancer_arns") as Hm.
      cbv zeta in Hm. now rewrite Hc in Hm.
    + intros Hc. pose proof (updateLists_members d "network_load_balancer_arns") as Hm.
      cbv zeta in Hm. now rewrite Hc in Hm.
  - intros w. cbv zeta. destruct (Update_counts w) as (_ & Hle & Hnone & Hone & _).
    refine (conj Hle (conj Hnone _)). intros Hok Hc. cbv zeta in Hone.
    rewrite (Hone Hok), Hc. reflexivity.
  - intros d Hc. cbv zeta. pose proof (updateLists_members d "allowed_principals") as Hm.
    cbv zeta in Hm. now rewrite Hc in Hm.
  - reflexivity.
  - intros w Hn. now apply (Update_counts w).
  - intros w w4 Hs. split.
    + pose proof (updateSteps_data w) as Hd. now rewrite Hs in Hd.
    + rewrite Update_split, Hs. apply Read_fullRead.
  - intros w o w' Hs Ho. rewrite Update_split, Hs.
    destruct o as [[e|]|r]; [reflexivity | congruence | reflexivity].
Qed.

(** C8. (1) A list of the diff is never present and empty: it is
    nil, or it has a member.
    (2) So no modify call of Update carries a list that is present
    and empty.
    (3) When neither a configuration attribute nor the allowed
    principals changed, Update makes no modify call.
    (4) For an attribute that holds sets, no change means that both
    differences are empty. *)
Theorem C8_no_empty_lists_no_empty_calls :
  (forall (d : ResourceData) (key : string),
      (setVpcEndpointServiceUpdateLists d key None None).1 <> Some [] /\
      (setVpcEndpointServiceUpdateLists d key None None).2 <> Some []) /\
  (forall w : W,
      Forall noEmptyLists
             (added (w_log w) (w_log (resourceAwsVpcEndpointServiceUpdate meta attempts w).2))) /\
  (forall w : W,
      let new := added (w_log w)
                       (w_log (resourceAwsVpcEndpointServiceUpdate meta attempts w).2) in
      HasChanges (w_d w) configurationKeys = false ->
      HasChange (w_d w) "allowed_principals" = false ->
      count isModifyConfiguration new = 0%nat /\ count isModifyPermissions new = 0%nat) /\
  (forall (d : ResourceData) (key : string) (O D : gset string),
      rd_state d !! key = Some (VSet O) ->
      rd_planned d !! key = Some (VSet D) ->
      HasChange d key = false <-> D ∖ O = ∅ /\ O ∖ D = ∅).
Proof.
  refine (conj updateLists_not_empty (conj _ (conj _ HasChange_sets))).
  - intros w. apply (Update_counts w).
  - intros w. cbv zeta. intros Hcfg Hperm.
    destruct (Update_counts w) as (Hc & _ & Hnone & _). cbv zeta in *.
    rewrite Hc, Hcfg. split; [reflexivity | now apply Hnone].
Qed.
Lemma keepsId_ret {A} (a : A) : keepsId (R := R) (C := ec2_call) (ret a).
Proof. intros w. reflexivity. Qed.

Lemma keepsId_panic {A} r : keepsId (R := R) (C := ec2_call) (A := A) (panic r).
Proof. intros w. reflexivity. Qed.

Lemma keepsId_d_Set key v : keepsId (R := R) (C := ec2_call) (d_Set key v).
Proof. intros w. reflexivity. Qed.

Lemma keepsId_conn {A} c (answer : R -> A * R) : keepsId (C := ec2_call) (conn c answer).
Proof. intros w. unfold conn. now destruct (answer (w_remote w)). Qed.

Lemma keepsId_bind {A B} (m : M W A) (k : A -> M W B) :
  keepsId m -> (forall a, keepsId (k a)) -> keepsId (bind m k).
Proof.
  intros Hm Hk w. unfold bind. specialize (Hm w).
  destruct (m w) as [[a|r] w1]; simpl in *; [|exact Hm].
  now rewrite (Hk a w1).
Qed.

(** Read returns no error, or leaves the id as it is: it changes the
    id only where it clears it and returns nil. *)
Lemma Read_id (w : W) :
  (resourceAwsVpcEndpointServiceRead meta w).1 = Done None \/
  Id (w_d (resourceAwsVpcEndpointServiceRead meta w).2) = Id (w_d w).
Proof.
  destruct (resourceAwsVpcEndpointServiceRead meta w) as [o w'] eqn:E. cbn [fst snd].
  unfold resourceAwsVpcEndpointServiceRead in E. unfold getD at 1 in E.
  unfold bind at 1 in E. unfold bind at 1 in E.
  pose proof (refresh_world (Id (w_d w)) w) as Hw.
  destruct (vpcEndpointServiceStateRefresh (Id (w_d w)) w) as [[[[svcCfgRaw state] err]|p] w1].
  2:{ right. simpl in Hw. inversion E; subst. reflexivity. }
  simpl in Hw. assert (Hid : Id (w_d w1) = Id (w_d w)) by now rewrite Hw.
  rewrite <- Hid. clear Hw Hid.
  assert (Hkeep : forall m : M W (option error), keepsId m -> m w1 = (o, w') ->
                  Id (w_d w') = Id (w_d w1)).
  { intros m Hk Hm. specialize (Hk w1). now rewrite Hm in Hk. }
  destruct err as [e|]; [destruct (negb _); [right; now inversion E|]|];
    (destruct (terminalStates !! state); [left; now inversion E|]; right;
     refine (Hkeep _ _ E);
     apply keepsId_bind; [apply keepsId_d_Set|]; intros _;
     destruct svcCfgRaw as [| |svcCfg]; [apply keepsId_panic|apply keepsId_panic|];
     do 8 (apply keepsId_bind; [apply keepsId_d_Set|intros _]);
     destruct (sc_ServiceType svcCfg); [apply keepsId_panic|];
     do 3 (apply keepsId_bind; [apply keepsId_d_Set|intros _]);
     apply keepsId_bind; [apply keepsId_conn|];
     intros [e0|aps]; [apply keepsId_ret|];
     do 2 (apply keepsId_bind; [apply keepsId_d_Set|intros _]); apply keepsId_ret).
Qed.

(** The log of Create after a handle came back: the create call, the
    write of the id, polling, at most one permissions call, and
    events of reading. *)
Lemma Create_created (w : W) resp r1 sc :
  ec2_Create (createInput (w_d w)) (w_remote w) = (inr resp, r1) ->
  co_ServiceConfiguration resp = Some sc ->
  let d := w_d w in
  let id := aws_StringValue (sc_ServiceId sc) in
  let out := resourceAwsVpcEndpointServiceCreate meta attempts w in
  exists rest,
    w_log out.2 =
      w_log w ++ Call (CreateVpcEndpointServiceConfiguration (createInput d))
              :: PersistId id :: rest /\
    count isDelete rest = 0%nat /\
    count isModifyConfiguration rest = 0%nat /\
    (count isModifyPermissions rest <= 1)%nat /\
    (out.1 = Done None ->
     count isModifyPermissions rest =
       if bool_decide (asSet (Get d "allowed_principals") = ∅) then 0%nat else 1%nat) /\
    (forall e, out.1 = Done (Some e) -> Id (w_d out.2) = id).
Proof.
  intros Hc Hsc. cbv zeta. rewrite Create_steps. unfold spec_Create, afterCall.
  rewrite Hc, Hsc.
  set (id := aws_StringValue (sc_ServiceId sc)).
  match goal with
  | |- context [awaitAvailable attempts id ?w1] =>
      destruct (awaitAvailable_polled id w1) as [Hd [k Hl]];
      destruct (awaitAvailable attempts id w1) as [o w2] eqn:Ea
  end.
  cbn [fst snd w_d w_log] in Hd, Hl.
  set (polls := replicate k (Call (DescribeVpcEndpointServiceConfigurations [id]))) in *.
  assert (Hpolls : forall p, p (Call (DescribeVpcEndpointServiceConfigurations [id])) = false ->
                   count p polls = 0%nat).
  { intros p Hp. unfold polls. now rewrite count_replicate, Hp. }
  assert (Hlog2 : w_log w2 =
            w_log w ++ Call (CreateVpcEndpointServiceConfiguration (createInput (w_d w)))
                    :: PersistId id :: polls).
  { rewrite Hl, <- app_assoc. reflexivity. }
  assert (Hid2 : Id (w_d w2) = id) by now rewrite Hd.
  (* the sequence ends before the Read *)
  assert (Hstop : forall (o' : outcome (option error)) (wr : W) (mid : list (event ec2_call)),
    o' <> Done None ->
    Id (w_d wr) = id -> w_log wr = w_log w2 ++ mid ->
    count isDelete mid = 0%nat -> count isModifyConfiguration mid = 0%nat ->
    (count isModifyPermissions mid <= 1)%nat ->
    exists rest,
      w_log (o', wr).2 =
        w_log w ++ Call (CreateVpcEndpointServiceConfiguration (createInput (w_d w)))
                :: PersistId id :: rest /\
      count isDelete rest = 0%nat /\
      count isModifyConfiguration rest = 0%nat /\
      (count isModifyPermissions rest <= 1)%nat /\
      ((o', wr).1 = Done None ->
       count isModifyPermissions rest =
         if bool_decide (asSet (Get (w_d w) "allowed_principals") = ∅) then 0%nat else 1%nat) /\
      (forall e, (o', wr).1 = Done (Some e) -> Id (w_d (o', wr).2) = id)).
  { intros o' wr mid Hne Hidr Hlr Hm1 Hm2 Hm3. exists (polls ++ mid). cbn [fst snd].
    rewrite Hlr, Hlog2, <- !app_assoc. cbn [app].
    rewrite !count_app, !Hpolls, Hm1, Hm2 by reflexivity.
    refine (conj eq_refl (conj eq_refl (conj eq_refl (conj _ (conj _ _))))).
    - simpl. exact Hm3.
    - intros Ho. contradiction.
    - intros e _. exact Hidr. }
  (* the sequence ends with the Read *)
  assert (Hfinish : forall (wr : W) (mid : list (event ec2_call)),
    w_d wr = w_d w2 -> w_log wr = w_log w2 ++ mid ->
    count isDelete mid = 0%nat -> count isModifyConfiguration mid = 0%nat ->
    count isModifyPermissions mid =
      (if bool_decide (asSet (Get (w_d w) "allowed_principals") = ∅) then 0%nat else 1%nat) ->
    let out := resourceAwsVpcEndpointServiceRead meta wr in
    exists rest,
      w_log out.2 =
        w_log w ++ Call (CreateVpcEndpointServiceConfiguration (createInput (w_d w)))
                :: PersistId id :: rest /\
      count isDelete rest = 0%nat /\
      count isModifyConfiguration rest = 0%nat /\
      (count isModifyPermissions rest <= 1)%nat /\
      (out.1 = Done None ->
       count isModifyPermissions rest =
         if bool_decide (asSet (Get (w_d w) "allowed_principals") = ∅) then 0%nat else 1%nat) /\
      (forall e, out.1 = Done (Some e) -> Id (w_d out.2) = id)).
  { intros wr mid Hdr Hlr Hm1 Hm2 Hm3. cbv zeta.
    destruct (Read_log wr) as (evs & Hle & Hevs).
    exists (polls ++ mid ++
            Call (DescribeVpcEndpointServiceConfigurations [Id (w_d wr)]) :: evs).
    rewrite Hle, Hlr, Hlog2, <- !app_assoc. cbn [app].
    rewrite !count_app, !count_cons. cbn [isDelete isModifyConfiguration isModifyPermissions].
    rewrite !Hpolls by reflexivity. rewrite Hm1, Hm2, Hm3.
    rewrite !(readTail_counts _ evs)
      by auto using readTail_not_delete, readTail_not_modifyCfg, readTail_not_modifyPerm.
    refine (conj eq_refl (conj eq_refl (conj eq_refl (conj _ (conj _ _))))).
    - destruct (bool_decide _); simpl; lia.
    - intros _. destruct (bool_decide _); simpl; lia.
    - intros e He. destruct (Read_id wr) as [Hnone|Hid]; [congruence|].
      rewrite Hid, Hdr. exact Hid2. }
  destruct o as [[e|]|p].
  - apply (Hstop _ w2 []); try reflexivity; try discriminate;
      try exact Hid2; try (now rewrite app_nil_r); try (unfold count; simpl; lia).
  - destruct (GetOk (w_d w) "allowed_principals") as [[b|s|principals|m|l|l]|] eqn:Eg.
    1,2,4,5,6: apply (Hstop _ w2 []); try reflexivity; try discriminate;
               try exact Hid2; try (now rewrite app_nil_r); try (unfold count; simpl; lia).
    + assert (Hne : bool_decide (asSet (Get (w_d w) "allowed_principals") = ∅) = false).
      { pose proof (GetOk_VSet_size _ _ _ Eg) as Hs. unfold GetOk in Eg. rewrite Eg. simpl.
        apply bool_decide_eq_false. intros ->. rewrite size_empty in Hs. discriminate. }
      destruct (ec2_ModifyPermissions _ (w_remote w2)) as [[e|] r3].
      * apply (Hstop _ _ [Call (ModifyVpcEndpointServicePermissions
                                  (addAllPrincipals id principals))]);
          try reflexivity; try discriminate;
          try exact Hid2; try (unfold count; simpl; lia).
      * apply (Hfinish _ [Call (ModifyVpcEndpointServicePermissions
                                  (addAllPrincipals id principals))]);
          try reflexivity. now rewrite Hne.
    + assert (He : bool_decide (asSet (Get (w_d w) "allowed_principals") = ∅) = true).
      { unfold GetOk in Eg. rewrite Eg. simpl. now apply bool_decide_eq_true. }
      apply (Hfinish w2 []); try reflexivity.
      * now rewrite app_nil_r.
      * now rewrite He.
  - apply (Hstop _ w2 []); try reflexivity; try discriminate;
      try exact Hid2; try (now rewrite app_nil_r); try (unfold count; simpl; lia).
Qed.

(** The calls of Create, in every run. *)
Lemma Create_counts (w : W) :
  let out := resourceAwsVpcEndpointServiceCreate meta attempts w in
  exists rest,
    w_log out.2 =
      w_log w ++ Call (CreateVpcEndpointServiceConfiguration (createInput (w_d w))) :: rest /\
    count isDelete rest = 0%nat /\
    count isModifyConfiguration rest = 0%nat /\
    (count isModifyPermissions rest <= 1)%nat /\
    (out.1 = Done None ->
     count isModifyPermissions rest =
       if bool_decide (asSet (Get (w_d w) "allowed_principals") = ∅) then 0%nat else 1%nat).
Proof.
  cbv zeta.
  destruct (ec2_Create (createInput (w_d w)) (w_remote w)) as [[err|resp] r1] eqn:Hc.
  - rewrite Create_steps. unfold spec_Create. rewrite Hc. exists []. cbn [fst snd].
    repeat split; try reflexivity; [unfold count; simpl; lia | discriminate].
  - destruct (co_ServiceConfiguration resp) as [sc|] eqn:Hsc.
    + destruct (Create_created w resp r1 sc Hc Hsc) as (rest & Hl & H1 & H2 & H3 & H4 & _).
      cbv zeta in *. exists (PersistId (aws_StringValue (sc_ServiceId sc)) :: rest).
      rewrite !count_cons. simpl. auto.
    + rewrite Create_steps. unfold spec_Create. rewrite Hc, Hsc. exists []. cbn [fst snd].
      repeat split; try reflexivity; [unfold count; simpl; lia | discriminate].
Qed.

(** C2. (1) Create is the sequence: the create call; the write of
    the returned handle as the id; the wait for availability with
    Pending = {Pending} and Target = {Available}; one permissions
    call that adds the whole desired set and removes nothing, exactly
    when the desired allowed principals are present and not empty;
    a full Read.  A step that fails ends the sequence with its error.
    (2) The wait keeps the resource data and only makes Describe
    calls for the service.
    (3) In every run the first call is the create call; there is no
    delete call and no configuration call after it, and at most one
    permissions call: exactly one in a run that ends without error
    when the desired set is not empty, none when it is empty.
    (4) When a handle came back, the id is written right after the
    create call, and a run that ends in an error leaves that id in
    place.
    (5) When none of the steps before it failed, the operation ends
    with a full Read: these steps have written the id and nothing
    else, and what Create returns and leaves is what a full Read
    gives in the world after them: the Describe call, the id cleared
    when the service is gone, and otherwise all attributes populated
    from the answers of the remote system.
    (6) A step that fails ends the sequence with its error: what the
    failed steps return and leave is what Create returns and leaves,
    nothing is undone and no Read is made. *)
Theorem C2_create_sequence :
  (forall w : W,
      resourceAwsVpcEndpointServiceCreate meta attempts w = spec_Create meta attempts w) /\
  (forall (id : string) (w1 : W), polled id w1 (awaitAvailable attempts id w1).2) /\
  (forall w : W,
      let out := resourceAwsVpcEndpointServiceCreate meta attempts w in
      exists rest,
        w_log out.2 =
          w_log w ++ Call (CreateVpcEndpointServiceConfiguration (createInput (w_d w))) :: rest /\
        count isDelete rest = 0%nat /\
        count isModifyConfiguration rest = 0%nat /\
        (count isModifyPermissions rest <= 1)%nat /\
        (out.1 = Done None ->
         count isModifyPermissions rest =
           if bool_decide (asSet (Get (w_d w) "allowed_principals") = ∅)
           then 0%nat else 1%nat)) /\
  (forall (w : W) resp r1 sc,
      ec2_Create (createInput (w_d w)) (w_remote w) = (inr resp, r1) ->
      co_ServiceConfiguration resp = Some sc ->
      let id := aws_StringValue (sc_ServiceId sc) in
      let out := resourceAwsVpcEndpointServiceCreate meta attempts w in
      (exists rest,
          w_log out.2 =
            w_log w ++ Call (CreateVpcEndpointServiceConfiguration (createInput (w_d w)))
                    :: PersistId id :: rest) /\
      (forall e, out.1 = Done (Some e) -> Id (w_d out.2) = id)) /\
  (forall w w4 : W,
      createSteps attempts w = (Done None, w4) ->
      (exists resp r1 sc,
          ec2_Create (createInput (w_d w)) (w_remote w) = (inr resp, r1) /\
          co_ServiceConfiguration resp = Some sc /\
          w_d w4 = SetId (aws_StringValue (sc_ServiceId sc)) (w_d w)) /\
      fullRead meta w4 (resourceAwsVpcEndpointServiceCreate meta attempts w)) /\
  (forall (w : W) o w',
      createSteps attempts w = (o, w') ->
      o <> Done None ->
      resourceAwsVpcEndpointServiceCreate meta attempts w = (o, w')).
Proof.
  refine (conj Create_steps (conj awaitAvailable_polled (conj Create_counts
            (conj _ (conj _ _))))).
  - intros w resp r1 sc Hc Hsc. cbv zeta.
    destruct (Create_created w resp r1 sc Hc Hsc) as (rest & Hl & _ & _ & _ & _ & Hid).
    cbv zeta in *. split; [now exists rest | exact Hid].
  - intros w w4 Hs. split; [exact (createSteps_data w w4 Hs)|].
    rewrite Create_split, Hs. apply Read_fullRead.
  - intros w o w' Hs Ho. rewrite Create_split, Hs.
    destruct o as [[e|]|r]; [reflexivity | congruence | reflexivity].
Qed.
End ReconcilerFacts.


(** ** The two scenarios of the specification, run on the scripted
    remote system *)

(** Create with acceptance_required = false and allowed principals
    {P1, P2}: the service is seen available at the first refresh. *)
Example create_scenario :
  let w := demoWorld demoNew [inr [inState "Available"]; inr [inState "Available"]] in
  let out := resourceAwsVpcEndpointServiceCreate demoMeta 5 w in
  out.1 = Done None /\
  w_log out.2 =
    [Call (CreateVpcEndpointServiceConfiguration
             {| cr_AcceptanceRequired := Some false; cr_TagSpecifications := None;
                cr_PrivateDnsName := None; cr_GatewayLoadBalancerArns := None;
                cr_NetworkLoadBalancerArns := None |});
     PersistId "vpce-svc-1";
     Call (DescribeVpcEndpointServiceConfigurations ["vpce-svc-1"]);
     Call (ModifyVpcEndpointServicePermissions
             {| mp_ServiceId := Some "vpce-svc-1";
                mp_AddAllowedPrincipals := Some ["P1"; "P2"];
                mp_RemoveAllowedPrincipals := None |});
     Call (DescribeVpcEndpointServiceConfigurations ["vpce-svc-1"]);
     Call (DescribeVpcEndpointServicePermissions "vpce-svc-1")].
Proof. vm_compute. split; reflexivity. Qed.

(** Update where the allowed principals change from {P1, P2} to
    {P2, P3}. *)
Example update_scenario :
  let w := demoWorld demoChange [inr [inState "Available"]] in
  let out := resourceAwsVpcEndpointServiceUpdate demoMeta 5 w in
  out.1 = Done None /\
  w_log out.2 =
    [Call (ModifyVpcEndpointServicePermissions
             {| mp_ServiceId := Some "vpce-svc-1";
                mp_AddAllowedPrincipals := Some ["P3"];
                mp_RemoveAllowedPrincipals := Some ["P1"] |});
     Call (DescribeVpcEndpointServiceConfigurations ["vpce-svc-1"]);
     Call (DescribeVpcEndpointServicePermissions "vpce-svc-1")].
Proof. vm_compute. split; reflexivity. Qed.

(** A service that stays pending longer than the budget of three
    refreshes: the timeout error, with the last label [Pending]. *)
Example timeout_scenario :
  let w := demoWorld demoChange
             [inr [inState "Pending"]; inr [inState "Pending"]; inr [inState "Pending"];
              inr [inState "Failed"]] in
  (vpcEndpointServiceWaitUntilAvailable 3 w).1 =
    Done (Some (fmt_Errorf "Error waiting for VPC Endpoint Service %s to become available: %s"
                           ["vpce-svc-1"] (TimeoutError "Pending" ["Available"]))).
Proof. reflexivity. Qed.

(** The scenario of the specification: acceptance_required = false
    and the allowed principals {P1, P2}.  The service is available at
    the first refresh, one permissions call adds P1 and P2, and the
    final Read returns nil after its two Describe calls and reads the
    state and the two principals back. *)
Lemma C2_create_witness :
  let out := resourceAwsVpcEndpointServiceCreate demoMeta 5 demoCreateWorld in
  out.1 = Done None /\
  w_log out.2 =
    [Call (CreateVpcEndpointServiceConfiguration
             {| cr_AcceptanceRequired := Some false; cr_TagSpecifications := None;
                cr_PrivateDnsName := None; cr_GatewayLoadBalancerArns := None;
                cr_NetworkLoadBalancerArns := None |});
     PersistId "vpce-svc-1";
     Call (DescribeVpcEndpointServiceConfigurations ["vpce-svc-1"]);
     Call (ModifyVpcEndpointServicePermissions
             {| mp_ServiceId := Some "vpce-svc-1";
                mp_AddAllowedPrincipals := Some ["P1"; "P2"];
                mp_RemoveAllowedPrincipals := None |});
     Call (DescribeVpcEndpointServiceConfigurations ["vpce-svc-1"]);
     Call (DescribeVpcEndpointServicePermissions "vpce-svc-1")] /\
  Id (w_d out.2) = "vpce-svc-1" /\
  asString (Get (w_d out.2) "state") = "Available" /\
  (forall p, p ∈ asSet (Get (w_d out.2) "allowed_principals") <->
             exists a, a ∈ principalsOf ["P1"; "P2"] /\ ap_Principal a = Some p).
Proof.
  cbv zeta.
  assert (Hs : createSteps 5 demoCreateWorld =
               (Done None, (createSteps 5 demoCreateWorld).2))
    by (vm_compute; reflexivity).
  pose proof (proj1 (proj2 (proj2 (proj2 (proj2 (C2_create_sequence demoMeta 5)))))
                demoCreateWorld _ Hs) as [_ Hr].
  destruct Hr as (_ & _ & _ & Hlive).
  destruct (Hlive (inState "Available") [] _ (Some "Interface") []
                  (principalsOf ["P1"; "P2"]) _ eq_refl eq_refl eq_refl eq_refl)
    as (H1 & _ & H3 & H4 & _ & _ & Hpop).
  destruct Hpop as (_ & _ & _ & _ & _ & _ & _ & _ & _ & _ & Hst & _ & Hap & _).
  refine (conj H1 (conj (eq_trans H3 _) (conj (eq_trans H4 _) (conj Hst Hap))));
    vm_compute; reflexivity.
Defined.

(** The scenario of the specification: the allowed principals change
    from {P1, P2} to {P2, P3}.  One permissions call adds P3 and
    removes P1, no wait follows, and the final Read returns nil after
    its two Describe calls and reads the state and the principals P2
    and P3 back. *)
Lemma C3_update_witness :
  let out := resourceAwsVpcEndpointServiceUpdate demoMeta 5 demoUpdateWorld in
  count isModifyPermissions (added (w_log demoUpdateWorld) (w_log out.2)) = 1%nat /\
  out.1 = Done None /\
  w_log out.2 =
    [Call (ModifyVpcEndpointServicePermissions
             {| mp_ServiceId := Some "vpce-svc-1";
                mp_AddAllowedPrincipals := Some ["P3"];
                mp_RemoveAllowedPrincipals := Some ["P1"] |});
     Call (DescribeVpcEndpointServiceConfigurations ["vpce-svc-1"]);
     Call (DescribeVpcEndpointServicePermissions "vpce-svc-1")] /\
  asString (Get (w_d out.2) "state") = "Available" /\
  (forall p, p ∈ asSet (Get (w_d out.2) "allowed_principals") <->
             exists a, a ∈ principalsOf ["P2"; "P3"] /\ ap_Principal a = Some p).
Proof.
  cbv zeta.
  pose proof (proj2 (proj2 (proj1 (proj2 (proj2 (proj2 (C3_update_calls demoMeta 5))))
                                  demoUpdateWorld))
                eq_refl eq_refl) as Hone.
  assert (Hs : updateSteps 5 demoUpdateWorld =
               (Done None, (updateSteps 5 demoUpdateWorld).2))
    by (vm_compute; reflexivity).
  pose proof (proj1 (proj2 (proj2 (proj2 (proj2 (proj2 (proj2 (proj2
                (C3_update_calls demoMeta 5))))))))
                demoUpdateWorld _ Hs) as [_ Hr].
  destruct Hr as (_ & _ & _ & Hlive).
  destruct (Hlive (inState "Available") [] _ (Some "Interface") []
                  (principalsOf ["P2"; "P3"]) _ eq_refl eq_refl eq_refl eq_refl)
    as (H1 & _ & H3 & _ & _ & _ & Hpop).
  destruct Hpop as (_ & _ & _ & _ & _ & _ & _ & _ & _ & _ & Hst & _ & Hap & _).
  refine (conj Hone (conj H1 (conj (eq_trans H3 _) (conj Hst Hap))));
    vm_compute; reflexivity.
Defined.

(** The remote system refuses the configuration call.  The allowed
    principals changed, but Update returns the error of that call at
    once: it makes no permissions call and no Read. *)
Lemma C3_refused_configuration_counterexample :
  HasChange (w_d demoRefusedWorld) "allowed_principals" = true /\
  (resourceAwsVpcEndpointServiceUpdate demoMeta 5 demoRefusedWorld).1 =
    Done (Some (fmt_Errorf "Error modifying VPC Endpoint Service configuration: %s" []
                           refused)) /\
  count isModifyPermissions
        (added (w_log demoRefusedWorld)
               (w_log (resourceAwsVpcEndpointServiceUpdate demoMeta 5 demoRefusedWorld).2)) =
    0%nat /\
  count isDescribeConfigurations
        (added (w_log demoRefusedWorld)
               (w_log (resourceAwsVpcEndpointServiceUpdate demoMeta 5 demoRefusedWorld).2)) =
    0%nat.
Proof. vm_compute. repeat split; reflexivity. Qed.

(** A resource whose allowed principals stay {P1, P2}. *)
Lemma C8_unchanged_witness :
  let d := mkResourceData "vpce-svc-1" {["allowed_principals" := VSet P1P2]}
                          {["allowed_principals" := VSet P1P2]} ∅ in
  let w := demoWorld d [inr [inState "Available"]] in
  let new := added (w_log w) (w_log (resourceAwsVpcEndpointServiceUpdate demoMeta 5 w).2) in
  count isModifyConfiguration new = 0%nat /\ count isModifyPermissions new = 0%nat.
Proof.
  exact (proj1 (proj2 (proj2 (C8_no_empty_lists_no_empty_calls demoMeta 5)))
           (demoWorld (mkResourceData "vpce-svc-1" {["allowed_principals" := VSet P1P2]}
                                      {["allowed_principals" := VSet P1P2]} ∅)
                      [inr [inState "Available"]])
           eq_refl eq_refl).
Defined.

(** * Further properties of the two resources *)

(** ** The flatteners of the VPC endpoint service *)


(** X1. The set of allowed principals read back holds exactly the
    principals of the entries whose principal is not nil: entries
    without a principal are skipped, repeated principals count once
    (the set is no larger than the list). *)
Theorem X1_allowed_principals_members (l : list AllowedPrincipal) :
  (forall p, p ∈ flattenVpcEndpointServiceAllowedPrincipals l <->
             exists a, a ∈ l /\ ap_Principal a = Some p) /\
  (size (flattenVpcEndpointServiceAllowedPrincipals l) <= length l)%nat.
Proof.
  split; [intros p; apply allowedPrincipals_members|].
  unfold flattenVpcEndpointServiceAllowedPrincipals.
  rewrite collectPrincipals_fold, app_nil_l.
  induction l as [|a l IH];
    [change (size (∅ : gset string) <= 0)%nat; rewrite size_empty; lia|].
  cbn [omap list_omap length]. destruct (ap_Principal a) as [p|]; [|lia].
  cbn [list_to_set]. rewrite size_union_alt, size_singleton.
  assert (size (list_to_set (omap ap_Principal l) ∖ ({[p]} : gset string))
          <= size (list_to_set (omap ap_Principal l) : gset string))%nat
    by (apply subseteq_size; set_solver).
  lia.
Qed.

(** X2. The private DNS name configuration is flattened to no element
    when it is nil or when none of its four fields is set, and
    otherwise to one map that holds exactly the fields that are set. *)
Theorem X2_private_dns_configuration (c : option PrivateDnsNameConfiguration) :
  let unset := fun c0 => pdc_Name c0 = None /\ pdc_State c0 = None /\
                         pdc_Type c0 = None /\ pdc_Value c0 = None in
  (flattenPrivateDnsNameConfiguration c = [] <->
   c = None \/ exists c0, c = Some c0 /\ unset c0) /\
  (forall c0, c = Some c0 -> ~ unset c0 ->
     exists tfMap : gmap string string,
       flattenPrivateDnsNameConfiguration c = [tfMap] /\
       tfMap !! "name" = pdc_Name c0 /\ tfMap !! "state" = pdc_State c0 /\
       tfMap !! "type" = pdc_Type c0 /\ tfMap !! "value" = pdc_Value c0 /\
       forall k, k ∉ ["name"; "state"; "type"; "value"] -> tfMap !! k = None).
Proof.
  cbv zeta. destruct c as [[n s t v]|].
  2:{ split; [split; auto|]. intros c0 Hc. discriminate. }
  unfold flattenPrivateDnsNameConfiguration. cbn [pdc_Name pdc_State pdc_Type pdc_Value].
  destruct n as [n|], s as [s|], t as [t|], v as [v|].
  16:{ rewrite bool_decide_eq_true_2 by apply map_size_empty.
       split; [split; [intros _; right; eexists; split; [reflexivity|]; cbn; auto
                      | reflexivity]|].
       intros c0 Hc Hset. exfalso. apply Hset. inversion Hc; subst c0. cbn; auto. }
  all: rewrite bool_decide_eq_false_2
    by (apply map_size_non_empty_iff;
        repeat (apply insert_non_empty || rewrite insert_empty);
        try apply insert_non_empty).
  all: (split; [split; [intros Hnil; discriminate Hnil
                       | intros [Hc|(c0 & Hc & Hn & Hs & Ht & Hv)];
                         [discriminate Hc
                         | inversion Hc; subst c0;
                           cbn [pdc_Name pdc_State pdc_Type pdc_Value] in *; discriminate]]
               | intros c0 Hc _; inversion Hc; subst c0;
                 cbn [pdc_Name pdc_State pdc_Type pdc_Value]]).
  all: eexists; split; [reflexivity|].
  all: repeat split; [simplify_map_eq; reflexivity ..|].
  all: intros k Hk;
    assert (Hne : k <> "name" /\ k <> "state" /\ k <> "type" /\ k <> "value")
      by (repeat split; intros ->; apply Hk; repeat constructor);
    destruct Hne as (? & ? & ? & ?);
    repeat (rewrite lookup_insert_ne by congruence); apply lookup_empty.
Qed.

Lemma X2_private_dns_witness :
  exists tfMap : gmap string string,
    flattenPrivateDnsNameConfiguration (Some demoDns) = [tfMap] /\
    tfMap !! "name" = Some "_abc.example.com" /\ tfMap !! "state" = None /\
    tfMap !! "type" = None /\ tfMap !! "value" = None /\
    forall k, k ∉ ["name"; "state"; "type"; "value"] -> tfMap !! k = None.
Proof.
  apply (proj2 (X2_private_dns_configuration (Some demoDns)) demoDns eq_refl).
  intros (Hn & _). discriminate Hn.
Defined.

(** ** Read of the VPC endpoint service *)

Section ReadMore.
Context {R : Type} `{EC2 R}.
Variable meta : AWSClient.

Local Abbreviation W := (World R ec2_call).


(** X3. When the lookup of the service fails with an error other
    than not-found, Read returns that error with the id in its
    message, after the one Describe call, and writes nothing: the
    resource data and its id are as before. *)
Theorem X3_read_propagates_lookup_error (w : W) err r1 :
  ec2_DescribeConfigurations [Id (w_d w)] (w_remote w) = (inl err, r1) ->
  isAWSErr err "InvalidVpcEndpointServiceId.NotFound" "" = false ->
  resourceAwsVpcEndpointServiceRead meta w =
    (Done (Some (fmt_Errorf "error reading VPC Endpoint Service (%s): %s" [Id (w_d w)] err)),
     mkWorld (w_d w) r1
             (w_log w ++ [Call (DescribeVpcEndpointServiceConfigurations [Id (w_d w)])])).
Proof. exact (Read_lookup_error meta w err r1). Qed.

(** X4. Read of a service that is there (its state is none of
    deleted, deleting, failed; it has a service type; the permissions
    call succeeds) returns no error after exactly the two Describe
    calls, keeps the id, the prior state and the plan, and afterwards
    the attributes read as the remote system reported them: the
    state, the service type, the ARN built from partition, region,
    account and id, the load balancer ARNs as sets, and as allowed
    principals the principals of the entries that have one.  The
    tags are not the reported ones as they are: they are the
    reported tags after the filter of the provider, which drops the
    tags of AWS itself and those the configuration says to ignore. *)
Theorem X4_read_populates_attributes (w : W) svcCfg rest r1 serviceType0 types aps r2 :
  let id := Id (w_d w) in
  ec2_DescribeConfigurations [id] (w_remote w) = (inr (svcCfg :: rest), r1) ->
  terminalStates !! aws_StringValue (sc_ServiceState svcCfg) = None ->
  sc_ServiceType svcCfg = serviceType0 :: types ->
  ec2_DescribePermissions id r1 = (inr aps, r2) ->
  let out := resourceAwsVpcEndpointServiceRead meta w in
  let d' := w_d out.2 in
  out.1 = Done None /\
  w_remote out.2 = r2 /\
  w_log out.2 = w_log w ++ [Call (DescribeVpcEndpointServiceConfigurations [id]);
                            Call (DescribeVpcEndpointServicePermissions id)] /\
  Id d' = id /\ rd_state d' = rd_state (w_d w) /\ rd_planned d' = rd_planned (w_d w) /\
  asString (Get d' "state") = aws_StringValue (sc_ServiceState svcCfg) /\
  asString (Get d' "service_type") = aws_StringValue serviceType0 /\
  asString (Get d' "arn") =
    arn_String (partition meta) "ec2" (region meta) (accountid meta)
               ("vpc-endpoint-service/" +:+ id) /\
  asBool (Get d' "acceptance_required") = aws_BoolValue (sc_AcceptanceRequired svcCfg) /\
  asSet (Get d' "gateway_load_balancer_arns") = list_to_set (sc_GatewayLoadBalancerArns svcCfg) /\
  asSet (Get d' "network_load_balancer_arns") = list_to_set (sc_NetworkLoadBalancerArns svcCfg) /\
  asMap (Get d' "tags") = IgnoreTags meta (sc_Tags svcCfg) /\
  (forall p, p ∈ asSet (Get d' "allowed_principals") <->
             exists a, a ∈ aps /\ ap_Principal a = Some p).
Proof.
  cbv zeta. intros Hd Ht Hty Hp.
  destruct (Read_observed meta w svcCfg rest r1 serviceType0 types aps r2 Hd Ht Hty Hp)
    as (H1 & H2 & H3 & H4 & H5 & H6 & Hpop).
  destruct Hpop as (Harn & Hacc & _ & _ & Hg & _ & Hn & _ & _ & Hsty & Hst & Htags & Hap & _).
  exact (conj H1 (conj H2 (conj H3 (conj H4 (conj H5 (conj H6 (conj Hst (conj Hsty
           (conj Harn (conj Hacc (conj Hg (conj Hn (conj Htags Hap))))))))))))).
Qed.


(** X5. Read only reads the remote system: in every run it makes the
    Describe call of the configuration first, and after it nothing,
    or the write of the empty id, or the Describe call of the
    permissions; it never makes a create, modify, delete or tag call. *)
Theorem X5_read_is_read_only (w : W) :
  let id := Id (w_d w) in
  let describe := Call (DescribeVpcEndpointServiceConfigurations [id]) in
  let new := added (w_log w) (w_log (resourceAwsVpcEndpointServiceRead meta w).2) in
  new = [describe] \/
  new = [describe; PersistId ""] \/
  new = [describe; Call (DescribeVpcEndpointServicePermissions id)].
Proof.
  cbv zeta.
  destruct (ec2_DescribeConfigurations [Id (w_d w)] (w_remote w)) as [[err|[|svcCfg rest]] r1] eqn:Hd.
  - destruct (isAWSErr err "InvalidVpcEndpointServiceId.NotFound" "") eqn:Hnf.
    + right; left.
      rewrite (vpc_Read_terminal meta w _ _ _ _ (refresh_notfound _ w err r1 Hd Hnf));
        [apply added_app | set_solver].
    + left. rewrite (Read_lookup_error meta w err r1 Hd Hnf). apply added_app.
  - left. rewrite (Read_no_configuration meta w r1 Hd). apply added_app.
  - destruct (terminalStates !! aws_StringValue (sc_ServiceState svcCfg)) as [b|] eqn:Ht.
    + right; left. destruct (refresh_answer _ w svcCfg rest r1 Hd) as (res & e & Hr).
      rewrite (vpc_Read_terminal meta w _ _ _ _ Hr (terminalStates_inv _ _ Ht)).
      apply added_app.
    + rewrite (Read_live meta w svcCfg rest r1 Hd Ht).
      destruct (sc_ServiceType svcCfg) as [|t0 ts]; [left; apply added_app|].
      cbv zeta. right; right.
      destruct (ec2_DescribePermissions (Id (w_d w)) r1) as [[e|aps] r2]; apply added_app.
Qed.

(** X6. Where the code indexes the first element of a list of the
    answer, an empty list is a run-time panic, not an error: the
    refresh, and with it Read, panics when the Describe call succeeds
    without any configuration; and Read panics when the configuration
    has no service type, after it has written the attributes that
    come before. *)
Theorem X6_empty_answers_panic (w : W) :
  let id := Id (w_d w) in
  (forall r1,
      ec2_DescribeConfigurations [id] (w_remote w) = (inr [], r1) ->
      (vpcEndpointServiceStateRefresh id w).1 = Panic "index out of range [0] with length 0" /\
      (resourceAwsVpcEndpointServiceRead meta w).1 =
        Panic "index out of range [0] with length 0") /\
  (forall svcCfg rest r1,
      ec2_DescribeConfigurations [id] (w_remote w) = (inr (svcCfg :: rest), r1) ->
      terminalStates !! aws_StringValue (sc_ServiceState svcCfg) = None ->
      sc_ServiceType svcCfg = [] ->
      let out := resourceAwsVpcEndpointServiceRead meta w in
      out.1 = Panic "index out of range [0] with length 0" /\
      w_d out.2 = SetAll (configurationAttributes meta id svcCfg) (w_d w)).
Proof.
  cbv zeta. split.
  - intros r1 Hd. split; [|now rewrite (Read_no_configuration meta w r1 Hd)].
    unfold vpcEndpointServiceStateRefresh, conn_DescribeVpcEndpointServiceConfigurations,
      conn, bind. now rewrite Hd.
  - intros svcCfg rest r1 Hd Ht Hty. rewrite (Read_live meta w svcCfg rest r1 Hd Ht), Hty. auto.
Qed.
End ReadMore.

(** The lookup is refused for lack of permission. *)
Lemma X3_read_error_witness :
  resourceAwsVpcEndpointServiceRead demoMeta
    (demoWorld demoChange [inl (awserr "UnauthorizedOperation" "denied" 403)]) =
  (Done (Some (fmt_Errorf "error reading VPC Endpoint Service (%s): %s" ["vpce-svc-1"]
                          (awserr "UnauthorizedOperation" "denied" 403))),
   mkWorld demoChange (demoScript [])
           [Call (DescribeVpcEndpointServiceConfigurations ["vpce-svc-1"])]).
Proof.
  apply (X3_read_propagates_lookup_error demoMeta
           (demoWorld demoChange [inl (awserr "UnauthorizedOperation" "denied" 403)]));
    reflexivity.
Defined.

(** The service is available and has the two principals P1 and P2, a
    tag of its own and a tag of AWS, which the filter of the provider
    drops: only the tag of its own is read. *)
Lemma X4_read_witness :
  let w := mkWorld demoChange (demoScriptWith [inr [demoTagged]] demoPrincipals None) [] in
  let out := resourceAwsVpcEndpointServiceRead demoMetaIgnoreAws w in
  out.1 = Done None /\
  asString (Get (w_d out.2) "state") = "Available" /\
  asString (Get (w_d out.2) "arn") =
    "arn:aws:ec2:us-east-1:123456789012:vpc-endpoint-service/vpce-svc-1" /\
  asMap (Get (w_d out.2) "tags") = {["Name" := "x"]} /\
  (forall p, p ∈ asSet (Get (w_d out.2) "allowed_principals") <->
             exists a, a ∈ demoPrincipals /\ ap_Principal a = Some p).
Proof.
  cbv zeta.
  pose proof (X4_read_populates_attributes demoMetaIgnoreAws
    (mkWorld demoChange (demoScriptWith [inr [demoTagged]] demoPrincipals None) [])
    demoTagged [] _ (Some "Interface") [] demoPrincipals _
    eq_refl eq_refl eq_refl eq_refl) as Hx.
  cbv zeta in Hx.
  destruct Hx as (H1 & _ & _ & _ & _ & _ & H2 & _ & H3 & _ & _ & _ & H5 & H4).
  refine (conj H1 (conj H2 (conj H3 (conj (eq_trans H5 _) H4)))).
  vm_compute. reflexivity.
Defined.

(** The Describe call succeeds with an empty list. *)
Lemma X6_empty_answer_witness :
  (resourceAwsVpcEndpointServiceRead demoMeta (demoWorld demoChange [inr []])).1 =
    Panic "index out of range [0] with length 0".
Proof.
  exact (proj2 (proj1 (X6_empty_answers_panic demoMeta (demoWorld demoChange [inr []]))
                      _ eq_refl)).
Defined.


(** ** The grants of the object copy *)

Lemma expandS3Grant_Done (tfMap : Grant) (v : string) :
  expandS3Grant tfMap = Done v ->
  grant_type tfMap <> "" /\
  ((grant_type tfMap = TypeAmazonCustomerByEmail /\ grant_email tfMap <> "" /\
    v = "emailaddress=" +:+ grant_email tfMap) \/
   (grant_type tfMap = TypeCanonicalUser /\ grant_id tfMap <> "" /\
    v = "id=" +:+ grant_id tfMap) \/
   (grant_type tfMap <> TypeAmazonCustomerByEmail /\ grant_type tfMap <> TypeCanonicalUser /\
    grant_uri tfMap <> "" /\ v = "uri=" +:+ grant_uri tfMap)).
Proof.
  unfold expandS3Grant.
  destruct (String.eqb_spec (grant_type tfMap) "") as [|Ht]; [discriminate|].
  destruct (String.eqb_spec (grant_type tfMap) TypeAmazonCustomerByEmail) as [He|He].
  - destruct (String.eqb_spec (grant_email tfMap) "") as [|Hv]; [discriminate|].
    intros [= <-]. split; [exact Ht|]. left. auto.
  - destruct (String.eqb_spec (grant_type tfMap) TypeCanonicalUser) as [Hc|Hc].
    + destruct (String.eqb_spec (grant_id tfMap) "") as [|Hv]; [discriminate|].
      intros [= <-]. split; [exact Ht|]. right; left. auto.
    + destruct (String.eqb_spec (grant_uri tfMap) "") as [|Hv]; [discriminate|].
      intros [= <-]. split; [exact Ht|]. right; right. auto.
Qed.

Lemma expandS3Grant_not_empty (tfMap : Grant) : expandS3Grant tfMap <> Done "".
Proof.
  intros Hd.
  destruct (expandS3Grant_Done _ _ Hd)
    as (_ & [(_ & _ & E)|[(_ & _ & E)|(_ & _ & _ & E)]]);
    discriminate E.
Qed.

Lemma expandS3Grant_Panic (tfMap : Grant) (r : string) :
  expandS3Grant tfMap = Panic r ->
  r = "invalid memory address or nil pointer dereference" /\
  (grant_type tfMap = "" \/
   (grant_type tfMap = TypeAmazonCustomerByEmail /\ grant_email tfMap = "") \/
   (grant_type tfMap = TypeCanonicalUser /\ grant_id tfMap = "") \/
   (grant_type tfMap <> TypeAmazonCustomerByEmail /\ grant_type tfMap <> TypeCanonicalUser /\
    grant_uri tfMap = "")).
Proof.
  unfold expandS3Grant.
  destruct (String.eqb_spec (grant_type tfMap) "") as [|Ht]; [intros [= <-]; auto|].
  destruct (String.eqb_spec (grant_type tfMap) TypeAmazonCustomerByEmail) as [He|He].
  - destruct (String.eqb_spec (grant_email tfMap) "") as [|Hv]; [|discriminate].
    intros [= <-]. split; [reflexivity|]. right; left. auto.
  - destruct (String.eqb_spec (grant_type tfMap) TypeCanonicalUser) as [Hc|Hc].
    + destruct (String.eqb_spec (grant_id tfMap) "") as [|Hv]; [|discriminate].
      intros [= <-]. split; [reflexivity|]. right; right; left. auto.
    + destruct (String.eqb_spec (grant_uri tfMap) "") as [|Hv]; [|discriminate].
      intros [= <-]. split; [reflexivity|]. right; right; right. auto.
Qed.

(** X7. The text of a grantee is never empty, so the test for an
    empty text in the loop of the grants never skips a grant.  A
    text is returned exactly when the type is set and the field the
    type selects is set: the e-mail address for a customer by e-mail,
    the id for a canonical user, the URI for every other type; the
    text is that field after its prefix.  In every other case the
    function panics on a nil pointer. *)
Theorem X7_grantee_text (tfMap : Grant) :
  expandS3Grant tfMap <> Done "" /\
  (forall v, expandS3Grant tfMap = Done v ->
     grant_type tfMap <> "" /\
     ((grant_type tfMap = TypeAmazonCustomerByEmail /\ grant_email tfMap <> "" /\
       v = "emailaddress=" +:+ grant_email tfMap) \/
      (grant_type tfMap = TypeCanonicalUser /\ grant_id tfMap <> "" /\
       v = "id=" +:+ grant_id tfMap) \/
      (grant_type tfMap <> TypeAmazonCustomerByEmail /\
       grant_type tfMap <> TypeCanonicalUser /\
       grant_uri tfMap <> "" /\ v = "uri=" +:+ grant_uri tfMap))) /\
  (forall r, expandS3Grant tfMap = Panic r ->
     r = "invalid memory address or nil pointer dereference" /\
     (grant_type tfMap = "" \/
      (grant_type tfMap = TypeAmazonCustomerByEmail /\ grant_email tfMap = "") \/
      (grant_type tfMap = TypeCanonicalUser /\ grant_id tfMap = "") \/
      (grant_type tfMap <> TypeAmazonCustomerByEmail /\
       grant_type tfMap <> TypeCanonicalUser /\ grant_uri tfMap = ""))).
Proof.
  split; [apply expandS3Grant_not_empty|]. split.
  - intros v. apply expandS3Grant_Done.
  - intros r. apply expandS3Grant_Panic.
Qed.

(** A canonical user gives the id after [id=]; a block with an
    e-mail address but no type panics. *)
Lemma X7_grantee_witness :
  let tfMap := mkGrant "" "abc123" TypeCanonicalUser "" [PermissionRead] in
  (grant_type tfMap <> "" /\
   ((grant_type tfMap = TypeAmazonCustomerByEmail /\ grant_email tfMap <> "" /\
     "id=abc123" = "emailaddress=" +:+ grant_email tfMap) \/
    (grant_type tfMap = TypeCanonicalUser /\ grant_id tfMap <> "" /\
     "id=abc123" = "id=" +:+ grant_id tfMap) \/
    (grant_type tfMap <> TypeAmazonCustomerByEmail /\
     grant_type tfMap <> TypeCanonicalUser /\
     grant_uri tfMap <> "" /\ "id=abc123" = "uri=" +:+ grant_uri tfMap))) /\
  (grant_type noTypeGrant = "" \/
   (grant_type noTypeGrant = TypeAmazonCustomerByEmail /\ grant_email noTypeGrant = "") \/
   (grant_type noTypeGrant = TypeCanonicalUser /\ grant_id noTypeGrant = "") \/
   (grant_type noTypeGrant <> TypeAmazonCustomerByEmail /\
    grant_type noTypeGrant <> TypeCanonicalUser /\ grant_uri noTypeGrant = "")).
Proof.
  split.
  - exact (proj1 (proj2 (X7_grantee_text
             (mkGrant "" "abc123" TypeCanonicalUser "" [PermissionRead])))
             "id=abc123" eq_refl).
  - exact (proj2 (proj2 (proj2 (X7_grantee_text noTypeGrant)) _ eq_refl)).
Defined.

(** The permissions of one grant, added to the four lists. *)
Lemma addGrant_Panic (tfMap : Grant) (perms : list string) (r : string) :
  fold_left (addGrant tfMap) perms (Panic r) = Panic r.
Proof. induction perms as [|p perms IH]; [reflexivity|exact IH]. Qed.

Lemma addGrant_fold_Done (tfMap : Grant) (v : string) (perms : list string)
    (a b c d : list string) :
  expandS3Grant tfMap = Done v ->
  fold_left (addGrant tfMap) perms (Done (a, b, c, d)) =
    Done (a ++ flat_map (fun p => if String.eqb p PermissionFullControl then [v] else []) perms,
          b ++ flat_map (fun p => if String.eqb p PermissionRead then [v] else []) perms,
          c ++ flat_map (fun p => if String.eqb p PermissionReadAcp then [v] else []) perms,
          d ++ flat_map (fun p => if String.eqb p PermissionWriteAcp then [v] else []) perms).
Proof.
  intros Hv. assert (Hne : String.eqb v "" = false).
  { apply String.eqb_neq. intros ->. exact (expandS3Grant_not_empty _ Hv). }
  revert a b c d. induction perms as [|p perms IH]; intros a b c d.
  - cbn [fold_left flat_map]. now rewrite !app_nil_r.
  - cbn [fold_left flat_map]. unfold addGrant at 2. rewrite Hv, Hne.
    destruct (String.eqb_spec p PermissionFullControl) as [->|N1].
    { rewrite IH. cbn [String.eqb]. rewrite <- !app_assoc. reflexivity. }
    destruct (String.eqb_spec p PermissionRead) as [->|N2].
    { rewrite IH. rewrite <- !app_assoc. reflexivity. }
    destruct (String.eqb_spec p PermissionReadAcp) as [->|N3].
    { rewrite IH. rewrite <- !app_assoc. reflexivity. }
    destruct (String.eqb_spec p PermissionWriteAcp) as [->|N4].
    { rewrite IH. rewrite <- !app_assoc. reflexivity. }
    rewrite IH. reflexivity.
Qed.

Lemma addGrant_fold_Panic (tfMap : Grant) (r : string) (perms : list string)
    (acc : list string * list string * list string * list string) :
  expandS3Grant tfMap = Panic r -> perms <> [] ->
  fold_left (addGrant tfMap) perms (Done acc) = Panic r.
Proof.
  intros Hp Hne. destruct perms as [|p perms]; [congruence|].
  cbn [fold_left]. unfold addGrant at 2. destruct acc as [[[a b] c] d]. rewrite Hp.
  apply addGrant_Panic.
Qed.

Lemma grants_fold_Panic (tfList : list Grant) (r : string) :
  fold_left (fun acc tfMap => fold_left (addGrant tfMap) (grant_permissions tfMap) acc)
            tfList (Panic r) = Panic r.
Proof.
  induction tfList as [|g l IH]; [reflexivity|].
  cbn [fold_left]. now rewrite addGrant_Panic.
Qed.

Lemma grants_fold_Done (tfList : list Grant) (a b c d : list string) :
  (forall tfMap, tfMap ∈ tfList -> grant_permissions tfMap <> [] ->
                 exists v, expandS3Grant tfMap = Done v) ->
  fold_left (fun acc tfMap => fold_left (addGrant tfMap) (grant_permissions tfMap) acc)
            tfList (Done (a, b, c, d)) =
    Done (a ++ granteesFor PermissionFullControl tfList,
          b ++ granteesFor PermissionRead tfList,
          c ++ granteesFor PermissionReadAcp tfList,
          d ++ granteesFor PermissionWriteAcp tfList).
Proof.
  revert a b c d. induction tfList as [|g l IH]; intros a b c d Hok.
  - cbn. now rewrite !app_nil_r.
  - cbn [fold_left]. unfold granteesFor. cbn [flat_map]. fold (granteesFor PermissionFullControl l).
    fold (granteesFor PermissionRead l). fold (granteesFor PermissionReadAcp l).
    fold (granteesFor PermissionWriteAcp l).
    assert (Hl : forall tfMap, tfMap ∈ l -> grant_permissions tfMap <> [] ->
                               exists v, expandS3Grant tfMap = Done v).
    { intros tfMap Hin. apply Hok. now right. }
    destruct (expandS3Grant g) as [v|r] eqn:Hg.
    + rewrite (addGrant_fold_Done g v _ a b c d Hg), (IH _ _ _ _ Hl).
      unfold granteesOf. now rewrite <- !app_assoc.
    + destruct (grant_permissions g) as [|p ps] eqn:Hperms.
      * cbn [fold_left]. rewrite (IH _ _ _ _ Hl). reflexivity.
      * destruct (Hok g) as [v Hv]; [now left | now rewrite Hperms | congruence].
Qed.

Lemma grants_fold_fails (tfList : list Grant) (tfMap : Grant) (r : string)
    (acc : list string * list string * list string * list string) :
  tfMap ∈ tfList -> grant_permissions tfMap <> [] -> expandS3Grant tfMap = Panic r ->
  exists r',
    fold_left (fun acc tfMap => fold_left (addGrant tfMap) (grant_permissions tfMap) acc)
              tfList (Done acc) = Panic r'.
Proof.
  intros Hin Hperms Hp. revert acc. induction tfList as [|g l IH]; intros acc.
  - inversion Hin.
  - cbn [fold_left].
    destruct (fold_left (addGrant g) (grant_permissions g) (Done acc)) as [acc'|r'] eqn:Hg.
    + apply elem_of_cons in Hin as [Heq|Hin]; [subst g|now apply IH].
      rewrite (addGrant_fold_Panic tfMap r _ acc Hp Hperms) in Hg. discriminate Hg.
    + exists r'. apply grants_fold_Panic.
Qed.

(** X8. The grants are sorted by permission: each of the four
    headers is nil when no grant has the permission, and otherwise
    the texts of the grants that have it, in the order of the list
    and joined by commas.  A grant is expanded only for its
    permissions: a grant without permissions is never looked at, and
    a permission other than the four contributes nothing.  The
    function panics exactly when a grant that has a permission cannot
    be expanded. *)
Theorem X8_grants_by_permission (tfList : list Grant) :
  tfList <> [] ->
  ((forall tfMap, tfMap ∈ tfList -> grant_permissions tfMap <> [] ->
                  exists v, expandS3Grant tfMap = Done v) ->
   expandS3Grants tfList =
     Done (Some {| FullControl := grantHeader (granteesFor PermissionFullControl tfList);
                   Read := grantHeader (granteesFor PermissionRead tfList);
                   ReadACP := grantHeader (granteesFor PermissionReadAcp tfList);
                   WriteACP := grantHeader (granteesFor PermissionWriteAcp tfList) |})) /\
  (forall tfMap r,
      tfMap ∈ tfList -> grant_permissions tfMap <> [] -> expandS3Grant tfMap = Panic r ->
      exists r', expandS3Grants tfList = Panic r').
Proof.
  intros Hne. unfold expandS3Grants.
  rewrite bool_decide_eq_false_2 by (destruct tfList; [congruence | discriminate]).
  cbv zeta. split.
  - intros Hok. rewrite (grants_fold_Done tfList [] [] [] [] Hok). reflexivity.
  - intros tfMap r Hin Hperms Hp.
    destruct (grants_fold_fails tfList tfMap r ([], [], [], []) Hin Hperms Hp) as [r' ->].
    now exists r'.
Qed.

(** The canonical user is in the headers for reading and for reading
    the ACL, the group in the one for reading; nobody has full
    control.  With the block without type in the list the function
    panics. *)
Lemma X8_grants_witness :
  expandS3Grants demoGrants =
    Done (Some {| FullControl := None;
                  Read := Some "id=abc123,uri=http://acs.amazonaws.com/groups/global/AllUsers";
                  ReadACP := Some "id=abc123";
                  WriteACP := None |}) /\
  exists r', expandS3Grants (demoGrants ++ [noTypeGrant]) = Panic r'.
Proof.
  split.
  - apply (proj1 (X8_grants_by_permission demoGrants ltac:(discriminate))).
    intros tfMap Hin _. unfold demoGrants in Hin.
    apply elem_of_cons in Hin as [->|Hin]; [eexists; reflexivity|].
    apply elem_of_cons in Hin as [->|Hin]; [eexists; reflexivity|].
    inversion Hin.
  - apply (proj2 (X8_grants_by_permission (demoGrants ++ [noTypeGrant]) ltac:(discriminate))
                 noTypeGrant "invalid memory address or nil pointer dereference").
    + apply elem_of_app. right. left.
    + discriminate.
    + reflexivity.
Defined.

(** ** The key of the object that Delete removes *)

Lemma TrimLeft_no_leading_slash (s : string) :
  strings_HasPrefix s "/" = false -> strings_TrimLeft s "/" = s.
Proof.
  destruct s as [|c rest]; [reflexivity|].
  rewrite HasPrefix_slash, Ascii.eqb_sym, TrimLeft_slash. now intros ->.
Qed.

Lemma replace_after_run (s : string) :
  strings_HasPrefix s "/" = false ->
  slashRuns_ReplaceAllString true s "/" = slashRuns_ReplaceAllString false s "/".
Proof.
  destruct s as [|c rest]; [reflexivity|].
  rewrite HasPrefix_slash, Ascii.eqb_sym, !replace_cons. now intros ->.
Qed.

Lemma replace_no_runs (s : string) :
  strings_Contains s "//" = false -> slashRuns_ReplaceAllString false s "/" = s.
Proof.
  induction s as [|c rest IH]; [reflexivity|].
  rewrite Contains_cons. intros Hc. apply orb_false_elim in Hc as [Hp Hc].
  rewrite replace_cons. destruct (Ascii.eqb c slash) eqn:Ec.
  - apply Ascii.eqb_eq in Ec. subst c. rewrite HasPrefix_slash_slash in Hp.
    now rewrite (replace_after_run rest Hp), (IH Hc).
  - now rewrite (IH Hc).
Qed.

Lemma deleteKey_normal (key : string) :
  strings_HasPrefix key "/" = false -> strings_Contains key "//" = false ->
  deleteKey key = key.
Proof.
  intros Hp Hc. unfold deleteKey. rewrite (TrimLeft_no_leading_slash key Hp).
  now apply replace_no_runs.
Qed.

(** X9. A key that has no leading slash and no two slashes in a row
    is the key Delete uses, unchanged; and cleaning a key twice gives
    what cleaning it once gives, so the key Delete uses is itself in
    that form. *)
Theorem X9_clean_key_is_kept :
  (forall key : string,
      strings_HasPrefix key "/" = false -> strings_Contains key "//" = false ->
      deleteKey key = key) /\
  (forall key : string, deleteKey (deleteKey key) = deleteKey key).
Proof.
  split; [exact deleteKey_normal|].
  intros key. apply deleteKey_normal; [apply deleteKey_no_leading_slash|].
  unfold deleteKey. apply replace_no_double_slash.
Qed.

Lemma X9_clean_key_witness : deleteKey "dir/sub/file.txt" = "dir/sub/file.txt".
Proof. exact (proj1 X9_clean_key_is_kept "dir/sub/file.txt" eq_refl eq_refl). Defined.

(** ** Read, Update and Delete of the object copy *)

Section ObjectCopyMore.
Context {R : Type} `{S3 R}.

Local Abbreviation W := (World R s3_call).

(** X10. When the head request of Read fails with an error whose
    HTTP status is not 404, Read returns that error as it is, after
    this one call, and writes nothing: the resource data and its id
    are as before. *)
Theorem X10_read_returns_head_error (meta : AWSClient) (w : W) err r1 :
  let bucket := asString (Get (w_d w) "bucket") in
  let key := asString (Get (w_d w) "key") in
  s3_HeadObject bucket key (w_remote w) = (inl err, r1) ->
  ErrStatusCodeEquals err 404 = false ->
  resourceAwsS3ObjectCopyRead meta w =
    (Done (Some err), mkWorld (w_d w) r1 (w_log w ++ [Call (HeadObject bucket key)])).
Proof.
  cbv zeta. intros Hh Hs.
  unfold resourceAwsS3ObjectCopyRead. unfold getD at 1. unfold bind at 1.
  unfold s3conn_HeadObject, conn. unfold bind at 1. rewrite Hh. cbn [w_d w_remote w_log].
  rewrite Hs. reflexivity.
Qed.

(** X11. Delete makes its one call on the cleaned key, for all
    versions of the object when a version id is recorded and for the
    object otherwise; it returns nil when that call does, and
    otherwise its error with the bucket and the cleaned key in the
    message; it writes nothing to the resource data. *)
Theorem X11_delete_outcome (w : W) :
  let d := w_d w in
  let bucket := asString (Get d "bucket") in
  let key := deleteKey (asString (Get d "key")) in
  let wrap (err : option error) :=
    match err with
    | Some e =>
        Some (fmt_Errorf "error deleting S3 Bucket (%s) Object (%s): %w" [bucket; key] e)
    | None => None
    end in
  match GetOk d "version_id" with
  | Some _ =>
      let force := asBool (Get d "force_destroy") in
      resourceAwsS3ObjectCopyDelete w =
        (Done (wrap (s3_deleteAllS3ObjectVersions bucket key force false (w_remote w)).1),
         mkWorld d (s3_deleteAllS3ObjectVersions bucket key force false (w_remote w)).2
                 (w_log w ++ [Call (deleteAllS3ObjectVersions bucket key force false)]))
  | None =>
      resourceAwsS3ObjectCopyDelete w =
        (Done (wrap (s3_deleteS3ObjectVersion bucket key "" false (w_remote w)).1),
         mkWorld d (s3_deleteS3ObjectVersion bucket key "" false (w_remote w)).2
                 (w_log w ++ [Call (deleteS3ObjectVersion bucket key "" false)]))
  end.
Proof.
  cbv zeta. unfold resourceAwsS3ObjectCopyDelete, getD, bind, deleteKey.
  destruct (GetOk (w_d w) "version_id") as [v|].
  - unfold call_deleteAllS3ObjectVersions, conn.
    destruct (s3_deleteAllS3ObjectVersions _ _ _ _ _) as [[e|] r1]; reflexivity.
  - unfold call_deleteS3ObjectVersion, conn.
    destruct (s3_deleteS3ObjectVersion _ _ _ _ _) as [[e|] r1]; reflexivity.
Qed.
End ObjectCopyMore.

(** The head request is refused for lack of permission. *)
Lemma X10_read_error_witness :
  resourceAwsS3ObjectCopyRead demoMeta (mkWorld demoObject refusingStore []) =
  (Done (Some denied),
   mkWorld demoObject refusingStore [Call (HeadObject "b" "//logs///2021/a.txt")]).
Proof.
  apply (X10_read_returns_head_error demoMeta (mkWorld demoObject refusingStore []));
    reflexivity.
Defined.

(** ** The request of the copy *)

Section CopyRequest.
Context `{S3Helpers}.

Lemma setOpt_same field v (input : CopyObjectInput) :
  setOpt field v input !! field = VString <$> v.
Proof. unfold setOpt. destruct v; [apply lookup_insert_eq | apply lookup_delete_eq]. Qed.

Lemma setString_same d key field (input : CopyObjectInput) :
  setString d key field input !! field =
    match GetOk d key with
    | Some v => Some (VString (asString (Some v)))
    | None => input !! field
    end.
Proof. unfold setString. destruct (GetOk d key); [apply lookup_insert_eq | reflexivity]. Qed.

Ltac skip_fields :=
  repeat first
    [ rewrite setString_other by discriminate
    | rewrite setDate_other by discriminate
    | rewrite setOpt_other by discriminate
    | rewrite lookup_insert_ne by discriminate
    | rewrite lookup_delete_ne by discriminate ].

(** The part of the request that is built after the grants. *)
Ltac after_grants :=
  destruct (0 <? size (asMap (Get _ "tags")))%nat; destruct (GetOk _ "metadata");
  destruct (GetOk _ "kms_key_id").

(** X12. The request of the copy carries either the canned ACL or
    the grants, never both.  With grants configured, the ACL is
    left out even when one is configured, and the four grant headers
    are those the grants expand to; when expanding them panics, so
    does building the request.  With no grant configured, the ACL is
    the configured one, if any, and no grant header is set. *)
Theorem X12_grants_replace_acl (d : ResourceData) :
  (forall tfList grants,
      GetOk d "grant" = Some (VGrants tfList) ->
      tfList <> [] ->
      expandS3Grants tfList = Done (Some grants) ->
      exists input,
        copyObjectInput d = Done input /\
        input !! "ACL" = None /\
        input !! "GrantFullControl" = VString <$> FullControl grants /\
        input !! "GrantRead" = VString <$> Read grants /\
        input !! "GrantReadACP" = VString <$> ReadACP grants /\
        input !! "GrantWriteACP" = VString <$> WriteACP grants) /\
  (forall tfList r,
      GetOk d "grant" = Some (VGrants tfList) ->
      tfList <> [] ->
      expandS3Grants tfList = Panic r ->
      copyObjectInput d = Panic r) /\
  (GetOk d "grant" = None ->
   exists input,
     copyObjectInput d = Done input /\
     input !! "ACL" = match GetOk d "acl" with
                      | Some v => Some (VString (asString (Some v)))
                      | None => None
                      end /\
     input !! "GrantFullControl" = None /\ input !! "GrantRead" = None /\
     input !! "GrantReadACP" = None /\ input !! "GrantWriteACP" = None).
Proof.
  refine (conj _ (conj _ _)).
  - intros tfList grants Hg Hne He. unfold copyObjectInput. rewrite Hg. cbn [asGrants].
    assert (Hlen : (0 <? length tfList)%nat = true)
      by (destruct tfList; [congruence | reflexivity]).
    rewrite Hlen, He. eexists. split; [reflexivity|].
    after_grants;
      (refine (conj _ (conj _ (conj _ (conj _ _)))); skip_fields;
       [apply lookup_delete_eq | apply setOpt_same ..]).
  - intros tfList r Hg Hne He. unfold copyObjectInput. rewrite Hg. cbn [asGrants].
    assert (Hlen : (0 <? length tfList)%nat = true)
      by (destruct tfList; [congruence | reflexivity]).
    now rewrite Hlen, He.
  - intros Hg. unfold copyObjectInput. rewrite Hg. eexists. split; [reflexivity|].
    after_grants;
      (refine (conj _ (conj _ (conj _ (conj _ _)))); skip_fields;
       [rewrite setString_same; destruct (GetOk d "acl"); [reflexivity|];
        skip_fields; apply lookup_empty
       | apply lookup_empty ..]).
Qed.

(** X13. An encryption of the configuration overrides the one a KMS
    key implies: the request asks for the configured
    server_side_encryption when there is one; otherwise for aws:kms
    when a KMS key is configured; otherwise for none.  The key is
    sent whenever it is configured. *)
Theorem X13_encryption_of_the_request (d : ResourceData) (input : CopyObjectInput) :
  copyObjectInput d = Done input ->
  input !! "ServerSideEncryption" =
    match GetOk d "server_side_encryption" with
    | Some v => Some (VString (asString (Some v)))
    | None =>
        match GetOk d "kms_key_id" with
        | Some _ => Some (VString ServerSideEncryptionAwsKms)
        | None => None
        end
    end /\
  input !! "SSEKMSKeyId" =
    match GetOk d "kms_key_id" with
    | Some v => Some (VString (asString (Some v)))
    | None => None
    end.
Proof.
  unfold copyObjectInput.
  match goal with
  | |- match ?g with Done _ => _ | Panic _ => _ end = _ -> _ => destruct g as [input1|r] eqn:Eg
  end; [|discriminate].
  intros Heq. inversion Heq; subst input. clear Heq.
  assert (H1 : input1 !! "ServerSideEncryption" = None /\ input1 !! "SSEKMSKeyId" = None).
  { destruct (GetOk d "grant") as [v|].
    - destruct (0 <? length (asGrants (Some v)))%nat.
      + destruct (expandS3Grants (asGrants (Some v))) as [[g|]|]; try discriminate.
        inversion Eg; subst input1. split; skip_fields; apply lookup_empty.
      + inversion Eg; subst input1. split; skip_fields; apply lookup_empty.
    - inversion Eg; subst input1. split; skip_fields; apply lookup_empty. }
  destruct H1 as [HS HK].
  destruct (0 <? size (asMap (Get d "tags")))%nat; destruct (GetOk d "metadata");
    destruct (GetOk d "kms_key_id") as [k|];
    (split;
     [ skip_fields; rewrite setString_same;
       destruct (GetOk d "server_side_encryption"); [reflexivity|]; skip_fields;
       first [apply lookup_insert_eq | exact HS]
     | skip_fields; first [apply lookup_insert_eq | exact HK] ]).
Qed.

Lemma copyObjectInput_CopySource (d : ResourceData) (input : CopyObjectInput) :
  copyObjectInput d = Done input ->
  input !! "CopySource" = Some (VString (url_QueryEscape (asString (Get d "source")))).
Proof.
  unfold copyObjectInput.
  match goal with
  | |- match ?g with Done _ => _ | Panic _ => _ end = _ -> _ => destruct g as [input1|r] eqn:Eg
  end; [|discriminate].
  intros Heq. inversion Heq; subst input. clear Heq.
  assert (H1 : input1 !! "CopySource" =
               Some (VString (url_QueryEscape (asString (Get d "source"))))).
  { destruct (GetOk d "grant") as [v|].
    - destruct (0 <? length (asGrants (Some v)))%nat.
      + destruct (expandS3Grants (asGrants (Some v))) as [[g|]|]; try discriminate.
        inversion Eg; subst input1. skip_fields. apply lookup_insert_eq.
      + inversion Eg; subst input1. skip_fields. apply lookup_insert_eq.
    - inversion Eg; subst input1. skip_fields. apply lookup_insert_eq. }
  destruct (0 <? size (asMap (Get d "tags")))%nat; destruct (GetOk d "metadata");
    destruct (GetOk d "kms_key_id"); skip_fields; exact H1.
Qed.
End CopyRequest.

(** The grants win over the ACL [public-read]. *)
Lemma X12_grants_witness :
  exists input,
    copyObjectInput demoObjectGrants = Done input /\
    input !! "ACL" = None /\
    input !! "GrantFullControl" = None /\
    input !! "GrantRead" =
      Some (VString "id=abc123,uri=http://acs.amazonaws.com/groups/global/AllUsers") /\
    input !! "GrantReadACP" = Some (VString "id=abc123") /\
    input !! "GrantWriteACP" = None.
Proof.
  exact (proj1 (X12_grants_replace_acl demoObjectGrants) demoGrants
               {| FullControl := None;
                  Read := Some "id=abc123,uri=http://acs.amazonaws.com/groups/global/AllUsers";
                  ReadACP := Some "id=abc123";
                  WriteACP := None |}
               eq_refl ltac:(discriminate) eq_refl).
Defined.

(** AES256 is asked for, although a KMS key is configured. *)
Lemma X13_encryption_witness :
  exists input,
    copyObjectInput demoObjectKms = Done input /\
    input !! "ServerSideEncryption" = Some (VString "AES256") /\
    input !! "SSEKMSKeyId" = Some (VString "arn:aws:kms:key/1").
Proof.
  destruct (copyObjectInput demoObjectKms) as [input|r] eqn:E; [|discriminate E].
  exists input. split; [reflexivity|].
  exact (X13_encryption_of_the_request demoObjectKms input E).
Defined.

(** ** The copy and the update of the object copy *)

Section CopyMore.
Context {R : Type} `{S3 R} `{S3Helpers}.

Local Abbreviation W := (World R s3_call).

(** X14. A copy that fails writes nothing.  When building the
    request panics no call is made; when the CopyObject call fails,
    the copy returns an error that names the bucket, the key and the
    escaped source and ends with the error of the call, after this
    one call; the resource data and the id are as before, so a
    failed Create leaves the resource without id. *)
Theorem X14_failed_copy_writes_nothing (w : W) :
  (forall r, copyObjectInput (w_d w) = Panic r ->
             resourceAwsS3ObjectCopyDoCopy w = (Panic r, w)) /\
  (forall input err r1,
      copyObjectInput (w_d w) = Done input ->
      s3_CopyObject input (w_remote w) = (inl err, r1) ->
      resourceAwsS3ObjectCopyCreate w =
        (Done (Some (fmt_Errorf
                       "Error copying S3 object (bucket: %s; key: %s; source: %s): %s"
                       [asString (Get (w_d w) "bucket"); asString (Get (w_d w) "key");
                        url_QueryEscape (asString (Get (w_d w) "source"))] err)),
         mkWorld (w_d w) r1 (w_log w ++ [Call (CopyObject input)]))).
Proof.
  split.
  - intros r Hp. unfold resourceAwsS3ObjectCopyDoCopy. unfold getD at 1. unfold bind at 1.
    now rewrite Hp.
  - intros input err r1 Hin Hc.
    unfold resourceAwsS3ObjectCopyCreate, resourceAwsS3ObjectCopyDoCopy.
    unfold getD at 1. unfold bind at 1. rewrite Hin.
    unfold conn_CopyObject, conn. unfold bind at 1. rewrite Hc. cbn [w_d w_remote w_log].
    destruct (copyObjectInput_Key _ _ Hin) as [HK HB].
    rewrite HK, HB, (copyObjectInput_CopySource _ _ Hin). reflexivity.
Qed.

Lemma HasChanges_true (d : ResourceData) (keys : list string) (key : string) :
  key ∈ keys -> HasChange d key = true -> HasChanges d keys = true.
Proof.
  intros Hin Hc. unfold HasChanges. apply existsb_exists. exists key.
  split; [now apply list_elem_of_In | exact Hc].
Qed.

(** X15. Update copies the object again when one of the arguments
    it lists changed, whether or not a copy_if_* attribute is set;
    an argument changed when its value in the prior state and its
    planned value differ. *)
Theorem X15_update_copies_on_change (w : W) (key : string) :
  key ∈ args ->
  nz (rd_state (w_d w) !! key) <> nz (rd_planned (w_d w) !! key) ->
  resourceAwsS3ObjectCopyUpdate w = resourceAwsS3ObjectCopyDoCopy w.
Proof.
  intros Hin Hne. unfold resourceAwsS3ObjectCopyUpdate. unfold getD at 1. unfold bind at 1.
  destruct (anySet (w_d w) copyIfKeys); [reflexivity|].
  rewrite (HasChanges_true (w_d w) args key Hin); [reflexivity|].
  unfold HasChange, GetChange. now apply bool_decide_eq_true_2.
Qed.
End CopyMore.

(** The object store refuses the copy. *)
Lemma X14_failed_copy_witness :
  exists input,
    copyObjectInput demoObject = Done input /\
    resourceAwsS3ObjectCopyCreate (mkWorld demoObject refusingStore []) =
      (Done (Some (fmt_Errorf
                     "Error copying S3 object (bucket: %s; key: %s; source: %s): %s"
                     ["b"; "//logs///2021/a.txt"; "src/a.txt"] denied)),
       mkWorld demoObject refusingStore [Call (CopyObject input)]).
Proof.
  destruct (copyObjectInput demoObject) as [input|r] eqn:E; [|discriminate E].
  exists input. split; [reflexivity|].
  exact (proj2 (X14_failed_copy_writes_nothing (mkWorld demoObject refusingStore []))
               input denied refusingStore E eq_refl).
Defined.

(** The storage class changes and no copy_if_* attribute is set. *)
Lemma X15_update_witness :
  resourceAwsS3ObjectCopyUpdate (demoS3World demoObjectChanged) =
  resourceAwsS3ObjectCopyDoCopy (demoS3World demoObjectChanged).
Proof.
  apply (X15_update_copies_on_change (demoS3World demoObjectChanged) "storage_class").
  - unfold args. set_solver.
  - vm_compute. discriminate.
Defined.

(** ** A copy and a Read that succeed *)

Lemma Get_SetId (d : ResourceData) (id key : string) : Get (SetId id d) key = Get d key.
Proof. reflexivity. Qed.

(** An attribute that is not among those written reads as before. *)
Lemma Get_SetAll_other (attrs : list (string * Value)) (d : ResourceData) (key : string) :
  key ∉ attrs.*1 -> Get (SetAll attrs d) key = Get d key.
Proof.
  revert d. induction attrs as [|[k v] attrs IH]; intros d Hn; [reflexivity|].
  cbn [fmap list_fmap fst] in Hn. apply not_elem_of_cons in Hn as [Hne Hn].
  change (SetAll ((k, v) :: attrs) d) with (SetAll attrs (Set_ k v d)).
  rewrite (IH _ Hn). apply Get_Set_ne. congruence.
Qed.

Section CopySucceeds.
Context {R : Type} `{S3 R} `{S3Helpers}.

Local Abbreviation W := (World R s3_call).

(** The copy, when the CopyObject call succeeds. *)
Lemma DoCopy_success (w : W) input output r1 :
  copyObjectInput (w_d w) = Done input ->
  s3_CopyObject input (w_remote w) = (inr output, r1) ->
  let key := asString (Get (w_d w) "key") in
  let d1 := SetId key (SetAll (copyAttributes output) (w_d w)) in
  resourceAwsS3ObjectCopyDoCopy w =
    (Done (s3_BucketObjectRead d1 r1).1.1,
     mkWorld (s3_BucketObjectRead d1 r1).1.2 (s3_BucketObjectRead d1 r1).2
             (w_log w ++ [Call (CopyObject input); PersistId key;
                          Call resourceAwsS3BucketObjectRead])).
Proof.
  intros Hin Hc. cbv zeta.
  assert (Hkey : Get (SetAll (copyAttributes output) (w_d w)) "key" = Get (w_d w) "key").
  { apply Get_SetAll_other. unfold copyAttributes.
    destruct (cp_CopyObjectResult output), (cp_RequestCharged output);
      cbn [app fmap list_fmap fst]; set_solver. }
  rewrite <- Hkey.
  unfold resourceAwsS3ObjectCopyDoCopy. unfold getD at 1. unfold bind at 1. rewrite Hin.
  unfold conn_CopyObject, conn. unfold bind at 1. rewrite Hc.
  unfold copyAttributes, SetAll.
  unfold bind, d_Set, d_SetId, getD, ret, call_resourceAwsS3BucketObjectRead.
  cbn [w_d w_remote w_log].
  destruct (cp_CopyObjectResult output) as [res|], (cp_RequestCharged output) as [rc|];
    cbn [w_d w_remote w_log app fold_left fst snd];
    match goal with
    | |- context [s3_BucketObjectRead ?d ?r] =>
        destruct (s3_BucketObjectRead d r) as [[err d2] r2]
    end;
    cbn [fst snd]; rewrite <- !app_assoc; reflexivity.
Qed.

(** X16. When the CopyObject call succeeds, the copy writes the
    attributes of the answer, makes the key of the resource data,
    as it is configured, the id, and ends with the Read of the
    bucket object, whose error and resource data it returns.  The
    data that Read starts from has the new id, the prior state and
    the plan as before, the version id of the answer, and the entity
    tag of the answer without the quotes around it; no entity tag is
    written when the answer has no copy result. *)
Theorem X16_successful_copy (w : W) input output r1 :
  copyObjectInput (w_d w) = Done input ->
  s3_CopyObject input (w_remote w) = (inr output, r1) ->
  let key := asString (Get (w_d w) "key") in
  let d1 := SetId key (SetAll (copyAttributes output) (w_d w)) in
  resourceAwsS3ObjectCopyDoCopy w =
    (Done (s3_BucketObjectRead d1 r1).1.1,
     mkWorld (s3_BucketObjectRead d1 r1).1.2 (s3_BucketObjectRead d1 r1).2
             (w_log w ++ [Call (CopyObject input); PersistId key;
                          Call resourceAwsS3BucketObjectRead])) /\
  Id d1 = key /\
  rd_state d1 = rd_state (w_d w) /\
  rd_planned d1 = rd_planned (w_d w) /\
  asString (Get d1 "version_id") = aws_StringValue (cp_VersionId output) /\
  (forall res, cp_CopyObjectResult output = Some res ->
               asString (Get d1 "etag") =
                 strings_Trim (aws_StringValue (cor_ETag res)) quote) /\
  (cp_CopyObjectResult output = None -> Get d1 "etag" = Get (w_d w) "etag").
Proof.
  intros Hin Hc. cbv zeta.
  refine (conj (DoCopy_success w input output r1 Hin Hc) (conj eq_refl (conj _ (conj _
            (conj _ (conj _ _)))))).
  - cbn [SetId rd_state]. apply SetAll_state.
  - cbn [SetId rd_planned]. apply SetAll_planned.
  - rewrite Get_SetId. unfold copyAttributes, SetAll.
    destruct (cp_CopyObjectResult output), (cp_RequestCharged output);
      cbn [app fold_left fst snd]; rewrite Get_Set_eq; apply asString_nz.
  - intros res Hres. rewrite Get_SetId. unfold copyAttributes. rewrite Hres.
    unfold SetAll. destruct (cp_RequestCharged output); cbn [app fold_left fst snd];
      repeat first [rewrite Get_Set_eq | rewrite Get_Set_ne by discriminate];
      apply asString_nz.
  - intros Hres. rewrite Get_SetId. apply Get_SetAll_other. unfold copyAttributes.
    rewrite Hres. destruct (cp_RequestCharged output); cbn [app fmap list_fmap fst];
      set_solver.
Qed.
End CopySucceeds.

(** The steps of the monad, one at a time. *)
Section MonadSteps.
Context {R C : Type}.

Local Abbreviation W := (World R C).

Lemma bind_getD {A} (k : ResourceData -> M W A) (w : W) : bind getD k w = k (w_d w) w.
Proof. reflexivity. Qed.

Lemma bind_ret {A B} (a : A) (k : A -> M W B) (w : W) : bind (ret a) k w = k a w.
Proof. reflexivity. Qed.

Lemma bind_bind {A B D} (m : M W A) (f : A -> M W B) (g : B -> M W D) (w : W) :
  bind (bind m f) g w = bind m (fun a => bind (f a) g) w.
Proof. unfold bind. destruct (m w) as [[a|r] w']; reflexivity. Qed.

Lemma bind_d_Set {A} (key : string) (v : Value) (k : unit -> M W A) (w : W) :
  bind (d_Set key v) k w = k tt (mkWorld (Set_ key v (w_d w)) (w_remote w) (w_log w)).
Proof. reflexivity. Qed.

Lemma bind_conn {A B} (c : C) (answer : R -> A * R) (k : A -> M W B) (w : W) :
  bind (conn c answer) k w =
    k (answer (w_remote w)).1
      (mkWorld (w_d w) (answer (w_remote w)).2 (w_log w ++ [Call c])).
Proof. unfold bind, conn. destruct (answer (w_remote w)) as [a r']. reflexivity. Qed.
End MonadSteps.

Section ReadSucceeds.
Context {R : Type} `{S3 R}.

Local Abbreviation W := (World R s3_call).

Lemma bind_SetKMS {A} (sseKMSKeyId : option string) (k : option error -> M W A) (w : W) :
  bind (call_resourceAwsS3BucketObjectSetKMS sseKMSKeyId) k w =
    k (s3_BucketObjectSetKMS sseKMSKeyId (w_d w) (w_remote w)).1.1
      (mkWorld (s3_BucketObjectSetKMS sseKMSKeyId (w_d w) (w_remote w)).1.2
               (s3_BucketObjectSetKMS sseKMSKeyId (w_d w) (w_remote w)).2
               (w_log w ++ [Call (resourceAwsS3BucketObjectSetKMS sseKMSKeyId)])).
Proof.
  unfold bind, call_resourceAwsS3BucketObjectSetKMS.
  destruct (s3_BucketObjectSetKMS _ _ _) as [[err d'] r']. reflexivity.
Qed.

(** X17. A Read that finds the object writes the attributes of the
    head request and hands the resource data to the step for the
    KMS key.  When that step fails, Read returns its error wrapped
    and makes no further call.  Otherwise it writes the entity tag
    without the quotes around it and the storage class, STANDARD
    when the answer names none, and lists the tags: an error of the
    listing is returned with the bucket and the key in its message,
    and otherwise the tags are written after the filter of the
    provider and Read returns nil. *)
Theorem X17_read_of_an_object (meta : AWSClient) (w : W) resp r1 :
  let bucket := asString (Get (w_d w) "bucket") in
  let key := asString (Get (w_d w) "key") in
  let head := Call (HeadObject bucket key) in
  let kms := Call (resourceAwsS3BucketObjectSetKMS (ho_SSEKMSKeyId resp)) in
  let d1 := SetAll (headAttributes resp) (w_d w) in
  s3_HeadObject bucket key (w_remote w) = (inr resp, r1) ->
  (forall e dk r2,
      s3_BucketObjectSetKMS (ho_SSEKMSKeyId resp) d1 r1 = ((Some e, dk), r2) ->
      resourceAwsS3ObjectCopyRead meta w =
        (Done (Some (fmt_Errorf "bucket object KMS: %w" [] e)),
         mkWorld dk r2 (w_log w ++ [head; kms]))) /\
  (forall dk r2,
      s3_BucketObjectSetKMS (ho_SSEKMSKeyId resp) d1 r1 = ((None, dk), r2) ->
      let d2 := SetAll (storageAttributes resp) dk in
      let out := resourceAwsS3ObjectCopyRead meta w in
      w_log out.2 = w_log w ++ [head; kms; Call (S3ObjectListTags bucket key)] /\
      w_remote out.2 = (s3_ObjectListTags bucket key r2).2 /\
      asString (Get d2 "etag") = strings_Trim (aws_StringValue (ho_ETag resp)) quote /\
      asString (Get d2 "storage_class") = default StorageClassStandard (ho_StorageClass resp) /\
      match (s3_ObjectListTags bucket key r2).1 with
      | inl err =>
          out.1 = Done (Some (fmt_Errorf
                                "error listing tags for S3 Bucket (%s) Object (%s): %w"
                                [bucket; key] err)) /\
          w_d out.2 = d2
      | inr tags =>
          out.1 = Done None /\
          w_d out.2 = Set_ "tags" (VMap (IgnoreTags meta tags)) d2 /\
          asMap (Get (w_d out.2) "tags") = IgnoreTags meta tags
      end).
Proof.
  cbv zeta. intros Hh.
  assert (Hrun : resourceAwsS3ObjectCopyRead meta w =
            let bucket := asString (Get (w_d w) "bucket") in
            let key := asString (Get (w_d w) "key") in
            let head := Call (HeadObject bucket key) in
            let kms := Call (resourceAwsS3BucketObjectSetKMS (ho_SSEKMSKeyId resp)) in
            let d1 := SetAll (headAttributes resp) (w_d w) in
            match s3_BucketObjectSetKMS (ho_SSEKMSKeyId resp) d1 r1 with
            | ((Some e, dk), r2) =>
                (Done (Some (fmt_Errorf "bucket object KMS: %w" [] e)),
                 mkWorld dk r2 (w_log w ++ [head; kms]))
            | ((None, dk), r2) =>
                let d2 := SetAll (storageAttributes resp) dk in
                let log := w_log w ++ [head; kms; Call (S3ObjectListTags bucket key)] in
                match s3_ObjectListTags bucket key r2 with
                | (inl err, r3) =>
                    (Done (Some (fmt_Errorf
                                   "error listing tags for S3 Bucket (%s) Object (%s): %w"
                                   [bucket; key] err)),
                     mkWorld d2 r3 log)
                | (inr tags, r3) =>
                    (Done None,
                     mkWorld (Set_ "tags" (VMap (IgnoreTags meta tags)) d2) r3 log)
                end
            end).
  { unfold resourceAwsS3ObjectCopyRead. rewrite bind_getD. cbv zeta.
    unfold s3conn_HeadObject. rewrite bind_conn, Hh. cbn [fst snd].
    repeat (rewrite bind_d_Set; cbn [w_d w_remote w_log]).
    change (Set_ "object_lock_retain_until_date" _ _)
      with (SetAll (headAttributes resp) (w_d w)).
    unfold orReturn. rewrite bind_bind, bind_SetKMS. cbn [w_d w_remote w_log].
    destruct (s3_BucketObjectSetKMS _ _ r1) as [[[e|] dk] r2]; cbn [fst snd].
    - rewrite !bind_ret. unfold ret. now rewrite <- app_assoc.
    - rewrite !bind_ret. repeat (rewrite bind_d_Set; cbn [w_d w_remote w_log]).
      unfold storageAttributes, SetAll, keyvaluetags_S3ObjectListTags.
      destruct (ho_StorageClass resp) as [sc|];
        [rewrite bind_d_Set | rewrite bind_ret];
        rewrite bind_conn; cbn [w_d w_remote w_log app fold_left fst snd];
        destruct (s3_ObjectListTags _ _ r2) as [[err|tags] r3]; cbn [fst snd];
        [|rewrite bind_d_Set| |rewrite bind_d_Set];
        unfold ret; cbn [w_d w_remote w_log]; rewrite <- !app_assoc; reflexivity. }
  rewrite Hrun. cbv zeta. clear Hrun. split.
  - intros e dk r2 Hk. now rewrite Hk.
  - intros dk r2 Hk. rewrite Hk.
    assert (He : asString (Get (SetAll (storageAttributes resp) dk) "etag") =
                 strings_Trim (aws_StringValue (ho_ETag resp)) quote).
    { unfold storageAttributes, SetAll.
      destruct (ho_StorageClass resp); cbn [app fold_left fst snd];
        repeat first [rewrite Get_Set_eq | rewrite Get_Set_ne by discriminate];
        apply asString_nz. }
    assert (Hs : asString (Get (SetAll (storageAttributes resp) dk) "storage_class") =
                 default StorageClassStandard (ho_StorageClass resp)).
    { unfold storageAttributes, SetAll.
      destruct (ho_StorageClass resp); cbn [app fold_left fst snd default];
        rewrite Get_Set_eq; apply asString_nz. }
    destruct (s3_ObjectListTags _ _ r2) as [[err|tags] r3]; cbn [fst snd w_d w_remote w_log].
    + repeat split; assumption.
    + repeat split; try assumption. rewrite Get_Set_eq. apply asMap_nz.
Qed.
End ReadSucceeds.

(** The copy answers with the entity tag in quotes and the version
    v1: the id becomes the key as configured, the entity tag is kept
    without the quotes. *)
Lemma X16_successful_copy_witness :
  exists input d1,
    copyObjectInput demoObject = Done input /\
    (resourceAwsS3ObjectCopyDoCopy (mkWorld demoObject holdingStore [])).1 = Done None /\
    w_d (resourceAwsS3ObjectCopyDoCopy (mkWorld demoObject holdingStore [])).2 = d1 /\
    Id d1 = "//logs///2021/a.txt" /\
    asString (Get d1 "version_id") = "v1" /\
    asString (Get d1 "etag") = "9b2cf535".
Proof.
  destruct (copyObjectInput demoObject) as [input|r] eqn:E; [|discriminate E].
  assert (Hc : s3_CopyObject input holdingStore = (inr demoCopyOutput, holdingStore))
    by reflexivity.
  destruct (X16_successful_copy (mkWorld demoObject holdingStore []) input demoCopyOutput
              holdingStore E Hc) as (Hrun & Hid & _ & _ & Hv & He & _).
  cbv zeta in *. eexists input, _.
  refine (conj eq_refl (conj _ (conj _ (conj Hid (conj Hv (He _ eq_refl)))))).
  - now rewrite Hrun.
  - now rewrite Hrun.
Defined.

(** The object is there, in no named storage class, with one tag. *)
Lemma X17_read_witness :
  let out := resourceAwsS3ObjectCopyRead demoMeta (mkWorld demoObject holdingStore []) in
  out.1 = Done None /\
  w_log out.2 = [Call (HeadObject "b" "//logs///2021/a.txt");
                 Call (resourceAwsS3BucketObjectSetKMS None);
                 Call (S3ObjectListTags "b" "//logs///2021/a.txt")] /\
  asMap (Get (w_d out.2) "tags") = {["team" := "a"]}.
Proof.
  cbv zeta.
  assert (Hh : s3_HeadObject "b" "//logs///2021/a.txt" holdingStore =
               (inr demoHead, holdingStore)) by reflexivity.
  assert (Hk : s3_BucketObjectSetKMS None (SetAll (headAttributes demoHead) demoObject)
                 holdingStore =
               ((None, SetAll (headAttributes demoHead) demoObject), holdingStore))
    by reflexivity.
  destruct (proj2 (X17_read_of_an_object demoMeta (mkWorld demoObject holdingStore [])
                     demoHead holdingStore Hh) _ holdingStore Hk)
    as (Hl & _ & _ & _ & Ht).
  cbv zeta in Ht. cbn [fst s3_ObjectListTags S3Script_S3 holdingStore on_ListTags] in Ht.
  destruct Ht as (H1 & _ & H3).
  exact (conj H1 (conj Hl H3)).
Defined.
